(** * usePromptFileHandling: the prompt attachment hook

    A shallow embedding of the React hook [usePromptFileHandling]
    (client/src/hooks, the file that exports [usePromptFileHandling]) and of
    the properties its specification states about it.

    Conventions of the embedding.
    - A JavaScript [Map] is an insertion-ordered association list with
      unique keys ([JsMap]). A plain object used as a dictionary is the
      association list of its own properties together with what it inherits:
      a read of a name that is no own property finds the property of
      [Object.prototype] of that name, if there is one ([JsObject.lookup]),
      and an assignment to [__proto__] replaces the prototype.
    - [number] values that hold fractions ([progress]) are rationals; NaN and
      the infinities are not represented. Integral numbers are in [Z].
    - [undefined] is [None]; a value is "truthy" as JavaScript defines it.
    - Handlers run in the monad [Act]: the hook's state is threaded, the
      calls that leave the hook (toasts, logs, uploads) are recorded in a
      trace, and an exception propagates until a [try_catch].
    - React applies a state update when it is requested; the effect that
      hands [promptFiles] to the owner's [fileSetter] after a change is not
      part of the model. *)

From Stdlib Require Import String Ascii List ZArith QArith Bool Lia Arith.
Import ListNotations.
Close Scope Q_scope.
Local Open Scope string_scope.
Local Open Scope list_scope.

(** ** JavaScript strings and truthiness *)

(** [!!s] for a string. *)
Definition truthy (s : string) : bool := negb (s =? "").

(** [!!s] for [string | undefined]. *)
Definition truthy_opt (s : option string) : bool :=
  match s with Some s => truthy s | None => false end.

(** [s.startsWith(p)]. *)
Definition startsWith (p s : string) : bool := String.prefix p s.

(** [s.includes(p)]. *)
Definition includes (p s : string) : bool :=
  match String.index 0 p s with Some _ => true | None => false end.

(** [s?.startsWith(p)] used as a condition: [undefined] is falsy. *)
Definition opt_startsWith (p : string) (s : option string) : bool :=
  match s with Some s => startsWith p s | None => false end.

(** [a === b] for [string | undefined] against a string. *)
Definition strict_eq (a : option string) (b : string) : bool :=
  match a with Some a => a =? b | None => false end.

(** [ids.includes(id)] on an array of strings. *)
Definition array_includes (ids : list string) (id : string) : bool :=
  existsb (String.eqb id) ids.

(** ** Insertion-ordered maps: [Map] and dictionary objects *)

Module JsMap.
Section Ops.
Context {V : Type}.

Definition t := list (string * V).

Definition empty : t := [].

(** [m.get(k)] *)
Fixpoint get (k : string) (m : t) : option V :=
  match m with
  | [] => None
  | (k', v) :: m' => if k =? k' then Some v else get k m'
  end.

(** [m.set(k, v)]: an existing key keeps its place. *)
Fixpoint set (k : string) (v : V) (m : t) : t :=
  match m with
  | [] => [(k, v)]
  | (k', v') :: m' => if k =? k' then (k', v) :: m' else (k', v') :: set k v m'
  end.

(** [m.delete(k)] *)
Fixpoint delete (k : string) (m : t) : t :=
  match m with
  | [] => []
  | (k', v') :: m' => if k =? k' then m' else (k', v') :: delete k m'
  end.

Definition keys (m : t) : list string := map fst m.

(** [Array.from(m.values())] *)
Definition values (m : t) : list V := map snd m.

Definition has (k : string) (m : t) : bool :=
  match get k m with Some _ => true | None => false end.

End Ops.
Arguments t : clear implicits.
End JsMap.

(** ** Property enumeration order of a plain object

    [Object.entries] and [Object.keys] list the own string keys that are
    array indices first, in ascending numeric order, and then the remaining
    keys in the order of their creation. *)

Module JsObject.

Definition digit (c : ascii) : option N :=
  let n := N_of_ascii c in
  if ((48 <=? n) && (n <=? 57))%N then Some (n - 48)%N else None.

Fixpoint digits (s : string) (acc : N) : option N :=
  match s with
  | EmptyString => Some acc
  | String c s' =>
      match digit c with
      | Some d => digits s' (10 * acc + d)%N
      | None => None
      end
  end.

(** The canonical numeric strings below [2^32 - 1]. *)
Definition array_index (s : string) : option N :=
  match s with
  | EmptyString => None
  | String c s' =>
      match digits s 0 with
      | Some n =>
          if (Ascii.eqb c "0" && negb (s' =? ""))%bool then None
          else if (n <? 4294967295)%N then Some n else None
      | None => None
      end
  end.

Definition is_index (s : string) : bool :=
  match array_index s with Some _ => true | None => false end.

Definition index_of (s : string) : N :=
  match array_index s with Some n => n | None => 0%N end.

(** The names that every plain object inherits from [Object.prototype].
    Each of them holds a function, and [__proto__] the prototype itself: a
    truthy value, which has none of the properties the hook reads from the
    values it stores in its dictionaries. *)
Definition prototype_names : list string :=
  [ "constructor"; "__defineGetter__"; "__defineSetter__"; "hasOwnProperty";
    "__lookupGetter__"; "__lookupSetter__"; "isPrototypeOf"; "propertyIsEnumerable";
    "toString"; "valueOf"; "__proto__"; "toLocaleString" ].

Definition inherited (name : string) : bool := array_includes prototype_names name.
Arguments inherited : simpl never.

(** The result of [o[name]] on a plain object whose prototype is
    [Object.prototype]. *)
Inductive Lookup (V : Type) : Type :=
| Own (v : V)      (* the own property of that name *)
| Inherited        (* the property of [Object.prototype] of that name *)
| Missing.         (* [undefined] *)
Arguments Own {V} v.
Arguments Inherited {V}.
Arguments Missing {V}.

Section Entries.
Context {V : Type}.

(** [o[name]] *)
Definition lookup (name : string) (o : JsMap.t V) : Lookup V :=
  match JsMap.get name o with
  | Some v => Own v
  | None => if inherited name then Inherited else Missing
  end.

Fixpoint insert_by_index (e : string * V) (l : list (string * V)) : list (string * V) :=
  match l with
  | [] => [e]
  | e' :: l' =>
      if (index_of (fst e) <=? index_of (fst e'))%N then e :: l
      else e' :: insert_by_index e l'
  end.

Definition sort_by_index (l : list (string * V)) : list (string * V) :=
  fold_right insert_by_index [] l.

(** [Object.entries(o)] *)
Definition entries (o : JsMap.t V) : list (string * V) :=
  sort_by_index (filter (fun e => is_index (fst e)) o)
    ++ filter (fun e => negb (is_index (fst e))) o.

(** [Object.keys(o).length] *)
Definition keys_length (o : JsMap.t V) : nat := length (entries o).

End Entries.
End JsObject.

(** ** The data the hook works on *)

(** Modelled from the spec: the members of the enumeration [EToolResources]
    (the category tags of §3), which the data-provider package declares;
    each member is the string of its own name. *)
Module EToolResources.
Definition execute_code : string := "execute_code".
Definition file_search : string := "file_search".
Definition image_edit : string := "image_edit".
Definition ocr : string := "ocr".
End EToolResources.

(** Modelled from the spec: the two members of [FileSources] the hook names,
    declared by the data-provider package. *)
Module FileSources.
Definition local : string := "local".
Definition vectordb : string := "vectordb".
End FileSources.

(** Modelled from the spec: [EModelEndpoint.agents], the fixed identity of
    the consuming agent pipeline (§6). *)
Module EModelEndpoint.
Definition agents : string := "agents".
End EModelEndpoint.

(** The browser's [File]: the fields the hook reads. *)
Module File.
Record t := mk { name : string; type : string; size : Z }.
End File.

(** Modelled from the spec: the record of file metadata [TFile] returned by
    the file listing (the "metadata lookup" of §4.3); the fields the hook
    reads. [type] is read through [?.] and so may be missing. *)
Module TFile.
Record t := mk {
  file_id : string;
  type : option string;
  filename : string;
  filepath : string;
  bytes : Z;
  width : option Z;
  height : option Z;
  metadata : option string;
  source : option string
}.

(** What [file[name]] reads as on a listed file: [Some true] for a truthy
    value, [Some false] for a falsy one, [None] when the file has no own
    property of that name. Modelled from the spec: a listed file has the
    properties of this record, those whose value is [undefined] left out, and
    its [metadata] is an object with none of them. *)
Definition own_truthy (file : t) (name : string) : option bool :=
  if name =? "file_id" then Some (truthy (file_id file))
  else if name =? "type" then option_map truthy (type file)
  else if name =? "filename" then Some (truthy (filename file))
  else if name =? "filepath" then Some (truthy (filepath file))
  else if name =? "bytes" then Some (negb (bytes file =? 0)%Z)
  else if name =? "width" then option_map (fun n => negb (n =? 0)%Z) (width file)
  else if name =? "height" then option_map (fun n => negb (n =? 0)%Z) (height file)
  else if name =? "metadata" then option_map (fun _ => true) (metadata file)
  else if name =? "source" then option_map truthy (source file)
  else None.
End TFile.

(** The upload service's answer, [TFile & { temp_file_id: string }]: the
    fields [onSuccess] reads. *)
Module TFileUpload.
Record t := mk { temp_file_id : string; file_id : string; filepath : string }.
End TFileUpload.

(** Modelled from the spec: the AttachmentRecord of §3, [ExtendedFile] in the
    client's common types. The property [file_id] is a string by its type;
    it is [undefined] on the record that a restoration builds from a value
    that is no listed file ([unreadable] below), so the record holds it in
    [raw_file_id]. *)
Module ExtendedFile.
Record t := mk {
  raw_file_id : option string;
  temp_file_id : option string;
  type : option string;
  filename : option string;
  filepath : option string;
  progress : Q;
  preview : option string;
  size : Z;
  width : option Z;
  height : option Z;
  attached : option bool;
  file : option File.t;
  tool_resource : option string;
  metadata : option string;
  source : option string
}.

(** [file.file_id] where the hook tests it, or uses it after the test or on a
    record it built with a string there: [undefined] is falsy as the empty
    string is. The comparison [f.file_id !== fileId] reads [raw_file_id]. *)
Definition file_id (file : t) : string :=
  match raw_file_id file with
  | Some id => id
  | None => ""
  end.
End ExtendedFile.

(** One entry of the persisted tool-resource shape: [{ file_ids?: string[] }]. *)
Module Resource.
Record t := mk { file_ids : option (list string) }.
End Resource.

(** [AgentToolResources]: category name to resource; a property may hold
    [undefined]. *)
Definition AgentToolResources := JsMap.t (option Resource.t).

(** [FormData] as the list of appended fields. *)
Inductive FormValue :=
| FormString (s : string)
| FormNumber (n : Z)                              (* [n.toString()] *)
| FormFile (f : option File.t) (name : option string).  (* name passed through [encodeURIComponent] *)

Definition FormData := list (string * FormValue).

(** [formData.get(name)]: the first value appended under [name]. *)
Fixpoint form_get (name : string) (fd : FormData) : option FormValue :=
  match fd with
  | [] => None
  | (n, v) :: fd' => if name =? n then Some v else form_get name fd'
  end.

(** ** The world a handler runs in *)

Module User.
Record t := mk { id : string }.
End User.

(** The result of a call that may throw, or of a promise that may reject. *)
Inductive Outcome (A : Type) : Type :=
| Returned (a : A)
| Thrown (error : string).
Arguments Returned {A} a.
Arguments Thrown {A} error.

Module Request.
Record t := mk { url : string; authorization : string }.
End Request.

(** A [fetch] response; [blob] is what [response.blob()] settles to. *)
Module Response.
Record t := mk { status : Z; statusText : string; blob : Outcome string }.

(** Modelled from the spec: [response.ok], true for the 2xx statuses (§6). *)
Definition ok (r : t) : bool := ((200 <=? status r) && (status r <=? 299))%Z.
End Response.

(** What the hook is given: the session of [useAuthContext], the listing of
    [useGetFiles], whether the owner passed a [fileSetter], and the answers
    of the browser. The [n]-th call to the browser gets the [n]-th answer. *)
Record Env := mkEnv {
  user : option User.t;
  token : option string;
  allFiles : list TFile.t;
  fileSetter : bool;
  fetch : nat -> Request.t -> Outcome Response.t;
  createObjectURL : nat -> string -> Outcome string
}.

(** An [AbortController], known by a handle. *)
Definition AbortController := nat.

(** The hook's state ([files], [filesLoading], [abortControllerRef]) and the
    work it has handed to the browser: the images being decoded, each with the
    arguments its [onload] closure captured, and the uploads in flight. *)
Record World := mkWorld {
  files : JsMap.t ExtendedFile.t;
  filesLoading : bool;
  abortControllerRef : option AbortController;
  decoding : list (ExtendedFile.t * string);
  inflight : list FormData;
  clock : nat
}.

(** Calls that leave the hook. [console.log] calls, which only print, are
    not recorded. *)
Inductive Effect :=
| logger_log (label : string)
| logger_error (label : string)
| console_error (label : string)
| showToast (message status : string)
| fetched (request : Request.t)
| mutate (formData : FormData)
| abort (controller : AbortController) (reason : string)
| revokeObjectURL (url : string)
| fileSetter_call (files : list ExtendedFile.t).

(** ** The monad of handlers *)

Definition Act (A : Type) : Type := World -> Outcome A * World * list Effect.

Definition ret {A} (a : A) : Act A := fun w => (Returned a, w, []).

Definition bind {A B} (c : Act A) (k : A -> Act B) : Act B :=
  fun w =>
    match c w with
    | (Returned a, w1, t1) =>
        match k a w1 with (r, w2, t2) => (r, w2, t1 ++ t2) end
    | (Thrown e, w1, t1) => (Thrown e, w1, t1)
    end.

Definition throw {A} (e : string) : Act A := fun w => (Thrown e, w, []).

(** [try { body } catch (error) { handler }] *)
Definition try_catch {A} (body : Act A) (handler : string -> Act A) : Act A :=
  fun w =>
    match body w with
    | (Returned a, w1, t1) => (Returned a, w1, t1)
    | (Thrown e, w1, t1) =>
        match handler e w1 with (r, w2, t2) => (r, w2, t1 ++ t2) end
    end.

(** [await p] *)
Definition await {A} (p : Outcome A) : Act A := fun w => (p, w, []).

Definition emit (e : Effect) : Act unit := fun w => (Returned tt, w, [e]).

Definition read {A} (f : World -> A) : Act A := fun w => (Returned (f w), w, []).

Definition modify (f : World -> World) : Act unit := fun w => (Returned tt, f w, []).

Declare Scope act_scope.
Delimit Scope act_scope with act.
Notation "x <- c ;; k" := (bind c (fun x => k))
  (at level 61, c at next level, right associativity) : act_scope.
Notation "c ;; k" := (bind c (fun _ => k))
  (at level 61, right associativity) : act_scope.
Local Open Scope act_scope.

(** [for (const x of xs) acc = body(acc, x)] *)
Fixpoint foldM {A B} (body : B -> A -> Act B) (xs : list A) (acc : B) : Act B :=
  match xs with
  | [] => ret acc
  | x :: xs' => acc' <- body acc x ;; foldM body xs' acc'
  end.

(** [xs.forEach(body)] *)
Definition forEach {A} (xs : list A) (body : A -> Act unit) : Act unit :=
  foldM (fun _ x => body x) xs tt.

Definition outcome {A} (r : Outcome A * World * list Effect) : Outcome A := fst (fst r).
Definition world {A} (r : Outcome A * World * list Effect) : World := snd (fst r).
Definition trace {A} (r : Outcome A * World * list Effect) : list Effect := snd r.

(** State setters and browser calls. *)

Definition setFiles (updater : JsMap.t ExtendedFile.t -> JsMap.t ExtendedFile.t) : Act unit :=
  modify (fun w => mkWorld (updater (files w)) (filesLoading w) (abortControllerRef w)
                           (decoding w) (inflight w) (clock w)).

Definition setFilesLoading (b : bool) : Act unit :=
  modify (fun w => mkWorld (files w) b (abortControllerRef w)
                           (decoding w) (inflight w) (clock w)).

Definition set_abortControllerRef (c : option AbortController) : Act unit :=
  modify (fun w => mkWorld (files w) (filesLoading w) c
                           (decoding w) (inflight w) (clock w)).

Definition set_decoding (d : list (ExtendedFile.t * string)) : Act unit :=
  modify (fun w => mkWorld (files w) (filesLoading w) (abortControllerRef w)
                           d (inflight w) (clock w)).

Definition set_inflight (l : list FormData) : Act unit :=
  modify (fun w => mkWorld (files w) (filesLoading w) (abortControllerRef w)
                           (decoding w) l (clock w)).

Definition tick : Act nat :=
  n <- read clock ;;
  modify (fun w => mkWorld (files w) (filesLoading w) (abortControllerRef w)
                           (decoding w) (inflight w) (S n)) ;;
  ret n.

(** [await fetch(url, { headers })] *)
Definition do_fetch (env : Env) (request : Request.t) : Act Response.t :=
  n <- tick ;;
  emit (fetched request) ;;
  await (fetch env n request).

(** [URL.createObjectURL(blob)] *)
Definition do_createObjectURL (env : Env) (blob : string) : Act string :=
  n <- tick ;;
  await (createObjectURL env n blob).

(** [uploadFile.mutate(formData)]: the request is handed to the transport. *)
Definition uploadFile_mutate (formData : FormData) : Act unit :=
  emit (mutate formData) ;;
  l <- read inflight ;;
  set_inflight (l ++ [formData]).

(** ** The hook *)

(** The authenticated retrieval of a file: the per-user, per-file download
    path, with the bearer credential. *)
Definition download_request (u : User.t) (tok fileId : string) : Request.t :=
  Request.mk ("/api/files/download/" ++ User.id u ++ "/" ++ fileId) ("Bearer " ++ tok).

(** [createAuthenticatedBlobUrl] *)
Definition createAuthenticatedBlobUrl (env : Env) (fileId : string) : Act (option string) :=
  match user env, token env with
  | Some u, Some tok =>
      if negb (truthy (User.id u)) || negb (truthy tok) then ret None
      else
        try_catch
          (response <- do_fetch env (download_request u tok fileId) ;;
           if negb (Response.ok response) then
             emit (console_error "Failed to fetch file:") ;;
             ret None
           else
             blob <- await (Response.blob response) ;;
             url <- do_createObjectURL env blob ;;
             ret (Some url))
          (fun error =>
             emit (console_error "Error creating authenticated blob URL:") ;;
             ret None)
  | _, _ => ret None
  end.

(** [fileMap], a plain object: its own properties. The assignment
    [map[file.file_id] = file] creates or replaces an own property, except
    under the name [__proto__], where it stores nothing and makes the file the
    prototype of the map ([fileMap_prototype]). *)
Definition fileMap (env : Env) : JsMap.t TFile.t :=
  fold_left
    (fun map file =>
       if truthy (TFile.file_id file) && negb (TFile.file_id file =? "__proto__")
       then JsMap.set (TFile.file_id file) file map
       else map)
    (allFiles env) JsMap.empty.

(** The listed file that the loop of [fileMap] made the prototype of the map:
    the last one whose [file_id] is [__proto__], if any. *)
Definition fileMap_prototype (env : Env) : option TFile.t :=
  fold_left
    (fun proto file => if TFile.file_id file =? "__proto__" then Some file else proto)
    (allFiles env) None.

(** What [fileMap[fileId]] finds. *)
Inductive Found :=
| Listed (dbFile : TFile.t)  (* a listed file *)
| Foreign                    (* a truthy value that is no listed file: every
                                property the hook reads from it is [undefined] *)
| Nothing.                   (* [undefined], or a falsy value *)

(** [fileMap[fileId]]: the own property; else the property the map inherits,
    from [Object.prototype] or, when a listed file replaced the prototype,
    from that file, whose [__proto__] reads as the file itself. *)
Definition fileMap_lookup (env : Env) (fileId : string) : Found :=
  match JsMap.get fileId (fileMap env) with
  | Some dbFile => Listed dbFile
  | None =>
      match fileMap_prototype env with
      | Some proto =>
          if fileId =? "__proto__" then Listed proto
          else match TFile.own_truthy proto fileId with
               | Some true => Foreign
               | Some false => Nothing
               | None => if JsObject.inherited fileId then Foreign else Nothing
               end
      | None => if JsObject.inherited fileId then Foreign else Nothing
      end
  end.

(** The initial value of [files]. Each initial file comes with the value
    [v4()] returns if it is asked for a key. *)
Definition initial_files (initialFiles : list (ExtendedFile.t * string))
  : JsMap.t ExtendedFile.t :=
  fold_left
    (fun filesMap '(file, uuid) =>
       let key :=
         if truthy (ExtendedFile.file_id file) then ExtendedFile.file_id file
         else match ExtendedFile.temp_file_id file with
              | Some t => if truthy t then t else uuid
              | None => uuid
              end in
       JsMap.set key file filesMap)
    initialFiles JsMap.empty.

Definition initial_world (fs : JsMap.t ExtendedFile.t) : World :=
  mkWorld fs false None [] [] 0.

(** The record [onSuccess] builds from the one it found:
    [{ ...file, file_id, filepath, progress: 1, attached: true, preview }]. *)
Definition uploaded (file : ExtendedFile.t) (data : TFileUpload.t) : ExtendedFile.t :=
  ExtendedFile.mk
    (Some (TFileUpload.file_id data))
    (ExtendedFile.temp_file_id file)
    (ExtendedFile.type file)
    (ExtendedFile.filename file)
    (Some (TFileUpload.filepath data))
    1%Q
    (if truthy_opt (ExtendedFile.preview file) then ExtendedFile.preview file
     else if opt_startsWith "image/" (ExtendedFile.type file)
          then Some (TFileUpload.filepath data) else None)
    (ExtendedFile.size file)
    (ExtendedFile.width file)
    (ExtendedFile.height file)
    (Some true)
    (ExtendedFile.file file)
    (ExtendedFile.tool_resource file)
    (ExtendedFile.metadata file)
    (ExtendedFile.source file).

(** The loop of [onSuccess] over [newFiles.entries()], which stops at the
    first record whose [temp_file_id] is the acknowledged one. *)
Fixpoint onSuccess_loop (data : TFileUpload.t)
    (entries : list (string * ExtendedFile.t))
    (newFiles : JsMap.t ExtendedFile.t) : JsMap.t ExtendedFile.t :=
  match entries with
  | [] => newFiles
  | (key, file) :: rest =>
      if strict_eq (ExtendedFile.temp_file_id file) (TFileUpload.temp_file_id data)
      then JsMap.set key (uploaded file data) newFiles
      else onSuccess_loop data rest newFiles
  end.

(** The updater [onSuccess] passes to [setFiles]. *)
Definition onSuccess_updater (data : TFileUpload.t) (prev : JsMap.t ExtendedFile.t)
  : JsMap.t ExtendedFile.t :=
  let newFiles := prev in
  onSuccess_loop data newFiles newFiles.

(** [uploadFile.onSuccess] *)
Definition onSuccess (data : TFileUpload.t) : Act unit :=
  emit (logger_log "File uploaded successfully") ;;
  setFiles (onSuccess_updater data) ;;
  setFilesLoading false ;;
  emit (showToast "File uploaded successfully" "success").

(** [uploadFile.onError] *)
Definition onError (error : string) : Act unit :=
  emit (logger_error "File upload error:") ;;
  setFilesLoading false ;;
  emit (showToast "Failed to upload file" "error").

(** [promptFiles] *)
Definition promptFiles (fs : JsMap.t ExtendedFile.t) : list ExtendedFile.t :=
  JsMap.values fs.

(** The fields every submission carries. *)
Definition submission (file : option File.t) (filename : option string) (file_id : string)
  : FormData :=
  [ ("endpoint", FormString EModelEndpoint.agents);
    ("file", FormFile file filename);
    ("file_id", FormString file_id);
    ("message_file", FormString "true") ].

Definition tool_resource_field (toolResource : option string) : FormData :=
  match toolResource with
  | Some tr => if truthy tr then [("tool_resource", FormString tr)] else []
  | None => []
  end.

(** [loadImage]: an [Image] is created, the closure below becomes its
    [onload], and [img.src = preview] starts the decoding. *)
Definition loadImage (extendedFile : ExtendedFile.t) (preview : string) : Act unit :=
  d <- read decoding ;;
  set_decoding (d ++ [(extendedFile, preview)]).

(** The record [img.onload] writes:
    [{ ...extendedFile, width, height, progress: 0.6 }]. *)
Definition measured (extendedFile : ExtendedFile.t) (width height : Z) : ExtendedFile.t :=
  ExtendedFile.mk
    (ExtendedFile.raw_file_id extendedFile)
    (ExtendedFile.temp_file_id extendedFile)
    (ExtendedFile.type extendedFile)
    (ExtendedFile.filename extendedFile)
    (ExtendedFile.filepath extendedFile)
    (3 # 5)%Q
    (ExtendedFile.preview extendedFile)
    (ExtendedFile.size extendedFile)
    (Some width)
    (Some height)
    (ExtendedFile.attached extendedFile)
    (ExtendedFile.file extendedFile)
    (ExtendedFile.tool_resource extendedFile)
    (ExtendedFile.metadata extendedFile)
    (ExtendedFile.source extendedFile).

(** [img.onload] of [loadImage], with the decoded width and height. *)
Definition img_onload (extendedFile : ExtendedFile.t) (preview : string)
    (width height : Z) : Act unit :=
  setFiles (JsMap.set (ExtendedFile.file_id extendedFile)
                      (measured extendedFile width height)) ;;
  uploadFile_mutate
    (submission (ExtendedFile.file extendedFile) (ExtendedFile.filename extendedFile)
                (ExtendedFile.file_id extendedFile)
     ++ [("width", FormNumber width); ("height", FormNumber height)]
     ++ tool_resource_field (ExtendedFile.tool_resource extendedFile)) ;;
  emit (revokeObjectURL preview).

(** One selected file, with what the browser returns for it: the identifier
    [v4()] generates and, for an image, the result of
    [URL.createObjectURL(file)]. *)
Module Selected.
Record t := mk { file : File.t; uuid : string; objectURL : string }.
End Selected.

(** The placeholder record [handleFileChange] registers. *)
Definition registered (sel : Selected.t) (toolResource : option string) : ExtendedFile.t :=
  let file := Selected.file sel in
  let file_id := Selected.uuid sel in
  let temp_file_id := file_id in
  ExtendedFile.mk
    (Some file_id)
    (Some temp_file_id)
    (Some (File.type file))
    (Some (File.name file))
    (Some "")
    0%Q
    (Some (if startsWith "image/" (File.type file) then Selected.objectURL sel else ""))
    (File.size file)
    None
    None
    (Some false)
    (Some file)
    toolResource
    None
    None.

(** The body of [fileList.forEach] in [handleFileChange]. *)
Definition handleFile (toolResource : option string) (sel : Selected.t) : Act unit :=
  let file := Selected.file sel in
  let file_id := Selected.uuid sel in
  let extendedFile := registered sel toolResource in
  setFiles (JsMap.set file_id extendedFile) ;;
  match ExtendedFile.preview extendedFile with
  | Some preview =>
      if startsWith "image/" (File.type file) && truthy preview then
        loadImage extendedFile preview
      else
        uploadFile_mutate
          (submission (Some file) (Some (File.name file)) file_id
           ++ tool_resource_field toolResource)
  | None =>
      uploadFile_mutate
        (submission (Some file) (Some (File.name file)) file_id
         ++ tool_resource_field toolResource)
  end.

(** [handleFileChange]: [target_files] is [event.target.files]. *)
Definition handleFileChange (target_files : option (list Selected.t))
    (toolResource : option string) : Act unit :=
  match target_files with
  | None => ret tt
  | Some fileList =>
      setFilesLoading true ;;
      forEach fileList (handleFile toolResource)
  end.

(** [handleFileRemove]; [files] in the closure is the state before the
    removal. *)
Definition handleFileRemove (env : Env) (fileId : string) : Act unit :=
  fs <- read files ;;
  setFiles (JsMap.delete fileId) ;;
  if fileSetter env then
    emit (fileSetter_call
            (filter (fun f => negb (strict_eq (ExtendedFile.raw_file_id f) fileId)
                              && negb (strict_eq (ExtendedFile.temp_file_id f) fileId))
                    (JsMap.values fs)))
  else ret tt.

(** The category [getToolResources] files a record under. *)
Definition category (file : ExtendedFile.t) : string :=
  let inferred :=
    if opt_startsWith "image/" (ExtendedFile.type file) then EToolResources.image_edit
    else if strict_eq (ExtendedFile.type file) "application/pdf"
            || match ExtendedFile.type file with
               | Some ty => includes "text" ty
               | None => false
               end
         then EToolResources.file_search
         else EToolResources.file_search in
  match ExtendedFile.tool_resource file with
  | Some tr => if truthy tr then tr else inferred
  | None => inferred
  end.

(** The body of [promptFiles.forEach] in [getToolResources]. The map is a
    plain object: under a name it inherits, [toolResources[toolResource]] is
    truthy, so nothing is initialised, and the value has no [file_ids], so
    [.file_ids.includes] throws. *)
Definition add_file (toolResources : AgentToolResources) (file : ExtendedFile.t)
  : Outcome AgentToolResources :=
  if negb (truthy (ExtendedFile.file_id file)) then Returned toolResources
  else
    let toolResource := category file in
    let toolResources :=
      match JsObject.lookup toolResource toolResources with
      | JsObject.Own (Some _) | JsObject.Inherited => toolResources
      | _ => JsMap.set toolResource (Some (Resource.mk (Some []))) toolResources
      end in
    match JsObject.lookup toolResource toolResources with
    | JsObject.Own (Some (Resource.mk (Some file_ids))) =>
        if array_includes file_ids (ExtendedFile.file_id file) then Returned toolResources
        else Returned (JsMap.set toolResource
                         (Some (Resource.mk (Some (file_ids ++ [ExtendedFile.file_id file]))))
                         toolResources)
    | _ => Thrown "TypeError"
    end.

Fixpoint add_files (toolResources : AgentToolResources) (fs : list ExtendedFile.t)
  : Outcome AgentToolResources :=
  match fs with
  | [] => Returned toolResources
  | file :: fs' =>
      match add_file toolResources file with
      | Returned toolResources' => add_files toolResources' fs'
      | Thrown e => Thrown e
      end
  end.

(** [getToolResources] *)
Definition getToolResources (promptFiles : list ExtendedFile.t)
  : Outcome (option AgentToolResources) :=
  match promptFiles with
  | [] => Returned None
  | _ =>
      match add_files JsMap.empty promptFiles with
      | Returned toolResources =>
          if (0 <? JsObject.keys_length toolResources)%nat
          then Returned (Some toolResources) else Returned None
      | Thrown e => Thrown e
      end
  end.

(** [x || 0] on a number. *)
Definition or_zero (x : Z) : Z := if (x =? 0)%Z then 0%Z else x.

(** The record [loadFromToolResources] builds from the listing's metadata. *)
Definition restored (toolResource : string) (dbFile : TFile.t)
    (previewUrl : option string) (source : string) : ExtendedFile.t :=
  ExtendedFile.mk
    (Some (TFile.file_id dbFile))
    (Some (TFile.file_id dbFile))
    (TFile.type dbFile)
    (Some (TFile.filename dbFile))
    (Some (TFile.filepath dbFile))
    1%Q
    previewUrl
    (or_zero (TFile.bytes dbFile))
    (TFile.width dbFile)
    (TFile.height dbFile)
    (Some true)
    None
    (Some toolResource)
    (TFile.metadata dbFile)
    (Some source).

(** The placeholder [loadFromToolResources] builds when the listing does not
    know the identifier. *)
Definition placeholder (toolResource fileId source : string) : ExtendedFile.t :=
  ExtendedFile.mk
    (Some fileId)
    (Some fileId)
    (Some "application/octet-stream")
    (Some ("File " ++ fileId)%string)
    (Some "")
    1%Q
    (Some "")
    0%Z
    None
    None
    (Some true)
    None
    (Some toolResource)
    None
    (Some source).

(** The record [loadFromToolResources] builds in its first branch when
    [fileMap[fileId]] is a truthy value that is no listed file: every
    property read from that value is [undefined], and [bytes || 0] is 0. *)
Definition unreadable (toolResource source : string) : ExtendedFile.t :=
  ExtendedFile.mk
    None
    None
    None
    None
    None
    1%Q
    None
    0%Z
    None
    None
    (Some true)
    None
    (Some toolResource)
    None
    (Some source).

(** The body of the inner loop of [loadFromToolResources]. *)
Definition load_file (env : Env) (toolResource : string)
    (filesMap : JsMap.t ExtendedFile.t) (fileId : string)
  : Act (JsMap.t ExtendedFile.t) :=
  let dbFile := fileMap_lookup env fileId in
  let source :=
    if toolResource =? EToolResources.file_search then FileSources.vectordb
    else match dbFile with
         | Listed d => match TFile.source d with
                       | Some s => s
                       | None => FileSources.local
                       end
         | _ => FileSources.local
         end in
  match dbFile with
  | Listed dbFile =>
      previewUrl <-
        (if opt_startsWith "image/" (TFile.type dbFile) then
           url <- createAuthenticatedBlobUrl env (TFile.file_id dbFile) ;;
           ret (if truthy_opt url then url else Some (TFile.filepath dbFile))
         else ret None) ;;
      ret (JsMap.set fileId (restored toolResource dbFile previewUrl source) filesMap)
  | Foreign =>
      ret (JsMap.set fileId (unreadable toolResource source) filesMap)
  | Nothing =>
      ret (JsMap.set fileId (placeholder toolResource fileId source) filesMap)
  end.

(** The body of the outer loop, over [Object.entries(toolResources)]. *)
Definition load_resource (env : Env) (filesMap : JsMap.t ExtendedFile.t)
    (entry : string * option Resource.t) : Act (JsMap.t ExtendedFile.t) :=
  match entry with
  | (toolResource, Some (Resource.mk (Some file_ids))) =>
      foldM (load_file env toolResource) file_ids filesMap
  | _ => ret filesMap
  end.

(** [loadFromToolResources] *)
Definition loadFromToolResources (env : Env) (toolResources : option AgentToolResources)
  : Act unit :=
  match toolResources with
  | None => setFiles (fun _ => JsMap.empty)
  | Some toolResources =>
      filesMap <- foldM (load_resource env) (JsObject.entries toolResources) JsMap.empty ;;
      setFiles (fun _ => filesMap)
  end.

(** [a < b] and [a === b] on fractions. *)
Definition Qltb (a b : Q) : bool := negb (Qle_bool b a).

(** [areFilesReady] *)
Definition areFilesReady (promptFiles : list ExtendedFile.t) : bool :=
  forallb (fun file => truthy (ExtendedFile.file_id file)
                       && Qeq_bool (ExtendedFile.progress file) 1)
          promptFiles.

Module Stats.
Record t := mk { total : nat; images : nat; documents : nat; uploading : nat }.
End Stats.

(** [fileStats] *)
Definition fileStats (promptFiles : list ExtendedFile.t) : Stats.t :=
  fold_left
    (fun stats file =>
       if Qltb (ExtendedFile.progress file) 1 then
         Stats.mk (Stats.total stats) (Stats.images stats) (Stats.documents stats)
                  (S (Stats.uploading stats))
       else if opt_startsWith "image/" (ExtendedFile.type file) then
         Stats.mk (Stats.total stats) (S (Stats.images stats)) (Stats.documents stats)
                  (Stats.uploading stats)
       else
         Stats.mk (Stats.total stats) (Stats.images stats) (S (Stats.documents stats))
                  (Stats.uploading stats))
    promptFiles
    (Stats.mk (length promptFiles) 0 0 0).

(** [abortUpload] *)
Definition abortUpload : Act unit :=
  current <- read abortControllerRef ;;
  match current with
  | Some controller =>
      emit (logger_log "files") ;;
      emit (abort controller "User aborted upload") ;;
      set_abortControllerRef None
  | None => ret tt
  end.

(** ** The hook driven by its environment

    What happens to a mounted hook: the user selects or removes files, an
    image finishes decoding, the upload service answers a submission, the
    owner restores a persisted tool-resource map or aborts. *)

Inductive Event :=
| FilesSelected (target_files : option (list Selected.t)) (toolResource : option string)
| ImageLoaded (n : nat) (width height : Z)
| UploadSucceeded (n : nat) (data : TFileUpload.t)
| UploadFailed (n : nat) (error : string)
| FileRemoved (fileId : string)
| ToolResourcesLoaded (toolResources : option AgentToolResources)
| UploadAborted.

Fixpoint remove_nth {A} (n : nat) (l : list A) : list A :=
  match l, n with
  | [], _ => []
  | _ :: l', O => l'
  | x :: l', S n' => x :: remove_nth n' l'
  end.

(** The handler an event runs. The [n]-th pending decoding, or the [n]-th
    submission in flight, is the one that completes. *)
Definition handle (env : Env) (e : Event) : Act unit :=
  match e with
  | FilesSelected target_files toolResource => handleFileChange target_files toolResource
  | ImageLoaded n width height =>
      d <- read decoding ;;
      match nth_error d n with
      | Some (extendedFile, preview) =>
          set_decoding (remove_nth n d) ;;
          img_onload extendedFile preview width height
      | None => ret tt
      end
  | UploadSucceeded n data =>
      l <- read inflight ;;
      match nth_error l n with
      | Some _ => set_inflight (remove_nth n l) ;; onSuccess data
      | None => ret tt
      end
  | UploadFailed n error =>
      l <- read inflight ;;
      match nth_error l n with
      | Some _ => set_inflight (remove_nth n l) ;; onError error
      | None => ret tt
      end
  | FileRemoved fileId => handleFileRemove env fileId
  | ToolResourcesLoaded toolResources => loadFromToolResources env toolResources
  | UploadAborted => abortUpload
  end.

Definition exec (env : Env) (e : Event) (w : World) : World := world (handle env e w).

(** The [file_id] field of a submission. *)
Definition submitted_id (formData : FormData) : option string :=
  match form_get "file_id" formData with
  | Some (FormString s) => Some s
  | _ => None
  end.

(** The identifiers of the images being decoded and of the submissions in
    flight. *)
Definition decoding_ids (w : World) : list string :=
  map (fun d => ExtendedFile.file_id (fst d)) (decoding w).

Definition inflight_ids (w : World) : list string :=
  flat_map (fun fd => match submitted_id fd with Some s => [s] | None => [] end)
           (inflight w).

(** The identifiers in use in a world: the keys of the registry and the
    identifiers of the pending work. *)
Definition ids_in_use (w : World) : list string :=
  JsMap.keys (files w) ++ decoding_ids w ++ inflight_ids w.

(** [v4()] returns non-empty identifiers that are not in use and are
    pairwise different. *)
Fixpoint fresh_uuids (used uuids : list string) : bool :=
  match uuids with
  | [] => true
  | u :: us => truthy u && negb (array_includes used u) && fresh_uuids (u :: used) us
  end.

(** When an event can happen: the identifiers of a selection are fresh, a
    completion is that of a pending decoding or submission, and the service
    acknowledges a submission under the [file_id] it was submitted with (§6). *)
Definition enabled (w : World) (e : Event) : bool :=
  match e with
  | FilesSelected (Some fileList) _ =>
      fresh_uuids (ids_in_use w) (map Selected.uuid fileList)
  | FilesSelected None _ => true
  | ImageLoaded n _ _ => (n <? length (decoding w))%nat
  | UploadSucceeded n data =>
      match nth_error (inflight w) n with
      | Some formData =>
          match submitted_id formData with
          | Some s => s =? TFileUpload.temp_file_id data
          | None => false
          end
      | None => false
      end
  | UploadFailed n _ => (n <? length (inflight w))%nat
  | FileRemoved _ => true
  | ToolResourcesLoaded _ => true
  | UploadAborted => true
  end.

(** The world after a sequence of events. *)
Definition run (env : Env) (w : World) (events : list Event) : World :=
  fold_left (fun w e => exec env e w) events w.

(** Every event of the sequence can happen when its turn comes. *)
Fixpoint admissible (env : Env) (w : World) (events : list Event) : bool :=
  match events with
  | [] => true
  | e :: events' => enabled w e && admissible env (exec env e w) events'
  end.

(** The identifiers a tool-resource map names. *)
Definition resource_ids (toolResources : AgentToolResources) : list string :=
  flat_map (fun entry =>
              match snd entry with
              | Some (Resource.mk (Some file_ids)) => file_ids
              | _ => []
              end)
           toolResources.

(** ** Vocabulary of the properties *)

(** [keeps proj c]: running [c] does not change the part [proj] of the world. *)
Definition keeps {X A} (proj : World -> X) (c : Act A) : Prop :=
  forall w, proj (world (c w)) = proj w.

(** [returns c]: [c] completes without throwing, from every world. *)
Definition returns {A} (c : Act A) : Prop :=
  forall w, exists a, outcome (c w) = Returned a.

(** A session with a user and a credential, in which every request gets the
    same answer and a body [b] becomes the object reference [blob:b]. *)
Definition session_env (answer : Outcome Response.t) : Env :=
  mkEnv (Some (User.mk "user-1")) (Some "secret") [] false
        (fun _ _ => answer) (fun _ blob => Returned ("blob:" ++ blob)%string).

(** The readiness predicate agrees with the statistics: all files are ready
    exactly when none counts as uploading and every record has its
    [file_id]. *)
Definition readiness_agrees_with_stats (promptFiles : list ExtendedFile.t) : Prop :=
  areFilesReady promptFiles = true <->
  (Stats.uploading (fileStats promptFiles) = 0%nat
   /\ forall file, In file promptFiles -> ExtendedFile.file_id file <> "").

(** ** Sample data *)

(** A record with the given identifier, type, progress and category tag. *)
Definition sample_record (file_id : string) (type : option string) (progress : Q)
    (tool_resource : option string) : ExtendedFile.t :=
  ExtendedFile.mk (Some file_id) (Some file_id) type (Some "sample") (Some "/uploads/sample")
                  progress None 10 None None (Some true) None tool_resource None None.

(** ** Reading a tool-resource map *)

(** The category of every record the projection files is an ordinary name:
    none that a plain object inherits. *)
Definition ordinary_categories (promptFiles : list ExtendedFile.t) : Prop :=
  forall file, In file promptFiles -> ExtendedFile.file_id file <> "" ->
    JsObject.inherited (category file) = false.

(** Some record the projection files has a category that a plain object
    inherits. *)
Definition inherited_category (promptFiles : list ExtendedFile.t) : bool :=
  existsb (fun file => truthy (ExtendedFile.file_id file)
                       && JsObject.inherited (category file))
          promptFiles.

(** The identifiers filed under a category; none when the category is absent. *)
Definition file_ids_of (toolResources : AgentToolResources) (toolResource : string)
  : list string :=
  match JsMap.get toolResource toolResources with
  | Some (Some (Resource.mk (Some file_ids))) => file_ids
  | _ => []
  end.

(** [id] is filed under the category in the map. *)
Definition filed (toolResources : AgentToolResources) (toolResource id : string) : Prop :=
  In id (file_ids_of toolResources toolResource).

(** The invariant of the persisted shape (§3): a category occurs once, has a
    list of identifiers, the list is not empty and repeats no identifier. *)
Definition well_formed (toolResources : AgentToolResources) : Prop :=
  NoDup (JsMap.keys toolResources)
  /\ forall toolResource resource,
       JsMap.get toolResource toolResources = Some resource ->
       exists file_ids, resource = Some (Resource.mk (Some file_ids))
                        /\ file_ids <> [] /\ NoDup file_ids.

(** The source [loadFromToolResources] records for a category when the
    listing does not know the file. *)
Definition placeholder_source (toolResource : string) : string :=
  if toolResource =? EToolResources.file_search then FileSources.vectordb
  else FileSources.local.

(** The (category, identifier) pairs of a list of entries, in the order the
    loops of [loadFromToolResources] visit them. *)
Definition pairs_of (entries : list (string * option Resource.t)) : list (string * string) :=
  flat_map (fun entry =>
              match snd entry with
              | Some (Resource.mk (Some file_ids)) => map (pair (fst entry)) file_ids
              | _ => []
              end)
           entries.

(** The source [loadFromToolResources] records for a file the listing knows. *)
Definition restored_source (toolResource : string) (dbFile : TFile.t) : string :=
  if toolResource =? EToolResources.file_search then FileSources.vectordb
  else match TFile.source dbFile with
       | Some s => s
       | None => FileSources.local
       end.

(** [record] is what [loadFromToolResources] writes for the identifier [id]
    persisted under the category [toolResource]. When the lookup finds a
    listed file, the record is built from its metadata, with no preview
    unless the type is an image type and then the stored path or a non-empty
    reference the fetcher returned. When it finds a value that is no listed
    file, the record is the unreadable one. When it finds nothing, the record
    is the placeholder. *)
Definition loaded (env : Env) (toolResource id : string) (record : ExtendedFile.t) : Prop :=
  match fileMap_lookup env id with
  | Listed dbFile =>
      TFile.file_id dbFile = id
      /\ exists previewUrl,
           record = restored toolResource dbFile previewUrl
                             (restored_source toolResource dbFile)
           /\ (opt_startsWith "image/" (TFile.type dbFile) = false -> previewUrl = None)
           /\ (opt_startsWith "image/" (TFile.type dbFile) = true ->
               previewUrl = Some (TFile.filepath dbFile)
               \/ exists url w0,
                    url <> "" /\ previewUrl = Some url
                    /\ outcome (createAuthenticatedBlobUrl env id w0) = Returned (Some url))
  | Foreign => record = unreadable toolResource (placeholder_source toolResource)
  | Nothing => record = placeholder toolResource id (placeholder_source toolResource)
  end.

(** The invariant of the loops of [loadFromToolResources]: the records
    written so far are those of the identifiers visited so far. *)
Definition restoring (env : Env) (visited : list (string * string))
    (filesMap : JsMap.t ExtendedFile.t) : Prop :=
  NoDup (JsMap.keys filesMap)
  /\ (forall k record, JsMap.get k filesMap = Some record ->
        exists c, In (c, k) visited /\ loaded env c k record)
  /\ (forall c k, In (c, k) visited -> exists record, JsMap.get k filesMap = Some record).

(** ** The round trip through the persisted shape *)

(** The identifier-to-category assignments of a registry: one pair for each
    record that has its [file_id]. *)
Definition assignments (registry : JsMap.t ExtendedFile.t) : list (string * string) :=
  map (fun file => (ExtendedFile.file_id file, category file))
      (filter (fun file => truthy (ExtendedFile.file_id file)) (promptFiles registry)).

Definition same_assignments (r1 r2 : JsMap.t ExtendedFile.t) : Prop :=
  forall p, In p (assignments r1) <-> In p (assignments r2).

(** [project]: the registry as a tool-resource map. *)
Definition project (registry : JsMap.t ExtendedFile.t) : Outcome (option AgentToolResources) :=
  getToolResources (promptFiles registry).

(** Every record of the registry has its [file_id]. *)
Definition all_identified (registry : JsMap.t ExtendedFile.t) : Prop :=
  forall file, In file (promptFiles registry) -> ExtendedFile.file_id file <> "".

(** The listing knows every identifier of the registry. *)
Definition lookup_resolves (env : Env) (registry : JsMap.t ExtendedFile.t) : Prop :=
  forall file, In file (promptFiles registry) -> ExtendedFile.file_id file <> "" ->
    exists dbFile, fileMap_lookup env (ExtendedFile.file_id file) = Listed dbFile.

(** No identifier is carried by two records of different categories. *)
Definition one_category_per_identifier (registry : JsMap.t ExtendedFile.t) : Prop :=
  forall f g, In f (promptFiles registry) -> In g (promptFiles registry) ->
    ExtendedFile.file_id f = ExtendedFile.file_id g -> category f = category g.

(** The metadata the listing has for a stored text file. *)
Definition sample_dbFile (file_id : string) : TFile.t :=
  TFile.mk file_id (Some "text/plain") "notes.txt" "/uploads/notes.txt" 12 None None None None.

(** A session in which the listing holds [allFiles] and the network is down. *)
Definition listing_env (allFiles : list TFile.t) : Env :=
  mkEnv (Some (User.mk "user-1")) (Some "secret") allFiles false
        (fun _ _ => Thrown "offline") (fun _ blob => Returned ("blob:" ++ blob)%string).

(** No restoration of the projection of the registry would read a value
    that is no listed file: the lookup finds a listed file, or nothing, for
    every identifier of the registry. *)
Definition identifiers_readable (env : Env) (registry : JsMap.t ExtendedFile.t) : Prop :=
  forall file, In file (promptFiles registry) -> ExtendedFile.file_id file <> "" ->
    fileMap_lookup env (ExtendedFile.file_id file) <> Foreign.


(** ** Selection *)

(** The selected file is decoded before it is submitted: its type is an image
    type and the browser gave it an object reference. *)
Definition decodes (sel : Selected.t) : bool :=
  startsWith "image/" (File.type (Selected.file sel)) && truthy (Selected.objectURL sel).

(** The submission of a selected file that is not decoded. *)
Definition selection_form (toolResource : option string) (sel : Selected.t) : FormData :=
  submission (Some (Selected.file sel)) (Some (File.name (Selected.file sel)))
             (Selected.uuid sel)
  ++ tool_resource_field toolResource.

(** The world after [handleFile]. *)
Definition selected_world (toolResource : option string) (sel : Selected.t) (w : World)
  : World :=
  let extendedFile := registered sel toolResource in
  mkWorld (JsMap.set (Selected.uuid sel) extendedFile (files w))
          (filesLoading w) (abortControllerRef w)
          (if decodes sel then decoding w ++ [(extendedFile, Selected.objectURL sel)]
           else decoding w)
          (if decodes sel then inflight w
           else inflight w ++ [selection_form toolResource sel])
          (clock w).

(** A record is still uploading: it is not marked as persisted, its progress
    is below 1 and it has no stored path. *)
Definition still_uploading (record : ExtendedFile.t) : Prop :=
  ExtendedFile.attached record = Some false
  /\ (ExtendedFile.progress record < 1)%Q
  /\ ExtendedFile.filepath record = Some "".

(** ** The pipeline *)

(** The registry [m2] has every record of [m1] with a progress that is not
    smaller. *)
Definition no_regress (m1 m2 : JsMap.t ExtendedFile.t) : Prop :=
  forall k f1 f2, JsMap.get k m1 = Some f1 -> JsMap.get k m2 = Some f2 ->
    (ExtendedFile.progress f1 <= ExtendedFile.progress f2)%Q.

(** The registry [m2] has every record of [m1], unchanged. *)
Definition extends (m1 m2 : JsMap.t ExtendedFile.t) : Prop :=
  forall k f, JsMap.get k m1 = Some f -> JsMap.get k m2 = Some f.

(** A restoration is guarded when the map it is given names no identifier
    of an image that is still being decoded. *)
Definition guarded (w : World) (e : Event) : bool :=
  match e with
  | ToolResourcesLoaded (Some toolResources) =>
      forallb (fun id => negb (array_includes (resource_ids toolResources) id))
              (decoding_ids w)
  | _ => true
  end.

(** The lookup does not resolve [fileId] to a value that is no listed file. *)
Definition readable (env : Env) (fileId : string) : bool :=
  match fileMap_lookup env fileId with
  | Foreign => false
  | _ => true
  end.

(** The service assigns non-empty identifiers, and a persisted map holds
    non-empty identifiers, none of which the lookup resolves to a value that
    is no listed file. *)
Definition identified (env : Env) (w : World) (e : Event) : bool :=
  match e with
  | UploadSucceeded _ data => truthy (TFileUpload.file_id data)
  | ToolResourcesLoaded (Some toolResources) =>
      forallb (fun id => truthy id && readable env id) (resource_ids toolResources)
  | _ => true
  end.

(** Every event of the sequence can happen, and meets the side condition,
    when its turn comes. *)
Fixpoint admissible_with (side : World -> Event -> bool) (env : Env) (w : World)
    (events : list Event) : bool :=
  match events with
  | [] => true
  | e :: events' =>
      enabled w e && side w e && admissible_with side env (exec env e w) events'
  end.

(** What holds of the pending work in a pipeline whose restorations are
    guarded. *)
Record pipeline_invariant (w : World) : Prop := {
  inv_keys : NoDup (JsMap.keys (files w));
  inv_progress :
    forall k f, In (k, f) (files w) -> (ExtendedFile.progress f <= 1)%Q;
  inv_decoding :
    forall ext pv, In (ext, pv) (decoding w) ->
      ExtendedFile.progress ext = 0%Q
      /\ ExtendedFile.temp_file_id ext = Some (ExtendedFile.file_id ext);
  inv_registered :
    forall ext pv f, In (ext, pv) (decoding w) ->
      In (ExtendedFile.file_id ext, f) (files w) -> f = ext;
  inv_distinct : NoDup (decoding_ids w);
  inv_apart :
    forall id, In id (decoding_ids w) -> ~ In id (inflight_ids w)
}.

(** The world in which [handleFileChange] has set the loading flag. *)
Definition loading (w : World) : World :=
  mkWorld (files w) true (abortControllerRef w) (decoding w) (inflight w) (clock w).

(** The submission [img.onload] makes. *)
Definition measured_form (extendedFile : ExtendedFile.t) (width height : Z) : FormData :=
  submission (ExtendedFile.file extendedFile) (ExtendedFile.filename extendedFile)
             (ExtendedFile.file_id extendedFile)
  ++ [("width", FormNumber width); ("height", FormNumber height)]
  ++ tool_resource_field (ExtendedFile.tool_resource extendedFile).

(** Along a sequence of events that can happen, the last one lowers the
    progress of no record. *)
Definition progress_never_decreases (env : Env) (fs : JsMap.t ExtendedFile.t)
    (events : list Event) (e : Event) : Prop :=
  admissible env (initial_world fs) (events ++ [e]) = true ->
  no_regress (files (run env (initial_world fs) events))
             (files (exec env e (run env (initial_world fs) events))).

(** The [file_id] of every record of the registry is non-empty at every
    point: after every sequence of events that can happen to a hook that
    started with the registry [fs]. *)
Definition file_id_never_empty (env : Env) (fs : JsMap.t ExtendedFile.t)
    (events : list Event) : Prop :=
  admissible env (initial_world fs) events = true ->
  forall k f, In (k, f) (files (run env (initial_world fs) events)) ->
    ExtendedFile.file_id f <> "".

(** An initial file that has a provisional identifier and an empty
    [file_id]. *)
Definition unidentified_file : ExtendedFile.t :=
  ExtendedFile.mk (Some "") (Some "t1") (Some "text/plain") (Some "notes.txt") (Some "")
                  0 None 12 None None (Some false) None None None None.

(** Every record of the registry, and every record captured by a pending
    decoding, has its [file_id]. *)
Definition identifiers_set (w : World) : Prop :=
  (forall k f, In (k, f) (files w) -> ExtendedFile.file_id f <> "")
  /\ (forall ext pv, In (ext, pv) (decoding w) -> ExtendedFile.file_id ext <> "").

(** An image is selected, and while it is being decoded the owner restores a
    map that names its provisional identifier. *)
Definition restored_while_decoding : list Event :=
  [ FilesSelected
      (Some [Selected.mk (File.mk "cat.png" "image/png" 10240) "u1" "blob:cat"]) None;
    ToolResourcesLoaded
      (Some [(EToolResources.image_edit, Some (Resource.mk (Some ["u1"])))]) ].

(** An image is selected, decoded and submitted. *)
Definition image_submitted : list Event :=
  [ FilesSelected
      (Some [Selected.mk (File.mk "cat.png" "image/png" 10240) "u1" "blob:cat"]) None;
    ImageLoaded 0 640 480 ].

(** ** The rest of the hook and its callers: vocabulary *)






(** A file that counts as uploading, as an image, as a document. *)
Definition counts_as_uploading (file : ExtendedFile.t) : bool :=
  Qltb (ExtendedFile.progress file) 1.

Definition counts_as_image (file : ExtendedFile.t) : bool :=
  negb (counts_as_uploading file) && opt_startsWith "image/" (ExtendedFile.type file).

Definition counts_as_document (file : ExtendedFile.t) : bool :=
  negb (counts_as_uploading file) && negb (opt_startsWith "image/" (ExtendedFile.type file)).

(** The body of [promptFiles.forEach] in [fileStats]. *)
Definition tally (stats : Stats.t) (file : ExtendedFile.t) : Stats.t :=
  if Qltb (ExtendedFile.progress file) 1 then
    Stats.mk (Stats.total stats) (Stats.images stats) (Stats.documents stats)
             (S (Stats.uploading stats))
  else if opt_startsWith "image/" (ExtendedFile.type file) then
    Stats.mk (Stats.total stats) (S (Stats.images stats)) (Stats.documents stats)
             (Stats.uploading stats)
  else
    Stats.mk (Stats.total stats) (Stats.images stats) (S (Stats.documents stats))
             (Stats.uploading stats).

(** No progress value of the registry exceeds 1. *)
Definition bounded (registry : JsMap.t ExtendedFile.t) : Prop :=
  forall k f, In (k, f) registry -> (ExtendedFile.progress f <= 1)%Q.

(** The first entry whose record carries the acknowledged provisional
    identifier, merged in place. *)
Fixpoint merge_first (data : TFileUpload.t) (entries : list (string * ExtendedFile.t))
  : list (string * ExtendedFile.t) :=
  match entries with
  | [] => []
  | (key, file) :: rest =>
      if strict_eq (ExtendedFile.temp_file_id file) (TFileUpload.temp_file_id data)
      then (key, uploaded file data) :: rest
      else (key, file) :: merge_first data rest
  end.

(** The session has a user identity and a credential. *)
Definition credentials (env : Env) (u : User.t) (tok : string) : Prop :=
  user env = Some u /\ User.id u <> "" /\ token env = Some tok /\ tok <> "".

(** The effects of a sequence of events, in the order they happen. *)
Fixpoint effects (env : Env) (w : World) (events : list Event) : list Effect :=
  match events with
  | [] => []
  | e :: events' => trace (handle env e w) ++ effects env (exec env e w) events'
  end.

(** No record carries the provisional identifier [temp] except under [key]. *)
Definition only_under (temp key : string) (registry : JsMap.t ExtendedFile.t) : Prop :=
  forall k f, In (k, f) registry -> ExtendedFile.temp_file_id f = Some temp -> k = key.

(** One file is selected in [w]; if it is decoded, its decoding completes;
    then its submission is acknowledged. *)
Definition upload_events (w : World) (sel : Selected.t) (toolResource : option string)
    (width height : Z) (data : TFileUpload.t) : list Event :=
  if decodes sel then
    [ FilesSelected (Some [sel]) toolResource;
      ImageLoaded (length (decoding w)) width height;
      UploadSucceeded (length (inflight w)) data ]
  else
    [ FilesSelected (Some [sel]) toolResource;
      UploadSucceeded (length (inflight w)) data ].

Definition sample_image : Selected.t :=
  Selected.mk (File.mk "a.png" "image/png" 10) "u1" "blob:1".

Definition sample_text : Selected.t :=
  Selected.mk (File.mk "a.txt" "text/plain" 10) "u1" "".

(** ** Maps built from lists of files *)

(** The last element of [xs] that satisfies [p]. *)
Definition last_such {A} (p : A -> bool) (xs : list A) : option A := find p (rev xs).

(** The component [PromptFiles]: the map it keeps of the files it is given,
    built the same way for the initial state and on every change of [files]. *)
Module PromptFiles.

(** [file.file_id || file.temp_file_id || ''] *)
Definition key (file : ExtendedFile.t) : string :=
  if truthy (ExtendedFile.file_id file) then ExtendedFile.file_id file
  else match ExtendedFile.temp_file_id file with
       | Some t => if truthy t then t else ""
       | None => ""
       end.

Definition filesMap (files : list ExtendedFile.t) : JsMap.t ExtendedFile.t :=
  fold_left
    (fun map file =>
       let key := key file in
       if truthy key then JsMap.set key file map else map)
    files JsMap.empty.

End PromptFiles.

(** Every entry of the registry is under the key the component computes for
    its record, and no key is empty. *)
Definition keyed_by_identifier (registry : JsMap.t ExtendedFile.t) : Prop :=
  NoDup (JsMap.keys registry)
  /\ forall k f, In (k, f) registry -> PromptFiles.key f = k /\ k <> "".

(** The selected files that are submitted at once, without decoding. *)
Definition submitted_at_once (fileList : list Selected.t) : list Selected.t :=
  filter (fun sel => negb (decodes sel)) fileList.

(** The files [handleFileRemove] hands to the external setter. *)
Definition remaining (fileId : string) (promptFiles : list ExtendedFile.t)
  : list ExtendedFile.t :=
  filter (fun f => negb (strict_eq (ExtendedFile.raw_file_id f) fileId)
                   && negb (strict_eq (ExtendedFile.temp_file_id f) fileId))
         promptFiles.

(** A session like [listing_env] whose owner passed a setter to the hook. *)
Definition observed_env : Env :=
  mkEnv (Some (User.mk "user-1")) (Some "secret") [] true
        (fun _ _ => Thrown "offline") (fun _ blob => Returned ("blob:" ++ blob)%string).

(** What every submission carries: the agents endpoint, the browser's file
    under its name, an identifier, the mark of a message attachment; the
    width together with the height or neither; and a category only when it
    is not empty. *)
Definition complete_submission (formData : FormData) : Prop :=
  form_get "endpoint" formData = Some (FormString EModelEndpoint.agents)
  /\ form_get "message_file" formData = Some (FormString "true")
  /\ (exists id, form_get "file_id" formData = Some (FormString id))
  /\ (exists file name, form_get "file" formData = Some (FormFile (Some file) (Some name)))
  /\ (form_get "width" formData = None <-> form_get "height" formData = None)
  /\ form_get "tool_resource" formData <> Some (FormString "").

(** The pending work is sound: every submission in flight is complete, and
    every image being decoded has its browser file and its name. *)
Definition pending_work_is_sound (w : World) : Prop :=
  (forall formData, In formData (inflight w) -> complete_submission formData)
  /\ (forall ext pv, In (ext, pv) (decoding w) ->
        exists file name, ExtendedFile.file ext = Some file
                          /\ ExtendedFile.filename ext = Some name).

(** * Properties *)

(** ** Strings *)

Lemma truthy_true (s : string) : truthy s = true <-> s <> "".
Proof.
  unfold truthy. rewrite negb_true_iff. split.
  - intros H E. subst. discriminate.
  - intros H. apply String.eqb_neq. exact H.
Qed.

Lemma truthy_false (s : string) : truthy s = false <-> s = "".
Proof.
  unfold truthy. rewrite negb_false_iff. apply String.eqb_eq.
Qed.

Lemma array_includes_In (ids : list string) (id : string) :
  array_includes ids id = true <-> In id ids.
Proof.
  unfold array_includes. rewrite existsb_exists. split.
  - intros [x [Hx E]]. apply String.eqb_eq in E. now subst.
  - intros H. exists id. split; [exact H | apply String.eqb_refl].
Qed.

Lemma array_includes_not_In (ids : list string) (id : string) :
  array_includes ids id = false <-> ~ In id ids.
Proof.
  rewrite <- array_includes_In. destruct (array_includes ids id).
  - split; [discriminate | intros H; exfalso; now apply H].
  - split; [intros _ H; discriminate | reflexivity].
Qed.

Lemma strict_eq_true (a : option string) (b : string) :
  strict_eq a b = true <-> a = Some b.
Proof.
  unfold strict_eq. destruct a as [a|].
  - rewrite String.eqb_eq. split; [now intros -> | now intros [= ->]].
  - split; discriminate.
Qed.

Lemma strict_eq_false (a : option string) (b : string) :
  strict_eq a b = false <-> a <> Some b.
Proof.
  rewrite <- strict_eq_true. destruct (strict_eq a b).
  - split; [discriminate | intros H; exfalso; now apply H].
  - split; [intros _ H; discriminate | reflexivity].
Qed.

Example entries_index_first :
  JsObject.entries [("file_search", 1%Z); ("10", 2%Z); ("ocr", 3%Z); ("9", 4%Z); ("07", 5%Z)]
  = [("9", 4%Z); ("10", 2%Z); ("file_search", 1%Z); ("ocr", 3%Z); ("07", 5%Z)].
Proof. reflexivity. Qed.

(** ** Maps *)

Module JsMapFacts.
Import JsMap.
Section Facts.
Context {V : Type}.
Implicit Types (m : JsMap.t V) (k : string) (v : V).

Lemma get_set_same k v m : get k (set k v m) = Some v.
Proof.
  induction m as [|[k' v'] m IH]; simpl.
  - now rewrite String.eqb_refl.
  - destruct (k =? k') eqn:E; simpl; rewrite E; auto.
Qed.

Lemma get_set_other k k' v m : k' <> k -> get k' (set k v m) = get k' m.
Proof.
  intros N. induction m as [|[k0 v0] m IH]; simpl.
  - apply String.eqb_neq in N. now rewrite N.
  - destruct (k =? k0) eqn:E; simpl.
    + apply String.eqb_eq in E. subst k0.
      apply String.eqb_neq in N. now rewrite N.
    + now rewrite IH.
Qed.

Lemma get_set k k' v m :
  get k' (set k v m) = if k' =? k then Some v else get k' m.
Proof.
  destruct (k' =? k) eqn:E.
  - apply String.eqb_eq in E. subst. apply get_set_same.
  - apply String.eqb_neq in E. now apply get_set_other.
Qed.

Lemma get_In k v m : get k m = Some v -> In (k, v) m.
Proof.
  induction m as [|[k' v'] m IH]; simpl; [discriminate|].
  destruct (k =? k') eqn:E.
  - apply String.eqb_eq in E. intros [= ->]. subst. now left.
  - intros H. right. auto.
Qed.

Lemma get_None k m : get k m = None <-> ~ In k (keys m).
Proof.
  induction m as [|[k' v'] m IH]; simpl.
  - tauto.
  - destruct (k =? k') eqn:E.
    + apply String.eqb_eq in E. subst. split; [discriminate | intros H; exfalso; auto].
    + apply String.eqb_neq in E. rewrite IH. split.
      * intros H [H1|H1]; [congruence | auto].
      * intros H H1. auto.
Qed.

Lemma get_Some_key k v m : get k m = Some v -> In k (keys m).
Proof.
  intros H. apply get_In in H. unfold keys. apply in_map_iff. now exists (k, v).
Qed.

Lemma In_key_get k m : In k (keys m) -> exists v, get k m = Some v.
Proof.
  intros H. destruct (get k m) eqn:E; [eauto|].
  apply get_None in E. contradiction.
Qed.

Lemma In_get k v m : NoDup (keys m) -> In (k, v) m -> get k m = Some v.
Proof.
  induction m as [|[k' v'] m IH]; simpl; [tauto|].
  intros ND [H|H].
  - injection H as -> ->. now rewrite String.eqb_refl.
  - inversion ND as [|? ? Hn ND']; subst.
    destruct (k =? k') eqn:E.
    + apply String.eqb_eq in E. subst. exfalso. apply Hn.
      unfold keys. apply in_map_iff. now exists (k', v).
    + auto.
Qed.

Lemma keys_set k v m :
  keys (set k v m) = if has k m then keys m else keys m ++ [k].
Proof.
  unfold has. induction m as [|[k' v'] m IH]; simpl; [reflexivity|].
  destruct (k =? k') eqn:E; simpl; [reflexivity|].
  rewrite IH. now destruct (get k m).
Qed.

Lemma In_keys_set k k' v m : In k' (keys (set k v m)) <-> k' = k \/ In k' (keys m).
Proof.
  rewrite keys_set. unfold has. destruct (get k m) eqn:E.
  - split; [tauto|]. intros [->|H]; [|exact H]. eapply get_Some_key; eauto.
  - rewrite in_app_iff. simpl. split; intros H; intuition congruence.
Qed.

Lemma NoDup_keys_set k v m : NoDup (keys m) -> NoDup (keys (set k v m)).
Proof.
  intros ND. rewrite keys_set. unfold has. destruct (get k m) eqn:E; [exact ND|].
  apply get_None in E.
  apply NoDup_rev in ND. rewrite <- (rev_involutive (keys m ++ [k])).
  apply NoDup_rev. rewrite rev_app_distr. simpl. constructor; [|exact ND].
  now rewrite <- in_rev.
Qed.

Lemma get_delete_other k k' m : k' <> k -> get k' (delete k m) = get k' m.
Proof.
  intros N. induction m as [|[k0 v0] m IH]; simpl; [reflexivity|].
  destruct (k =? k0) eqn:E; simpl.
  - apply String.eqb_eq in E. subst k0.
    apply String.eqb_neq in N. now rewrite N.
  - now rewrite IH.
Qed.

Lemma get_delete_same k m : NoDup (keys m) -> get k (delete k m) = None.
Proof.
  induction m as [|[k0 v0] m IH]; simpl; [reflexivity|].
  intros ND. inversion ND as [|? ? Hn ND']; subst.
  destruct (k =? k0) eqn:E; simpl.
  - apply String.eqb_eq in E. subst k0. now apply get_None.
  - rewrite E. auto.
Qed.

Lemma In_set k k' v v' m :
  In (k', v') (set k v m) -> (k' = k /\ v' = v) \/ In (k', v') m.
Proof.
  induction m as [|[k0 v0] m IH]; simpl.
  - intros [H|[]]. injection H as <- <-. now left.
  - destruct (k =? k0) eqn:E; simpl.
    + apply String.eqb_eq in E. subst k0. intros [H|H]; auto.
      injection H as <- <-. now left.
    + intros [H|H]; auto. destruct (IH H); auto.
Qed.

Lemma In_delete k k' v' m : In (k', v') (delete k m) -> In (k', v') m.
Proof.
  induction m as [|[k0 v0] m IH]; simpl; [tauto|].
  destruct (k =? k0); simpl; intuition.
Qed.

Lemma In_keys_delete k k' m : In k' (keys (delete k m)) -> In k' (keys m).
Proof.
  induction m as [|[k0 v0] m IH]; simpl; [tauto|].
  destruct (k =? k0); simpl; intuition.
Qed.

Lemma get_delete k k' v' m : get k' (delete k m) = Some v' -> In (k', v') m.
Proof.
  intros H. apply get_In in H. eapply In_delete; eauto.
Qed.

Lemma set_middle k v v0 before after :
  ~ In k (keys before) ->
  set k v (before ++ (k, v0) :: after) = before ++ (k, v) :: after.
Proof.
  induction before as [|[k1 v1] before IH]; simpl; intros N.
  - now rewrite String.eqb_refl.
  - destruct (k =? k1) eqn:E.
    + apply String.eqb_eq in E. exfalso. auto.
    + f_equal. apply IH. auto.
Qed.

Lemma NoDup_keys_middle k v0 before after :
  NoDup (keys (before ++ (k, v0) :: after)) -> ~ In k (keys before).
Proof.
  unfold keys. rewrite map_app. simpl. intros ND H.
  apply NoDup_remove_2 in ND. apply ND. apply in_or_app. now left.
Qed.

End Facts.
End JsMapFacts.

(** ** Enumeration order *)

Module JsObjectFacts.
Import JsObject.
Section Facts.
Context {V : Type}.
Implicit Types (e x : string * V) (l o : list (string * V)).

Lemma In_insert_by_index e x l : In x (insert_by_index e l) <-> x = e \/ In x l.
Proof.
  induction l as [|e' l IH]; simpl.
  - intuition.
  - destruct (index_of (fst e) <=? index_of (fst e'))%N; simpl.
    + intuition.
    + rewrite IH. intuition.
Qed.

Lemma In_sort_by_index x l : In x (sort_by_index l) <-> In x l.
Proof.
  induction l as [|e l IH]; simpl; [tauto|].
  rewrite In_insert_by_index, IH. intuition.
Qed.

Lemma In_entries x o : In x (entries o) <-> In x o.
Proof.
  unfold entries. rewrite in_app_iff, In_sort_by_index, !filter_In.
  destruct (is_index (fst x)); simpl; intuition discriminate.
Qed.

Lemma length_insert_by_index e l : length (insert_by_index e l) = S (length l).
Proof.
  induction l as [|e' l IH]; simpl; [reflexivity|].
  destruct (index_of (fst e) <=? index_of (fst e'))%N; simpl; auto.
Qed.

Lemma keys_length_length o : keys_length o = length o.
Proof.
  unfold keys_length, entries. rewrite length_app.
  assert (E : forall l : list (string * V), length (sort_by_index l) = length l).
  { induction l as [|e l IH]; simpl; [reflexivity|].
    now rewrite length_insert_by_index, IH. }
  rewrite E. induction o as [|e o IH]; simpl; [reflexivity|].
  destruct (is_index (fst e)); simpl; lia.
Qed.

Lemma entries_no_index o :
  forallb (fun e => negb (is_index (fst e))) o = true -> entries o = o.
Proof.
  intros H. unfold entries.
  assert (E1 : filter (fun e : string * V => is_index (fst e)) o = []).
  { induction o as [|e o IH]; simpl in *; [reflexivity|].
    apply andb_true_iff in H as [H1 H2].
    apply negb_true_iff in H1. rewrite H1. auto. }
  assert (E2 : filter (fun e : string * V => negb (is_index (fst e))) o = o).
  { induction o as [|e o IH]; simpl in *; [reflexivity|].
    apply andb_true_iff in H as [H1 H2]. rewrite H1. f_equal. apply IH; auto.
    clear - H2. induction o as [|e o IH]; simpl in *; [reflexivity|].
    apply andb_true_iff in H2 as [H1 H2]. apply negb_true_iff in H1. rewrite H1. auto. }
  rewrite E1, E2. reflexivity.
Qed.

End Facts.
End JsObjectFacts.

(** ** Running handlers *)

Lemma bind_run {A B} (c : Act A) (k : A -> Act B) (w : World) :
  bind c k w =
  match c w with
  | (Returned a, w1, t1) => (outcome (k a w1), world (k a w1), t1 ++ trace (k a w1))
  | (Thrown e, w1, t1) => (Thrown e, w1, t1)
  end.
Proof.
  unfold bind, outcome, world, trace.
  destruct (c w) as [[[a|e] w1] t1]; [|reflexivity].
  now destruct (k a w1) as [[r w2] t2].
Qed.

(** ** Upload acknowledgment *)

Section Acknowledgment.
Variable data : TFileUpload.t.

Let matches (entry : string * ExtendedFile.t) : bool :=
  strict_eq (ExtendedFile.temp_file_id (snd entry)) (TFileUpload.temp_file_id data).

Lemma onSuccess_loop_find entries newFiles :
  onSuccess_loop data entries newFiles =
  match find matches entries with
  | Some (key, file) => JsMap.set key (uploaded file data) newFiles
  | None => newFiles
  end.
Proof.
  induction entries as [|[key file] rest IH]; simpl; [reflexivity|].
  unfold matches at 1. simpl.
  destruct (strict_eq (ExtendedFile.temp_file_id file) (TFileUpload.temp_file_id data));
    [reflexivity | exact IH].
Qed.

Lemma onSuccess_files (w : World) :
  files (world (onSuccess data w)) = onSuccess_updater data (files w).
Proof. reflexivity. Qed.

Lemma onSuccess_updater_miss prev :
  (forall key file, In (key, file) prev ->
     ExtendedFile.temp_file_id file <> Some (TFileUpload.temp_file_id data)) ->
  onSuccess_updater data prev = prev.
Proof.
  intros H. unfold onSuccess_updater. rewrite onSuccess_loop_find.
  destruct (find matches prev) as [[key file]|] eqn:F; [|reflexivity].
  apply find_some in F as [Hin Hm]. exfalso. apply (H key file Hin).
  now apply strict_eq_true.
Qed.

(** A record of the new registry is the old record under its key, or the
    merge of an old record that carried the acknowledged provisional
    identifier. *)
Lemma onSuccess_updater_get prev k f' :
  JsMap.get k (onSuccess_updater data prev) = Some f' ->
  JsMap.get k prev = Some f' \/
  exists f, In (k, f) prev
            /\ ExtendedFile.temp_file_id f = Some (TFileUpload.temp_file_id data)
            /\ f' = uploaded f data.
Proof.
  unfold onSuccess_updater. rewrite onSuccess_loop_find.
  destruct (find matches prev) as [[key file]|] eqn:F; [|now left].
  apply find_some in F as [Hin Hm].
  rewrite JsMapFacts.get_set. destruct (k =? key) eqn:E.
  - apply String.eqb_eq in E. subst key. intros [= <-]. right. exists file.
    repeat split; auto. apply strict_eq_true. exact Hm.
  - now left.
Qed.

Lemma onSuccess_updater_In prev k f' :
  In (k, f') (onSuccess_updater data prev) ->
  In (k, f') prev \/
  exists f, In (k, f) prev
            /\ ExtendedFile.temp_file_id f = Some (TFileUpload.temp_file_id data)
            /\ f' = uploaded f data.
Proof.
  unfold onSuccess_updater. rewrite onSuccess_loop_find.
  destruct (find matches prev) as [[key file]|] eqn:F; [|now left].
  apply find_some in F as [Hin Hm]. intros H.
  apply JsMapFacts.In_set in H as [[-> ->]|H]; [|now left].
  right. exists file. repeat split; auto. apply strict_eq_true. exact Hm.
Qed.

Lemma onSuccess_updater_keys prev :
  JsMap.keys (onSuccess_updater data prev) = JsMap.keys prev.
Proof.
  unfold onSuccess_updater. rewrite onSuccess_loop_find.
  destruct (find matches prev) as [[key file]|] eqn:F; [|reflexivity].
  apply find_some in F as [Hin _]. rewrite JsMapFacts.keys_set.
  unfold JsMap.has. destruct (JsMap.get key prev) eqn:G; [reflexivity|].
  apply JsMapFacts.get_None in G. exfalso. apply G.
  unfold JsMap.keys. apply in_map_iff. now exists (key, file).
Qed.

Lemma find_first_match before key file after :
  (forall k f, In (k, f) before ->
     ExtendedFile.temp_file_id f <> Some (TFileUpload.temp_file_id data)) ->
  ExtendedFile.temp_file_id file = Some (TFileUpload.temp_file_id data) ->
  find matches (before ++ (key, file) :: after) = Some (key, file).
Proof.
  intros Hb Hf. induction before as [|[k f] before IH]; simpl.
  - unfold matches. simpl. apply strict_eq_true in Hf. now rewrite Hf.
  - unfold matches at 1. simpl.
    destruct (strict_eq (ExtendedFile.temp_file_id f) (TFileUpload.temp_file_id data)) eqn:E.
    + apply strict_eq_true in E. exfalso. apply (Hb k f); [now left | exact E].
    + apply IH. intros k' f' H. apply (Hb k' f'). now right.
Qed.

End Acknowledgment.

(** C4. On acknowledgment the registry changes in one place at most. When
    no record carries the acknowledged provisional identifier the registry
    stays as it is. Otherwise the first record that carries it, in the order
    of the [Map] (whose keys are distinct), and no other, is replaced, in
    place, by its merge with the acknowledgment: the
    authoritative identifier, the stored path, progress 1 and the persisted
    flag come from the service; a truthy preview is kept, and a record
    without one takes the stored path as preview when its type is an image
    type and has no preview otherwise; every other field is kept. *)
Theorem onSuccess_merges_the_matching_record (data : TFileUpload.t) (w : World) :
  let prev := files w in
  let next := files (world (onSuccess data w)) in
  outcome (onSuccess data w) = Returned tt
  /\ ((forall key file, In (key, file) prev ->
         ExtendedFile.temp_file_id file <> Some (TFileUpload.temp_file_id data)) ->
      next = prev)
  /\ (forall before key file after,
        prev = before ++ (key, file) :: after ->
        NoDup (JsMap.keys prev) ->
        (forall k f, In (k, f) before ->
           ExtendedFile.temp_file_id f <> Some (TFileUpload.temp_file_id data)) ->
        ExtendedFile.temp_file_id file = Some (TFileUpload.temp_file_id data) ->
        let merged := uploaded file data in
        next = before ++ (key, merged) :: after
        /\ ExtendedFile.file_id merged = TFileUpload.file_id data
        /\ ExtendedFile.filepath merged = Some (TFileUpload.filepath data)
        /\ ExtendedFile.progress merged = 1%Q
        /\ ExtendedFile.attached merged = Some true
        /\ ExtendedFile.preview merged =
             (if truthy_opt (ExtendedFile.preview file) then ExtendedFile.preview file
              else if opt_startsWith "image/" (ExtendedFile.type file)
                   then Some (TFileUpload.filepath data) else None)
        /\ ExtendedFile.temp_file_id merged = ExtendedFile.temp_file_id file
        /\ ExtendedFile.type merged = ExtendedFile.type file
        /\ ExtendedFile.filename merged = ExtendedFile.filename file
        /\ ExtendedFile.size merged = ExtendedFile.size file
        /\ ExtendedFile.width merged = ExtendedFile.width file
        /\ ExtendedFile.height merged = ExtendedFile.height file
        /\ ExtendedFile.file merged = ExtendedFile.file file
        /\ ExtendedFile.tool_resource merged = ExtendedFile.tool_resource file
        /\ ExtendedFile.metadata merged = ExtendedFile.metadata file
        /\ ExtendedFile.source merged = ExtendedFile.source file).
Proof.
  intros prev next. split; [reflexivity|]. split.
  - intros Hmiss. unfold next. rewrite onSuccess_files.
    now apply onSuccess_updater_miss.
  - intros before key file after Hprev ND Hbefore Hfile merged.
    split; [|repeat split].
    unfold next. rewrite onSuccess_files. fold prev.
    unfold onSuccess_updater. rewrite onSuccess_loop_find.
    rewrite Hprev at 1. rewrite (find_first_match data before key file after Hbefore Hfile).
    rewrite Hprev. apply JsMapFacts.set_middle.
    rewrite Hprev in ND. eapply JsMapFacts.NoDup_keys_middle; eauto.
Qed.


(** ** What a handler leaves alone, and handlers that do not throw *)

Section Frames.
Context {X : Type} (proj : World -> X).

Lemma keeps_ret {A} (a : A) : keeps proj (ret a).
Proof. intros w. reflexivity. Qed.

Lemma keeps_throw {A} (e : string) : keeps proj (@throw A e).
Proof. intros w. reflexivity. Qed.

Lemma keeps_emit (e : Effect) : keeps proj (emit e).
Proof. intros w. reflexivity. Qed.

Lemma keeps_read {A} (f : World -> A) : keeps proj (read f).
Proof. intros w. reflexivity. Qed.

Lemma keeps_await {A} (p : Outcome A) : keeps proj (await p).
Proof. intros w. reflexivity. Qed.

Lemma keeps_bind {A B} (c : Act A) (k : A -> Act B) :
  keeps proj c -> (forall a, keeps proj (k a)) -> keeps proj (bind c k).
Proof.
  intros Hc Hk w. rewrite bind_run. specialize (Hc w). unfold world in *.
  destruct (c w) as [[[a|e] w1] t1]; simpl in *.
  - rewrite <- Hc. apply Hk.
  - exact Hc.
Qed.

Lemma keeps_try_catch {A} (body : Act A) (handler : string -> Act A) :
  keeps proj body -> (forall e, keeps proj (handler e)) -> keeps proj (try_catch body handler).
Proof.
  intros Hb Hh w. unfold try_catch. specialize (Hb w). unfold world in *.
  destruct (body w) as [[[a|e] w1] t1]; simpl in *.
  - exact Hb.
  - specialize (Hh e w1). unfold world in Hh.
    destruct (handler e w1) as [[r w2] t2]. simpl in *. congruence.
Qed.

Lemma keeps_foldM {A B} (body : B -> A -> Act B) (xs : list A) :
  (forall acc x, keeps proj (body acc x)) -> forall acc, keeps proj (foldM body xs acc).
Proof.
  intros Hb. induction xs as [|x xs IH]; intros acc; simpl.
  - apply keeps_ret.
  - apply keeps_bind; auto.
Qed.

Lemma keeps_forEach {A} (xs : list A) (body : A -> Act unit) :
  (forall x, keeps proj (body x)) -> keeps proj (forEach xs body).
Proof. intros H. apply keeps_foldM. intros _ x. apply H. Qed.

End Frames.

Lemma returns_ret {A} (a : A) : returns (ret a).
Proof. intros w. now exists a. Qed.

Lemma returns_emit (e : Effect) : returns (emit e).
Proof. intros w. now exists tt. Qed.

Lemma returns_read {A} (f : World -> A) : returns (read f).
Proof. intros w. now exists (f w). Qed.

Lemma returns_modify (f : World -> World) : returns (modify f).
Proof. intros w. now exists tt. Qed.

Lemma returns_bind {A B} (c : Act A) (k : A -> Act B) :
  returns c -> (forall a, returns (k a)) -> returns (bind c k).
Proof.
  intros Hc Hk w. rewrite bind_run. destruct (Hc w) as [a Ha]. unfold outcome in *.
  destruct (c w) as [[[a'|e] w1] t1]; simpl in *; [|discriminate].
  destruct (Hk a' w1) as [b Hb]. exists b. exact Hb.
Qed.

Lemma returns_try_catch {A} (body : Act A) (handler : string -> Act A) :
  (forall e, returns (handler e)) -> returns (try_catch body handler).
Proof.
  intros Hh w. unfold try_catch, outcome.
  destruct (body w) as [[[a|e] w1] t1]; simpl.
  - now exists a.
  - destruct (Hh e w1) as [a Ha]. unfold outcome in Ha.
    destruct (handler e w1) as [[r w2] t2]. simpl in *. now exists a.
Qed.

Lemma returns_foldM {A B} (body : B -> A -> Act B) (xs : list A) :
  (forall acc x, returns (body acc x)) -> forall acc, returns (foldM body xs acc).
Proof.
  intros Hb. induction xs as [|x xs IH]; intros acc; simpl.
  - apply returns_ret.
  - apply returns_bind; auto.
Qed.

Create HintDb frame.
#[local] Hint Resolve keeps_ret keeps_emit keeps_read keeps_await keeps_throw : frame.
#[local] Hint Resolve returns_ret returns_emit returns_read returns_modify : frame.

Ltac frame :=
  repeat first
    [ apply keeps_bind; [|intros ?]
    | apply keeps_try_catch; [|intros ?]
    | apply keeps_foldM; intros ? ?
    | apply keeps_forEach; intros ?
    | apply returns_bind; [|intros ?]
    | apply returns_foldM; intros ? ?
    | solve [auto with frame]
    | solve [intros ?; reflexivity] ].

Lemma remove_nth_None {A} (n : nat) (l : list A) :
  nth_error l n = None -> remove_nth n l = l.
Proof.
  revert n. induction l as [|x l IH]; intros [|n] E; simpl in *;
    try reflexivity; try discriminate.
  f_equal. auto.
Qed.

Lemma In_remove_nth {A} (n : nat) (l : list A) (x : A) :
  In x (remove_nth n l) -> In x l.
Proof.
  revert n. induction l as [|y l IH]; intros [|n]; simpl; auto.
  intros [H|H]; eauto.
Qed.

(** ** Upload failure *)

Lemma exec_UploadFailed_frame env n error w :
  files (exec env (UploadFailed n error) w) = files w
  /\ decoding (exec env (UploadFailed n error) w) = decoding w
  /\ inflight (exec env (UploadFailed n error) w) = remove_nth n (inflight w).
Proof.
  unfold exec, handle. rewrite bind_run. simpl.
  destruct (nth_error (inflight w) n) eqn:E; simpl; repeat split.
  symmetry. now apply remove_nth_None.
Qed.


(** C5. On a failed upload the registry is the one before the failure, so no
    progress has moved and no record is gone; the loading flag is cleared,
    the failure is logged and shown as an error toast, and nothing is
    submitted again: the failure handler makes no other call, and the
    submissions in flight after the failure are among those before it. *)
Theorem onError_leaves_the_registry (env : Env) (n : nat) (error : string) (w : World) :
  outcome (onError error w) = Returned tt
  /\ files (world (onError error w)) = files w
  /\ inflight (world (onError error w)) = inflight w
  /\ decoding (world (onError error w)) = decoding w
  /\ trace (onError error w) =
       [logger_error "File upload error:"; showToast "Failed to upload file" "error"]
  /\ files (exec env (UploadFailed n error) w) = files w
  /\ decoding (exec env (UploadFailed n error) w) = decoding w
  /\ inflight (exec env (UploadFailed n error) w) = remove_nth n (inflight w).
Proof.
  do 5 (split; [reflexivity|]). apply exec_UploadFailed_frame.
Qed.

(** ** The authenticated blob fetcher *)

Lemma createAuthenticatedBlobUrl_keeps_files env fileId :
  keeps files (createAuthenticatedBlobUrl env fileId).
Proof.
  unfold createAuthenticatedBlobUrl.
  destruct (user env) as [u|], (token env) as [tok|]; try apply keeps_ret.
  destruct (negb (truthy (User.id u)) || negb (truthy tok)); [apply keeps_ret|].
  apply keeps_try_catch; [|intros e; frame].
  apply keeps_bind; [unfold do_fetch, tick; frame|].
  intros response. destruct (negb (Response.ok response)); [frame|].
  unfold do_createObjectURL, tick. frame.
Qed.

Lemma createAuthenticatedBlobUrl_returns env fileId :
  returns (createAuthenticatedBlobUrl env fileId).
Proof.
  unfold createAuthenticatedBlobUrl.
  destruct (user env) as [u|], (token env) as [tok|]; try apply returns_ret.
  destruct (negb (truthy (User.id u)) || negb (truthy tok)); [apply returns_ret|].
  apply returns_try_catch. intros e. frame.
Qed.

Lemma createAuthenticatedBlobUrl_Some env fileId w url :
  outcome (createAuthenticatedBlobUrl env fileId w) = Returned (Some url) ->
  exists u tok response blob,
    user env = Some u /\ User.id u <> "" /\ token env = Some tok /\ tok <> ""
    /\ fetch env (clock w) (download_request u tok fileId) = Returned response
    /\ (200 <= Response.status response <= 299)%Z
    /\ Response.blob response = Returned blob
    /\ createObjectURL env (S (clock w)) blob = Returned url.
Proof.
  unfold createAuthenticatedBlobUrl.
  destruct (user env) as [u|] eqn:Hu; [|discriminate].
  destruct (token env) as [tok|] eqn:Ht; [|discriminate].
  destruct (truthy (User.id u)) eqn:Tu; [|discriminate].
  destruct (truthy tok) eqn:Tt; [|discriminate].
  simpl. unfold try_catch, do_fetch, tick, do_createObjectURL.
  rewrite !bind_run. simpl.
  destruct (fetch env (clock w) (download_request u tok fileId)) as [response|e] eqn:F;
    simpl; [|discriminate].
  destruct (Response.ok response) eqn:Ok; simpl; [|discriminate].
  rewrite !bind_run. simpl.
  destruct (Response.blob response) as [blob|e] eqn:B; simpl; [|discriminate].
  rewrite !bind_run. simpl.
  destruct (createObjectURL env (S (clock w)) blob) as [url'|e] eqn:C; simpl; [|discriminate].
  unfold outcome. simpl. intros [= <-]. exists u, tok, response, blob.
  apply truthy_true in Tu, Tt. unfold Response.ok in Ok.
  apply andb_true_iff in Ok as [O1 O2]. apply Z.leb_le in O1, O2.
  repeat split; auto.
Qed.

(** C6. The fetcher never throws: from every world, for every identifier and
    whatever the network does, it returns a value, and it leaves the registry
    alone. It returns a local object reference only when the session has a
    user identity and a credential, the download request was answered with a
    2xx status, and the body became an object reference; without a valid
    credential, on a transport failure and on any other status it returns
    the absent value. *)
Theorem createAuthenticatedBlobUrl_never_throws (env : Env) (fileId : string) (w : World) :
  exists r : option string,
    outcome (createAuthenticatedBlobUrl env fileId w) = Returned r
    /\ files (world (createAuthenticatedBlobUrl env fileId w)) = files w
    /\ (forall url, r = Some url ->
          exists u tok response blob,
            user env = Some u /\ User.id u <> "" /\ token env = Some tok /\ tok <> ""
            /\ fetch env (clock w) (download_request u tok fileId) = Returned response
            /\ (200 <= Response.status response <= 299)%Z
            /\ Response.blob response = Returned blob
            /\ createObjectURL env (S (clock w)) blob = Returned url)
    /\ ((~ exists u tok, user env = Some u /\ User.id u <> ""
                         /\ token env = Some tok /\ tok <> "") -> r = None)
    /\ (forall u tok error,
          user env = Some u -> token env = Some tok ->
          fetch env (clock w) (download_request u tok fileId) = Thrown error -> r = None)
    /\ (forall u tok response,
          user env = Some u -> token env = Some tok ->
          fetch env (clock w) (download_request u tok fileId) = Returned response ->
          ~ (200 <= Response.status response <= 299)%Z -> r = None).
Proof.
  destruct (createAuthenticatedBlobUrl_returns env fileId w) as [r Hr].
  exists r. split; [exact Hr|]. split; [apply createAuthenticatedBlobUrl_keeps_files|].
  assert (Main : forall url, r = Some url ->
          exists u tok response blob,
            user env = Some u /\ User.id u <> "" /\ token env = Some tok /\ tok <> ""
            /\ fetch env (clock w) (download_request u tok fileId) = Returned response
            /\ (200 <= Response.status response <= 299)%Z
            /\ Response.blob response = Returned blob
            /\ createObjectURL env (S (clock w)) blob = Returned url).
  { intros url ->. now apply createAuthenticatedBlobUrl_Some. }
  split; [exact Main|]. repeat split.
  - intros N. destruct r as [url|]; [|reflexivity]. exfalso. apply N.
    destruct (Main url eq_refl) as (u & tok & _ & _ & H1 & H2 & H3 & H4 & _).
    now exists u, tok.
  - intros u tok error Hu Ht F. destruct r as [url|]; [|reflexivity]. exfalso.
    destruct (Main url eq_refl) as (u' & tok' & resp & _ & H1 & _ & H3 & _ & H5 & _).
    congruence.
  - intros u tok response Hu Ht F N. destruct r as [url|]; [|reflexivity]. exfalso.
    destruct (Main url eq_refl) as (u' & tok' & resp & _ & H1 & _ & H3 & _ & H5 & H6 & _).
    apply N. congruence.
Qed.

(** The fetcher at work: a 2xx answer becomes an object reference, a 404 and a
    rejected request become the absent value. *)
Example createAuthenticatedBlobUrl_runs :
  outcome (createAuthenticatedBlobUrl
             (session_env (Returned (Response.mk 200 "OK" (Returned "bytes"))))
             "abc" (initial_world []))
  = Returned (Some "blob:bytes")
  /\ outcome (createAuthenticatedBlobUrl
                (session_env (Returned (Response.mk 404 "Not Found" (Returned "bytes"))))
                "abc" (initial_world []))
     = Returned None
  /\ outcome (createAuthenticatedBlobUrl (session_env (Thrown "NetworkError"))
                "abc" (initial_world []))
     = Returned None
  /\ outcome (createAuthenticatedBlobUrl
                (session_env (Returned (Response.mk 200 "OK" (Thrown "AbortError"))))
                "abc" (initial_world []))
     = Returned None.
Proof. repeat split. Qed.

(** ** Derived views *)

Lemma Qltb_false (a b : Q) : Qltb a b = false <-> (b <= a)%Q.
Proof.
  unfold Qltb. rewrite negb_false_iff. apply Qle_bool_iff.
Qed.

Lemma Qltb_true (a b : Q) : Qltb a b = true <-> (a < b)%Q.
Proof.
  unfold Qltb. rewrite negb_true_iff. split.
  - intros H. apply Qnot_le_lt. intros L. apply Qle_bool_iff in L. congruence.
  - intros H. destruct (Qle_bool b a) eqn:E; [|reflexivity].
    apply Qle_bool_iff in E. exfalso. now apply (Qlt_not_le a b).
Qed.

Section FileStats.

Let count (stats : Stats.t) (file : ExtendedFile.t) : Stats.t :=
  if Qltb (ExtendedFile.progress file) 1 then
    Stats.mk (Stats.total stats) (Stats.images stats) (Stats.documents stats)
             (S (Stats.uploading stats))
  else if opt_startsWith "image/" (ExtendedFile.type file) then
    Stats.mk (Stats.total stats) (S (Stats.images stats)) (Stats.documents stats)
             (Stats.uploading stats)
  else
    Stats.mk (Stats.total stats) (Stats.images stats) (S (Stats.documents stats))
             (Stats.uploading stats).

Lemma uploading_fold (fs : list ExtendedFile.t) (stats : Stats.t) :
  Stats.uploading (fold_left count fs stats) =
  (Stats.uploading stats
   + length (filter (fun f => Qltb (ExtendedFile.progress f) 1) fs))%nat.
Proof.
  revert stats. induction fs as [|f fs IH]; intros stats; simpl; [lia|].
  rewrite IH. unfold count.
  destruct (Qltb (ExtendedFile.progress f) 1); simpl; [lia|].
  destruct (opt_startsWith "image/" (ExtendedFile.type f)); simpl; lia.
Qed.

Lemma fileStats_uploading (fs : list ExtendedFile.t) :
  Stats.uploading (fileStats fs) =
  length (filter (fun f => Qltb (ExtendedFile.progress f) 1) fs).
Proof. unfold fileStats. fold count. now rewrite uploading_fold. Qed.

Lemma fileStats_total (fs : list ExtendedFile.t) :
  Stats.total (fileStats fs) = length fs.
Proof.
  unfold fileStats. fold count. generalize (length fs) as n.
  assert (H : forall stats, Stats.total (fold_left count fs stats) = Stats.total stats).
  { induction fs as [|f fs IH]; intros stats; simpl; [reflexivity|].
    rewrite IH. unfold count.
    destruct (Qltb (ExtendedFile.progress f) 1); simpl; [reflexivity|].
    destruct (opt_startsWith "image/" (ExtendedFile.type f)); reflexivity. }
  intros n. now rewrite H.
Qed.

End FileStats.

Lemma no_upload_iff (fs : list ExtendedFile.t) :
  Stats.uploading (fileStats fs) = 0%nat <->
  forall f, In f fs -> (1 <= ExtendedFile.progress f)%Q.
Proof.
  rewrite fileStats_uploading. split.
  - intros H f Hf. apply Qltb_false.
    destruct (Qltb (ExtendedFile.progress f) 1) eqn:E; [|reflexivity].
    assert (Hin : In f (filter (fun f => Qltb (ExtendedFile.progress f) 1) fs))
      by (apply filter_In; auto).
    destruct (filter (fun f => Qltb (ExtendedFile.progress f) 1) fs); [contradiction|discriminate].
  - intros H. induction fs as [|f fs IH]; simpl; [reflexivity|].
    assert (E : Qltb (ExtendedFile.progress f) 1 = false)
      by (apply Qltb_false, H; now left).
    rewrite E. apply IH. intros g Hg. apply H. now right.
Qed.

Lemma areFilesReady_iff (fs : list ExtendedFile.t) :
  areFilesReady fs = true <->
  forall f, In f fs -> ExtendedFile.file_id f <> "" /\ (ExtendedFile.progress f == 1)%Q.
Proof.
  unfold areFilesReady. rewrite forallb_forall. split.
  - intros H f Hf. specialize (H f Hf). apply andb_true_iff in H as [H1 H2].
    split; [now apply truthy_true | now apply Qeq_bool_iff].
  - intros H f Hf. destruct (H f Hf) as [H1 H2]. apply andb_true_iff.
    split; [now apply truthy_true | now apply Qeq_bool_iff].
Qed.



(** ** Runs *)

Lemma run_app env w es1 es2 : run env w (es1 ++ es2) = run env (run env w es1) es2.
Proof. unfold run. apply fold_left_app. Qed.

Lemma run_invariant (P : World -> Prop) env :
  (forall e w, P w -> P (exec env e w)) ->
  forall es w, P w -> P (run env w es).
Proof.
  intros Step es. induction es as [|e es IH]; intros w Hw; simpl; auto.
Qed.

(** ** Cancellation *)

Ltac unfold_handlers :=
  unfold handleFileChange, handleFile, img_onload, loadImage, onSuccess, onError,
    handleFileRemove, loadFromToolResources, load_resource, load_file,
    createAuthenticatedBlobUrl, do_fetch, do_createObjectURL, tick, uploadFile_mutate,
    setFiles, setFilesLoading, set_decoding, set_inflight.

(** Restoration changes the registry and the clock only. *)
Section RestorationFrame.
Context {X : Type} (proj : World -> X).
Hypothesis proj_frame : forall w fs n,
  proj (mkWorld fs (filesLoading w) (abortControllerRef w) (decoding w) (inflight w) n)
  = proj w.

Lemma tick_keeps : keeps proj tick.
Proof. intros w. unfold tick. rewrite !bind_run. simpl. apply proj_frame. Qed.

Lemma createAuthenticatedBlobUrl_keeps env fileId :
  keeps proj (createAuthenticatedBlobUrl env fileId).
Proof.
  unfold createAuthenticatedBlobUrl.
  destruct (user env) as [u|], (token env) as [tok|]; try apply keeps_ret.
  destruct (negb (truthy (User.id u)) || negb (truthy tok)); [apply keeps_ret|].
  apply keeps_try_catch; [|intros e; frame].
  apply keeps_bind.
  { unfold do_fetch. apply keeps_bind; [apply tick_keeps | intros n; frame]. }
  intros response. destruct (negb (Response.ok response)); [frame|].
  apply keeps_bind; [frame|]. intros blob.
  apply keeps_bind; [|intros url; frame].
  unfold do_createObjectURL. apply keeps_bind; [apply tick_keeps | intros n; frame].
Qed.

Lemma loadFromToolResources_keeps env toolResources :
  keeps proj (loadFromToolResources env toolResources).
Proof.
  unfold loadFromToolResources.
  destruct toolResources as [tr|]; [|intros w; apply proj_frame].
  apply keeps_bind; [|intros a w; apply proj_frame].
  apply keeps_foldM. intros acc [toolResource [[[file_ids|]]|]]; simpl; try apply keeps_ret.
  apply keeps_foldM. intros acc' fileId. unfold load_file.
  destruct (fileMap_lookup env fileId) as [dbFile| |]; try apply keeps_ret.
  apply keeps_bind; [|intros a; apply keeps_ret].
  destruct (opt_startsWith "image/" (TFile.type dbFile)); [|apply keeps_ret].
  apply keeps_bind; [apply createAuthenticatedBlobUrl_keeps | intros a; apply keeps_ret].
Qed.

End RestorationFrame.

Lemma loadFromToolResources_keeps_ref env toolResources :
  keeps abortControllerRef (loadFromToolResources env toolResources).
Proof. apply loadFromToolResources_keeps. reflexivity. Qed.

Lemma loadFromToolResources_keeps_decoding env toolResources :
  keeps decoding (loadFromToolResources env toolResources).
Proof. apply loadFromToolResources_keeps. reflexivity. Qed.

Lemma loadFromToolResources_keeps_inflight env toolResources :
  keeps inflight (loadFromToolResources env toolResources).
Proof. apply loadFromToolResources_keeps. reflexivity. Qed.

Lemma handleFileChange_keeps_ref target_files toolResource :
  keeps abortControllerRef (handleFileChange target_files toolResource).
Proof.
  unfold handleFileChange. destruct target_files as [fileList|]; [|apply keeps_ret].
  apply keeps_bind; [intros w; reflexivity|]. intros _.
  apply keeps_forEach. intros sel. unfold handleFile.
  apply keeps_bind; [intros w; reflexivity|]. intros _.
  destruct (ExtendedFile.preview (registered sel toolResource)) as [preview|].
  - destruct (startsWith "image/" (File.type (Selected.file sel)) && truthy preview);
      unfold_handlers; frame.
  - unfold_handlers; frame.
Qed.

(** No handler installs a controller. *)
Lemma exec_no_controller env e w :
  abortControllerRef w = None -> abortControllerRef (exec env e w) = None.
Proof.
  intros H. unfold exec. destruct e as [tf tr|n wd ht|n data|n error|fileId|tr|]; simpl.
  - now rewrite handleFileChange_keeps_ref.
  - rewrite bind_run. simpl. destruct (nth_error (decoding w) n) as [[ext pv]|]; exact H.
  - rewrite bind_run. simpl. destruct (nth_error (inflight w) n); exact H.
  - rewrite bind_run. simpl. destruct (nth_error (inflight w) n); exact H.
  - unfold handleFileRemove. rewrite !bind_run. simpl. destruct (fileSetter env); exact H.
  - now rewrite loadFromToolResources_keeps_ref.
  - unfold abortUpload. rewrite bind_run. simpl. now rewrite H.
Qed.

Lemma run_no_controller env fs events :
  abortControllerRef (run env (initial_world fs) events) = None.
Proof.
  apply (run_invariant (fun w => abortControllerRef w = None)).
  - intros e w. apply exec_no_controller.
  - reflexivity.
Qed.

(** The frame of [abortUpload]: whatever the reference holds, the registry,
    the decodings and the submissions in flight stay as they are; a
    controller that is held is aborted and released. *)
Lemma abortUpload_frame (w : World) :
  outcome (abortUpload w) = Returned tt
  /\ files (world (abortUpload w)) = files w
  /\ inflight (world (abortUpload w)) = inflight w
  /\ decoding (world (abortUpload w)) = decoding w
  /\ (forall controller, abortControllerRef w = Some controller ->
        trace (abortUpload w) = [logger_log "files"; abort controller "User aborted upload"]
        /\ abortControllerRef (world (abortUpload w)) = None).
Proof.
  unfold abortUpload. rewrite bind_run. simpl.
  destruct (abortControllerRef w) as [c|]; simpl.
  - do 4 (split; [reflexivity|]). intros c' [= <-]. split; reflexivity.
  - do 4 (split; [reflexivity|]). discriminate.
Qed.

(** C9. In every world the hook can be in, whatever files it started with and
    whatever happened since, the controller reference is empty, so
    [abortUpload] signals nothing to the transport: it makes no call and
    leaves the world, the registry included, as it is. *)
Theorem abortUpload_signals_nothing (env : Env) (fs : JsMap.t ExtendedFile.t)
    (events : list Event) :
  let w := run env (initial_world fs) events in
  abortControllerRef w = None
  /\ abortUpload w = (Returned tt, w, [])
  /\ files (exec env UploadAborted w) = files w
  /\ inflight (exec env UploadAborted w) = inflight w.
Proof.
  intros w. assert (H : abortControllerRef w = None) by apply run_no_controller.
  split; [exact H|].
  assert (E : abortUpload w = (Returned tt, w, [])).
  { unfold abortUpload. rewrite bind_run. simpl. rewrite H. reflexivity. }
  split; [exact E|]. unfold exec. simpl. rewrite E. split; reflexivity.
Qed.

(** A text file is selected, its upload is in flight, and the user aborts:
    the submission stays in flight and no abort is signalled. *)
Example abortUpload_with_upload_in_flight :
  let env := session_env (Thrown "offline") in
  let selection := [Selected.mk (File.mk "notes.txt" "text/plain" 12) "u1" ""] in
  let w := run env (initial_world []) [FilesSelected (Some selection) None] in
  length (inflight w) = 1%nat
  /\ trace (handle env UploadAborted w) = []
  /\ inflight (exec env UploadAborted w) = inflight w.
Proof. repeat split. Qed.

(** ** Projection to tool resources *)

Lemma category_cases (file : ExtendedFile.t) :
  match ExtendedFile.tool_resource file with
  | Some tag => tag <> "" -> category file = tag
  | None => True
  end
  /\ (truthy_opt (ExtendedFile.tool_resource file) = false ->
      category file =
      if opt_startsWith "image/" (ExtendedFile.type file)
      then EToolResources.image_edit else EToolResources.file_search).
Proof.
  unfold category. split.
  - destruct (ExtendedFile.tool_resource file) as [tag|]; [|exact I].
    intros H. apply truthy_true in H. now rewrite H.
  - intros H. destruct (ExtendedFile.tool_resource file) as [tag|]; simpl in H.
    + rewrite H. destruct (opt_startsWith "image/" (ExtendedFile.type file)); [reflexivity|].
      now destruct (_ || _).
    + destruct (opt_startsWith "image/" (ExtendedFile.type file)); [reflexivity|].
      now destruct (_ || _).
Qed.

Lemma category_tagged (file : ExtendedFile.t) (tag : string) :
  ExtendedFile.tool_resource file = Some tag -> tag <> "" -> category file = tag.
Proof.
  intros E T. destruct (category_cases file) as [H _]. rewrite E in H. auto.
Qed.

Lemma category_truthy (file : ExtendedFile.t) : category file <> "".
Proof.
  destruct (category_cases file) as [H1 H2].
  destruct (ExtendedFile.tool_resource file) as [tag|] eqn:E.
  - destruct (truthy tag) eqn:T.
    + apply truthy_true in T. now rewrite (H1 T).
    + rewrite H2 by (simpl; exact T).
      destruct (opt_startsWith "image/" (ExtendedFile.type file)); discriminate.
  - rewrite H2 by reflexivity.
    destruct (opt_startsWith "image/" (ExtendedFile.type file)); discriminate.
Qed.

Lemma file_ids_of_set tr c c' ids :
  file_ids_of (JsMap.set c (Some (Resource.mk (Some ids))) tr) c' =
  if c' =? c then ids else file_ids_of tr c'.
Proof.
  unfold file_ids_of. rewrite JsMapFacts.get_set. now destruct (c' =? c).
Qed.

Lemma well_formed_empty : well_formed JsMap.empty.
Proof. split; [constructor | discriminate]. Qed.

Lemma well_formed_set tr c ids :
  well_formed tr -> ids <> [] -> NoDup ids ->
  well_formed (JsMap.set c (Some (Resource.mk (Some ids))) tr).
Proof.
  intros [ND W] Hne Hnd. split; [now apply JsMapFacts.NoDup_keys_set|].
  intros c' r. rewrite JsMapFacts.get_set. destruct (c' =? c).
  - intros [= <-]. now exists ids.
  - apply W.
Qed.

Lemma set_set {V} (k : string) (v1 v2 : V) (m : JsMap.t V) :
  JsMap.set k v2 (JsMap.set k v1 m) = JsMap.set k v2 m.
Proof.
  induction m as [|[k0 v0] m IH]; simpl.
  - now rewrite String.eqb_refl.
  - destruct (k =? k0) eqn:E; simpl; rewrite E; [reflexivity | now rewrite IH].
Qed.

Lemma ordinary_categories_iff (fs : list ExtendedFile.t) :
  inherited_category fs = false <-> ordinary_categories fs.
Proof.
  unfold inherited_category, ordinary_categories. split.
  - intros H file Hin T. apply truthy_true in T.
    destruct (JsObject.inherited (category file)) eqn:I; [|reflexivity].
    assert (E : existsb (fun f => truthy (ExtendedFile.file_id f)
                                  && JsObject.inherited (category f)) fs = true).
    { apply existsb_exists. exists file. rewrite T, I. auto. }
    rewrite E in H. discriminate H.
  - intros H. destruct (existsb _ fs) eqn:E; [|reflexivity].
    apply existsb_exists in E as (file & Hin & E). apply andb_true_iff in E as [T I].
    apply truthy_true in T. rewrite (H file Hin T) in I. discriminate I.
Qed.

Lemma ordinary_categories_cons file fs :
  ordinary_categories (file :: fs) ->
  (ExtendedFile.file_id file <> "" -> JsObject.inherited (category file) = false)
  /\ ordinary_categories fs.
Proof.
  intros H. split; [apply H; now left|]. intros f Hf. apply H. now right.
Qed.

(** What one step of the projection does to a well-formed map, for a record
    whose category is an ordinary name. *)
Lemma add_file_closed_form tr file :
  well_formed tr ->
  (ExtendedFile.file_id file <> "" -> JsObject.inherited (category file) = false) ->
  add_file tr file =
  Returned
    (if negb (truthy (ExtendedFile.file_id file)) then tr
     else if array_includes (file_ids_of tr (category file)) (ExtendedFile.file_id file)
          then tr
          else JsMap.set (category file)
                 (Some (Resource.mk
                          (Some (file_ids_of tr (category file)
                                 ++ [ExtendedFile.file_id file]))))
                 tr).
Proof.
  intros [ND W] O. unfold add_file, file_ids_of, JsObject.lookup.
  destruct (truthy (ExtendedFile.file_id file)) eqn:T; [|reflexivity]. simpl.
  apply truthy_true in T.
  destruct (JsMap.get (category file) tr) as [r|] eqn:G.
  - destruct (W _ _ G) as (ids & -> & _ & _). rewrite G.
    now destruct (array_includes ids (ExtendedFile.file_id file)).
  - rewrite (O T), JsMapFacts.get_set_same. simpl. now rewrite set_set.
Qed.

(** One step of the projection throws at a record whose category is a name
    the map inherits and does not hold itself. *)
Lemma add_file_throws (tr : AgentToolResources) file :
  ExtendedFile.file_id file <> "" ->
  JsObject.inherited (category file) = true ->
  JsMap.get (category file) tr = None ->
  add_file tr file = Thrown "TypeError".
Proof.
  intros T I G. unfold add_file, JsObject.lookup. apply truthy_true in T.
  rewrite T, G. cbv iota zeta. rewrite I. simpl. rewrite G. reflexivity.
Qed.

Lemma add_file_spec tr file :
  well_formed tr ->
  (ExtendedFile.file_id file <> "" -> JsObject.inherited (category file) = false) ->
  exists tr', add_file tr file = Returned tr' /\ well_formed tr'
    /\ forall c id, filed tr' c id <->
         filed tr c id
         \/ (ExtendedFile.file_id file <> "" /\ c = category file
             /\ id = ExtendedFile.file_id file).
Proof.
  intros WF O. rewrite (add_file_closed_form tr file WF O).
  eexists. split; [reflexivity|].
  destruct (truthy (ExtendedFile.file_id file)) eqn:T; simpl.
  - apply truthy_true in T.
    destruct (array_includes _ _) eqn:I.
    + split; [exact WF|]. intros c id. split; [now left|].
      intros [H|(_ & -> & ->)]; [exact H|]. now apply array_includes_In.
    + apply array_includes_not_In in I. split.
      * apply well_formed_set; [exact WF | now destruct (file_ids_of tr (category file)) |].
        destruct WF as [ND W]. unfold file_ids_of in *.
        destruct (JsMap.get (category file) tr) as [r|] eqn:G.
        -- destruct (W _ _ G) as (ids & -> & _ & Hnd).
           apply NoDup_rev in Hnd. rewrite <- (rev_involutive (ids ++ _)).
           apply NoDup_rev. rewrite rev_app_distr. simpl. constructor; [|exact Hnd].
           now rewrite <- in_rev.
        -- simpl. constructor; [intros []|constructor].
      * intros c id. unfold filed. rewrite file_ids_of_set.
        destruct (c =? category file) eqn:E.
        -- apply String.eqb_eq in E. subst c. rewrite in_app_iff. simpl.
           split; [intros [H|[H|[]]]; auto | intros [H|(_ & _ & ->)]; auto].
        -- apply String.eqb_neq in E. split; [now left|].
           intros [H|(_ & H & _)]; [exact H | contradiction].
  - apply truthy_false in T. split; [exact WF|]. intros c id. split; [now left|].
    intros [H|(H & _)]; [exact H | contradiction].
Qed.

Lemma add_files_spec fs : forall tr,
  well_formed tr -> ordinary_categories fs ->
  exists tr', add_files tr fs = Returned tr' /\ well_formed tr'
    /\ forall c id, filed tr' c id <->
         filed tr c id
         \/ exists file, In file fs /\ ExtendedFile.file_id file <> ""
                         /\ category file = c /\ ExtendedFile.file_id file = id.
Proof.
  induction fs as [|file fs IH]; intros tr WF O; simpl.
  - exists tr. split; [reflexivity|]. split; [exact WF|]. intros c id.
    split; [now left | intros [H|(f & [] & _)]; exact H].
  - apply ordinary_categories_cons in O as [O1 O2].
    destruct (add_file_spec tr file WF O1) as (tr1 & E1 & WF1 & S1). rewrite E1.
    destruct (IH tr1 WF1 O2) as (tr2 & E2 & WF2 & S2). exists tr2.
    split; [exact E2|]. split; [exact WF2|]. intros c id. rewrite S2, S1. split.
    + intros [[H|(H1 & -> & ->)]|(f & Hf & H)].
      * now left.
      * right. exists file. auto.
      * right. exists f. split; [now right | exact H].
    + intros [H|(f & [<-|Hf] & H1 & H2 & H3)].
      * now left; left.
      * left. right. auto.
      * right. exists f. auto.
Qed.

(** The projection of a registry whose categories are ordinary names: it
    returns; the map it returns is well formed, and files exactly the
    identifiers of the records whose [file_id] is not empty, each under the
    category of its record; it returns no map exactly when no record has a
    non-empty [file_id]. *)
Lemma getToolResources_spec (fs : list ExtendedFile.t) :
  ordinary_categories fs ->
  exists r, getToolResources fs = Returned r
    /\ match r with
       | Some tr =>
           tr <> [] /\ well_formed tr
           /\ forall c id, filed tr c id <->
                exists file, In file fs /\ ExtendedFile.file_id file <> ""
                             /\ category file = c /\ ExtendedFile.file_id file = id
       | None => forall file, In file fs -> ExtendedFile.file_id file = ""
       end.
Proof.
  intros O.
  destruct (add_files_spec fs JsMap.empty well_formed_empty O) as (tr & E & WF & S).
  assert (S' : forall c id, filed tr c id <->
                exists file, In file fs /\ ExtendedFile.file_id file <> ""
                             /\ category file = c /\ ExtendedFile.file_id file = id).
  { intros c id. rewrite S. split; [intros [[]|H]; exact H | now right]. }
  unfold getToolResources. destruct fs as [|f0 fs'] eqn:Efs.
  - exists None. split; [reflexivity | intros file []].
  - rewrite <- Efs in *. rewrite E. rewrite JsObjectFacts.keys_length_length.
    destruct tr as [|[c r] tr']; simpl.
    + exists None. split; [reflexivity|]. intros file Hf.
      destruct (String.string_dec (ExtendedFile.file_id file) "") as [H|H]; [exact H|].
      exfalso. apply (proj2 (S' (category file) (ExtendedFile.file_id file))).
      now exists file.
    + exists (Some ((c, r) :: tr')). split; [reflexivity|].
      split; [discriminate|]. split; [exact WF | exact S'].
Qed.

Lemma add_file_keys (tr tr' : AgentToolResources) file c :
  well_formed tr ->
  (ExtendedFile.file_id file <> "" -> JsObject.inherited (category file) = false) ->
  add_file tr file = Returned tr' ->
  In c (JsMap.keys tr') ->
  In c (JsMap.keys tr) \/ (ExtendedFile.file_id file <> "" /\ c = category file).
Proof.
  intros WF O E Hc. rewrite (add_file_closed_form tr file WF O) in E. injection E as <-.
  destruct (truthy (ExtendedFile.file_id file)) eqn:T; simpl in Hc; [|now left].
  apply truthy_true in T.
  destruct (array_includes _ _); [now left|].
  apply JsMapFacts.In_keys_set in Hc as [->|Hc]; [right | left]; auto.
Qed.

(** The projection throws as soon as it meets a record it files whose
    category is a name the map inherits: the map never holds such a name. *)
Lemma add_files_throws fs : forall tr : AgentToolResources,
  well_formed tr ->
  (forall c, In c (JsMap.keys tr) -> JsObject.inherited c = false) ->
  inherited_category fs = true ->
  add_files tr fs = Thrown "TypeError".
Proof.
  induction fs as [|file fs IH]; intros tr WF K H; [discriminate H|].
  unfold inherited_category in H. simpl in H. simpl.
  destruct (truthy (ExtendedFile.file_id file)) eqn:T.
  - pose proof (proj1 (truthy_true _) T) as T'.
    destruct (JsObject.inherited (category file)) eqn:I.
    + rewrite add_file_throws; auto.
      apply JsMapFacts.get_None. intros Hin. apply K in Hin. congruence.
    + simpl in H.
      destruct (add_file_spec tr file WF (fun _ => I)) as (tr1 & E1 & WF1 & _).
      rewrite E1. apply IH; [exact WF1 | | exact H].
      intros c Hc.
      destruct (add_file_keys tr tr1 file c WF (fun _ => I) E1 Hc) as [Hc'|[_ ->]];
        [now apply K | exact I].
  - simpl in H. apply truthy_false in T.
    assert (E : add_file tr file = Returned tr).
    { unfold add_file. rewrite T. reflexivity. }
    rewrite E. now apply IH.
Qed.

Lemma getToolResources_throws (fs : list ExtendedFile.t) :
  inherited_category fs = true -> getToolResources fs = Thrown "TypeError".
Proof.
  intros H. unfold getToolResources. destruct fs as [|f fs']; [discriminate H|].
  rewrite (add_files_throws (f :: fs') JsMap.empty well_formed_empty); auto.
  intros c [].
Qed.

(** ** Restoration from tool resources *)

Lemma foldM_invariant {A B} (I : list A -> B -> Prop) (body : B -> A -> Act B) :
  (forall pre x acc w, I pre acc ->
     exists acc' w' t, body acc x w = (Returned acc', w', t) /\ I (pre ++ [x]) acc'
                       /\ files w' = files w) ->
  forall xs pre acc w, I pre acc ->
    exists acc' w' t, foldM body xs acc w = (Returned acc', w', t) /\ I (pre ++ xs) acc'
                      /\ files w' = files w.
Proof.
  intros Step xs. induction xs as [|x xs IH]; intros pre acc w H; simpl.
  - exists acc, w, []. rewrite app_nil_r. auto.
  - destruct (Step pre x acc w H) as (acc1 & w1 & t1 & E1 & H1 & F1).
    destruct (IH (pre ++ [x]) acc1 w1 H1) as (acc2 & w2 & t2 & E2 & H2 & F2).
    exists acc2, w2, (t1 ++ t2). rewrite bind_run, E1. unfold outcome, world, trace.
    rewrite E2. simpl. rewrite <- app_assoc in H2. simpl in H2.
    repeat split; [exact H2 | congruence].
Qed.

Lemma fileMap_key env k dbFile :
  JsMap.get k (fileMap env) = Some dbFile -> TFile.file_id dbFile = k.
Proof.
  unfold fileMap.
  assert (G : forall l acc,
             (forall k d, JsMap.get k acc = Some d -> TFile.file_id d = k) ->
             forall k d,
               JsMap.get k
                 (fold_left
                    (fun map file =>
                       if truthy (TFile.file_id file)
                          && negb (TFile.file_id file =? "__proto__")
                       then JsMap.set (TFile.file_id file) file map else map)
                    l acc) = Some d ->
               TFile.file_id d = k).
  { induction l as [|file l IH]; intros acc Hacc k0 d; simpl; [apply Hacc|].
    apply IH. intros k1 d1.
    destruct (truthy (TFile.file_id file) && negb (TFile.file_id file =? "__proto__"));
      [|apply Hacc].
    rewrite JsMapFacts.get_set. destruct (k1 =? TFile.file_id file) eqn:E.
    - apply String.eqb_eq in E. now intros [= <-].
    - apply Hacc. }
  apply G. discriminate.
Qed.

Lemma fileMap_prototype_key env proto :
  fileMap_prototype env = Some proto -> TFile.file_id proto = "__proto__".
Proof.
  unfold fileMap_prototype.
  assert (G : forall l acc,
             (forall p, acc = Some p -> TFile.file_id p = "__proto__") ->
             forall p,
               fold_left
                 (fun proto file =>
                    if TFile.file_id file =? "__proto__" then Some file else proto)
                 l acc = Some p ->
               TFile.file_id p = "__proto__").
  { induction l as [|file l IH]; intros acc Hacc p; simpl; [apply Hacc|].
    apply IH. intros q. destruct (TFile.file_id file =? "__proto__") eqn:E; [|apply Hacc].
    intros [= <-]. now apply String.eqb_eq. }
  apply G. discriminate.
Qed.

(** A listed file is found under its own identifier only. *)
Lemma fileMap_lookup_Listed env id dbFile :
  fileMap_lookup env id = Listed dbFile -> TFile.file_id dbFile = id.
Proof.
  unfold fileMap_lookup. destruct (JsMap.get id (fileMap env)) as [d|] eqn:G.
  - intros [= <-]. now apply (fileMap_key env).
  - destruct (fileMap_prototype env) as [proto|] eqn:P.
    + destruct (id =? "__proto__") eqn:E.
      * intros [= <-]. apply String.eqb_eq in E. subst id.
        now apply (fileMap_prototype_key env).
      * destruct (TFile.own_truthy proto id) as [[|]|]; try discriminate.
        destruct (JsObject.inherited id); discriminate.
    + destruct (JsObject.inherited id); discriminate.
Qed.

Lemma fileMap_lookup_own env id dbFile :
  JsMap.get id (fileMap env) = Some dbFile -> fileMap_lookup env id = Listed dbFile.
Proof. intros G. unfold fileMap_lookup. now rewrite G. Qed.

Lemma load_file_spec env toolResource filesMap fileId w :
  exists record w' t,
    load_file env toolResource filesMap fileId w
    = (Returned (JsMap.set fileId record filesMap), w', t)
    /\ loaded env toolResource fileId record
    /\ files w' = files w.
Proof.
  unfold load_file, loaded.
  destruct (fileMap_lookup env fileId) as [dbFile| |] eqn:L.
  - pose proof (fileMap_lookup_Listed env fileId dbFile L) as K.
    fold (restored_source toolResource dbFile).
    destruct (opt_startsWith "image/" (TFile.type dbFile)) eqn:Img.
    + rewrite !bind_run.
      destruct (createAuthenticatedBlobUrl_returns env (TFile.file_id dbFile) w) as [url Hurl].
      pose proof (createAuthenticatedBlobUrl_keeps_files env (TFile.file_id dbFile) w) as F.
      rewrite K in *. unfold outcome, world in F.
      destruct (createAuthenticatedBlobUrl env fileId w) as [[o w1] t1] eqn:Run.
      unfold outcome in Hurl. simpl in Hurl, F. subst o. simpl.
      eexists _, _, _. split; [reflexivity|]. split; [|exact F].
      split; [reflexivity|].
      eexists. split; [reflexivity|]. split; [discriminate|]. intros _.
      destruct url as [url|]; simpl; [|now left].
      destruct (truthy url) eqn:T; [|now left].
      right. exists url, w. apply truthy_true in T. rewrite Run. auto.
    + rewrite bind_run. simpl.
      eexists _, _, _. split; [reflexivity|]. split; [|reflexivity].
      split; [exact K|].
      eexists. split; [reflexivity|]. split; [reflexivity | discriminate].
  - eexists _, _, _. split; [reflexivity|]. split; reflexivity.
  - eexists _, _, _. split; [reflexivity|]. split; reflexivity.
Qed.

(** What every restored record carries, and what it carries unless the
    lookup found a value that is no listed file. *)
Lemma loaded_facts env c id record :
  loaded env c id record ->
  ExtendedFile.tool_resource record = Some c
  /\ ExtendedFile.progress record = 1%Q
  /\ ExtendedFile.attached record = Some true
  /\ (fileMap_lookup env id <> Foreign ->
      ExtendedFile.raw_file_id record = Some id
      /\ ExtendedFile.temp_file_id record = Some id
      /\ ExtendedFile.file_id record = id)
  /\ (fileMap_lookup env id = Foreign ->
      record = unreadable c (placeholder_source c))
  /\ (fileMap_lookup env id = Nothing ->
      record = placeholder c id (placeholder_source c)).
Proof.
  unfold loaded. destruct (fileMap_lookup env id) as [dbFile| |].
  - intros (K & pv & -> & _). subst id.
    do 3 (split; [reflexivity|]). split; [intros _; repeat split|].
    split; discriminate.
  - intros ->. do 3 (split; [reflexivity|]). split; [intros N; now contradiction N|].
    split; [reflexivity | discriminate].
  - intros ->. do 3 (split; [reflexivity|]). split; [intros _; repeat split|].
    split; [discriminate | reflexivity].
Qed.

Lemma restoring_step env visited filesMap c id record :
  restoring env visited filesMap -> loaded env c id record ->
  restoring env (visited ++ [(c, id)]) (JsMap.set id record filesMap).
Proof.
  intros (ND & H1 & H2) L. split; [now apply JsMapFacts.NoDup_keys_set|]. split.
  - intros k r. rewrite JsMapFacts.get_set. destruct (k =? id) eqn:E.
    + apply String.eqb_eq in E. subst k. intros [= <-]. exists c.
      split; [apply in_or_app; right; now left | exact L].
    + intros G. destruct (H1 k r G) as (c' & Hc & Hl). exists c'.
      split; [apply in_or_app; now left | exact Hl].
  - intros c' k Hin. rewrite JsMapFacts.get_set. destruct (k =? id) eqn:E; [eauto|].
    apply in_app_or in Hin as [Hin|[Hin|[]]]; [eauto|].
    injection Hin as <- <-. rewrite String.eqb_refl in E. discriminate.
Qed.

Lemma In_pairs_of entries c k :
  In (c, k) (pairs_of entries) <->
  exists file_ids, In (c, Some (Resource.mk (Some file_ids))) entries /\ In k file_ids.
Proof.
  unfold pairs_of. rewrite in_flat_map. split.
  - intros [[c' r] [Hin H]]. simpl in H.
    destruct r as [[[ids|]]|]; simpl in H; try contradiction.
    apply in_map_iff in H as (k' & [= <- <-] & Hk). now exists ids.
  - intros (ids & Hin & Hk). exists (c, Some (Resource.mk (Some ids))).
    split; [exact Hin|]. simpl. apply in_map_iff. now exists k.
Qed.

Lemma filed_In_pairs (tr : AgentToolResources) c k :
  filed tr c k -> In (c, k) (pairs_of (JsObject.entries tr)).
Proof.
  unfold filed, file_ids_of. intros H.
  destruct (JsMap.get c tr) as [[[[ids|]]|]|] eqn:G; try contradiction.
  apply In_pairs_of. exists ids. split; [|exact H].
  apply JsObjectFacts.In_entries. now apply JsMapFacts.get_In.
Qed.

Lemma In_pairs_filed (tr : AgentToolResources) c k :
  NoDup (JsMap.keys tr) -> In (c, k) (pairs_of (JsObject.entries tr)) -> filed tr c k.
Proof.
  intros ND H. apply In_pairs_of in H as (ids & Hin & Hk).
  apply (proj1 (JsObjectFacts.In_entries _ _)) in Hin.
  apply (JsMapFacts.In_get _ _ _ ND) in Hin.
  unfold filed, file_ids_of. now rewrite Hin.
Qed.

Lemma load_resource_spec env visited filesMap entry w :
  restoring env visited filesMap ->
  exists filesMap' w' t,
    load_resource env filesMap entry w = (Returned filesMap', w', t)
    /\ restoring env (visited ++ pairs_of [entry]) filesMap'
    /\ files w' = files w.
Proof.
  intros H. destruct entry as [c r]. unfold pairs_of. simpl. rewrite app_nil_r.
  destruct r as [[[ids|]]|]; simpl;
    try (exists filesMap, w, []; rewrite app_nil_r; auto).
  apply (foldM_invariant (fun pre acc => restoring env (visited ++ map (pair c) pre) acc)
           (load_file env c)) with (pre := []) (xs := ids).
  - intros pre id acc w0 Hacc.
    destruct (load_file_spec env c acc id w0) as (record & w1 & t1 & E & L & F).
    exists (JsMap.set id record acc), w1, t1. split; [exact E|]. split; [|exact F].
    rewrite map_app, app_assoc. simpl. now apply restoring_step.
  - simpl. now rewrite app_nil_r.
Qed.

(** What [loadFromToolResources] leaves in the registry: it does not throw,
    and the new registry holds one record for each identifier the map names,
    under that identifier, loaded for a category the map names it under. *)
Lemma loadFromToolResources_spec env (tr : AgentToolResources) w :
  exists w' t,
    loadFromToolResources env (Some tr) w = (Returned tt, w', t)
    /\ restoring env (pairs_of (JsObject.entries tr)) (files w').
Proof.
  unfold loadFromToolResources. rewrite bind_run.
  destruct (foldM_invariant (fun pre acc => restoring env (pairs_of pre) acc)
              (load_resource env)) with (xs := JsObject.entries tr) (pre := @nil (string * option Resource.t))
              (acc := @JsMap.empty ExtendedFile.t) (w := w)
    as (filesMap & w1 & t1 & E & H & F).
  - intros pre entry acc w0 Hacc.
    destruct (load_resource_spec env (pairs_of pre) acc entry w0 Hacc)
      as (acc' & w' & t & E & H & F).
    exists acc', w', t. split; [exact E|]. split; [|exact F].
    unfold pairs_of in *. now rewrite flat_map_app.
  - split; [constructor|]. split; [discriminate | intros c k []].
  - rewrite E. simpl. eexists _, _. split; [reflexivity|]. exact H.
Qed.

Lemma loadFromToolResources_none env w :
  loadFromToolResources env None w
  = (Returned tt,
     mkWorld JsMap.empty (filesLoading w) (abortControllerRef w) (decoding w) (inflight w)
             (clock w),
     []).
Proof. reflexivity. Qed.

Lemma entries_singleton {V} (e : string * V) : JsObject.entries [e] = [e].
Proof.
  unfold JsObject.entries. simpl. now destruct (JsObject.is_index (fst e)).
Qed.

Lemma In_promptFiles_get {registry : JsMap.t ExtendedFile.t} {k file} :
  JsMap.get k registry = Some file -> In file (promptFiles registry).
Proof.
  intros G. apply JsMapFacts.get_In in G. unfold promptFiles, JsMap.values.
  apply in_map_iff. now exists (k, file).
Qed.

Lemma In_promptFiles registry file :
  In file (promptFiles registry) -> exists k, In (k, file) registry.
Proof.
  unfold promptFiles, JsMap.values. rewrite in_map_iff.
  intros ([k f] & <- & H). now exists k.
Qed.

Lemma loadFromToolResources_record env (toolResources : AgentToolResources) w c id :
  filed toolResources c id ->
  exists c' file_ids record,
    In (c', Some (Resource.mk (Some file_ids))) toolResources /\ In id file_ids
    /\ JsMap.get id (files (world (loadFromToolResources env (Some toolResources) w)))
       = Some record
    /\ loaded env c' id record.
Proof.
  intros Hfiled.
  destruct (loadFromToolResources_spec env toolResources w) as (w' & t & E & (_ & H1 & H2)).
  rewrite E. unfold world. simpl.
  destruct (H2 c id (filed_In_pairs toolResources c id Hfiled)) as [record G].
  destruct (H1 id record G) as (c' & Hc' & L).
  apply In_pairs_of in Hc' as (ids & Hin & Hid).
  apply (proj1 (JsObjectFacts.In_entries _ _)) in Hin.
  now exists c', ids, record.
Qed.

(** X22. Restoring a persisted map never fails, whatever the listing knows.
    For an identifier that the map names and for which the lookup finds
    nothing, the restored registry holds, under that identifier, the
    placeholder record of a category the map names the identifier under:
    progress 1, an empty stored path, the display name made of the word File
    and the identifier, and that category as tag. In particular a map of one
    category that names the one identifier abc, for which the lookup finds
    nothing, restores to a registry of exactly one record, the placeholder of
    abc under that category. *)
Theorem restore_synthesizes_placeholders (env : Env) (w : World) :
  (forall toolResources : option AgentToolResources,
     outcome (loadFromToolResources env toolResources w) = Returned tt)
  /\ (forall (toolResources : AgentToolResources) (c id : string),
        filed toolResources c id ->
        fileMap_lookup env id = Nothing ->
        exists c' file_ids record,
          In (c', Some (Resource.mk (Some file_ids))) toolResources /\ In id file_ids
          /\ JsMap.get id (files (world (loadFromToolResources env (Some toolResources) w)))
             = Some record
          /\ record = placeholder c' id (placeholder_source c')
          /\ ExtendedFile.progress record = 1%Q
          /\ ExtendedFile.filepath record = Some ""
          /\ ExtendedFile.filename record = Some ("File " ++ id)%string
          /\ ExtendedFile.file_id record = id
          /\ ExtendedFile.tool_resource record = Some c')
  /\ (forall c : string,
        fileMap_lookup env "abc" = Nothing ->
        files (world (loadFromToolResources env
                        (Some [(c, Some (Resource.mk (Some ["abc"])))]) w))
        = [("abc", placeholder c "abc" (placeholder_source c))]).
Proof.
  split; [|split].
  - intros [tr|]; [|reflexivity].
    destruct (loadFromToolResources_spec env tr w) as (w' & t & E & _). now rewrite E.
  - intros tr c id Hfiled Hnone.
    destruct (loadFromToolResources_record env tr w c id Hfiled)
      as (c' & ids & record & Hin & Hid & G & L).
    apply loaded_facts in L as (_ & _ & _ & _ & _ & P). specialize (P Hnone).
    exists c', ids, record. subst record. repeat split; auto.
  - intros c Hnone. unfold loadFromToolResources. rewrite entries_singleton.
    rewrite bind_run. simpl. rewrite bind_run. unfold load_file. rewrite Hnone.
    reflexivity.
Qed.

(** The scenario of the specification: the map [{search: {file_ids: [abc]}}],
    and the same under the category tag of the hook, with a listing that does
    not know abc. *)
Lemma restore_synthesizes_placeholders_witness :
  let env := session_env (Thrown "offline") in
  let w := initial_world [] in
  files (world (loadFromToolResources env
                  (Some [("search", Some (Resource.mk (Some ["abc"])))]) w))
  = [("abc", placeholder "search" "abc" FileSources.local)]
  /\ files (world (loadFromToolResources env
                     (Some [(EToolResources.file_search, Some (Resource.mk (Some ["abc"])))]) w))
     = [("abc", placeholder EToolResources.file_search "abc" FileSources.vectordb)].
Proof.
  intros env w.
  destruct (restore_synthesizes_placeholders env w) as (_ & _ & H).
  split; apply H; reflexivity.
Defined.

(** C7 at an identifier that is the name of a property the lookup table
    inherits. The listing does not know the identifier, yet [fileMap[fileId]]
    is truthy, so the restoration takes the branch of a known file and reads
    the metadata from a value that has none: the record it writes under the
    identifier has no [file_id], no display name and no stored path. It is
    not the placeholder, and with it the files are not ready. *)
Theorem restore_of_an_inherited_name (env : Env) (w : World)
    (toolResources : AgentToolResources) (c id : string) :
  filed toolResources c id ->
  fileMap_lookup env id = Foreign ->
  let registry := files (world (loadFromToolResources env (Some toolResources) w)) in
  exists c' record,
    JsMap.get id registry = Some record
    /\ record = unreadable c' (placeholder_source c')
    /\ record <> placeholder c' id (placeholder_source c')
    /\ ExtendedFile.raw_file_id record = None
    /\ ExtendedFile.filename record = None
    /\ ExtendedFile.filepath record = None
    /\ ExtendedFile.progress record = 1%Q
    /\ areFilesReady (promptFiles registry) = false.
Proof.
  intros Hfiled Hforeign registry.
  destruct (loadFromToolResources_record env toolResources w c id Hfiled)
    as (c' & ids & record & _ & _ & G & L).
  apply loaded_facts in L as (_ & _ & _ & _ & P & _). specialize (P Hforeign).
  exists c', record. split; [exact G|]. subst record.
  do 6 (split; [first [reflexivity | discriminate]|]).
  destruct (areFilesReady (promptFiles registry)) eqn:R; [|reflexivity].
  pose proof (proj1 (areFilesReady_iff (promptFiles registry)) R) as R'.
  destruct (R' _ (In_promptFiles_get G)) as [N _]. now contradiction N.
Qed.

(** The listing is empty, and the persisted map names the identifier
    constructor under the search category. *)
Lemma restore_of_an_inherited_name_witness :
  let env := listing_env [] in
  let toolResources :=
    [(EToolResources.file_search, Some (Resource.mk (Some ["constructor"])))] in
  let registry :=
    files (world (loadFromToolResources env (Some toolResources) (initial_world []))) in
  registry = [("constructor", unreadable EToolResources.file_search FileSources.vectordb)]
  /\ areFilesReady (promptFiles registry) = false.
Proof.
  intros env toolResources registry. split; [reflexivity|].
  destruct (restore_of_an_inherited_name env (initial_world []) toolResources
              EToolResources.file_search "constructor")
    as (c' & record & _ & _ & _ & _ & _ & _ & _ & R).
  - left. reflexivity.
  - reflexivity.
  - exact R.
Defined.

(** ** The round trip *)

Lemma In_assignments registry id c :
  In (id, c) (assignments registry) <->
  exists file, In file (promptFiles registry) /\ ExtendedFile.file_id file <> ""
               /\ ExtendedFile.file_id file = id /\ category file = c.
Proof.
  unfold assignments. rewrite in_map_iff. split.
  - intros (f & [= <- <-] & Hf). apply filter_In in Hf as [Hin T].
    apply truthy_true in T. now exists f.
  - intros (f & Hin & T & <- & <-). exists f. split; [reflexivity|].
    apply filter_In. split; [exact Hin | now apply truthy_true].
Qed.

(** X23. The round trip through the persisted shape. For a registry in which
    no identifier is carried by two records of different categories, whose
    categories are ordinary names, and whose identifiers the lookup does not
    resolve to a value that is no listed file, the projection returns and
    restoring it yields a registry with exactly the identifier-to-category
    assignments of the original. The listing need not know the identifiers:
    a placeholder carries its identifier and category too. *)
Theorem round_trip_restores_assignments (env : Env) (w : World)
    (registry : JsMap.t ExtendedFile.t) :
  ordinary_categories (promptFiles registry) ->
  one_category_per_identifier registry ->
  identifiers_readable env registry ->
  exists toolResources,
    project registry = Returned toolResources
    /\ same_assignments (files (world (loadFromToolResources env toolResources w)))
                        registry.
Proof.
  intros Ord One Readable. unfold project.
  destruct (getToolResources_spec (promptFiles registry) Ord) as (r & E & S).
  exists r. split; [exact E|].
  destruct r as [tr|].
  - destruct S as (_ & [ND WF] & S).
    destruct (loadFromToolResources_spec env tr w) as (w' & t & E' & (ND' & H1 & H2)).
    rewrite E'. unfold world. simpl.
    assert (Rec : forall k c f', JsMap.get k (files w') = Some f' ->
              In (c, k) (pairs_of (JsObject.entries tr)) -> loaded env c k f' ->
              ExtendedFile.file_id f' = k /\ category f' = c
              /\ exists f, In f (promptFiles registry) /\ ExtendedFile.file_id f <> ""
                           /\ category f = c /\ ExtendedFile.file_id f = k).
    { intros k c f' G Hc L.
      apply (In_pairs_filed tr c k ND) in Hc. apply S in Hc as (f & Hf & Tf & Cf & If).
      apply loaded_facts in L as (L3 & _ & _ & L1 & _).
      destruct L1 as (_ & _ & L1); [rewrite <- If; now apply Readable|].
      split; [exact L1|]. split; [|now exists f].
      apply (category_tagged f' c L3). rewrite <- Cf. apply category_truthy. }
    intros [id c]. rewrite !In_assignments. split.
    + intros (f' & Hin & T & <- & <-).
      apply In_promptFiles in Hin as [k Hin].
      apply (JsMapFacts.In_get _ _ _ ND') in Hin.
      destruct (H1 k f' Hin) as (c & Hc & L).
      destruct (Rec k c f' Hin Hc L) as (Ek & Ec & f & Hf & Tf & Cf & If).
      exists f. repeat split; auto; congruence.
    + intros (f & Hin & T & <- & <-).
      assert (F : filed tr (category f) (ExtendedFile.file_id f)).
      { apply S. now exists f. }
      destruct (H2 _ _ (filed_In_pairs tr _ _ F)) as [f' G].
      destruct (H1 _ _ G) as (c & Hc & L).
      destruct (Rec _ c f' G Hc L) as (Ek & Ec & g & Hg & Tg & Cg & Ig).
      exists f'. split; [exact (In_promptFiles_get G)|].
      split; [congruence|]. split; [exact Ek|].
      rewrite Ec, <- Cg. apply One; auto.
  - rewrite loadFromToolResources_none. unfold world. simpl.
    intros [id c]. rewrite !In_assignments. split.
    + intros (f & [] & _).
    + intros (f & Hin & T & _). exfalso. apply T. now apply S.
Qed.

Lemma round_trip_restores_assignments_witness :
  let env := listing_env [sample_dbFile "a"; sample_dbFile "b"] in
  let registry :=
    [ ("k1", sample_record "a" (Some "text/plain") 1 (Some EToolResources.execute_code));
      ("k2", sample_record "b" (Some "image/png") 1 None) ] in
  all_identified registry /\ lookup_resolves env registry
  /\ exists toolResources,
       project registry = Returned toolResources
       /\ same_assignments
            (files (world (loadFromToolResources env toolResources (initial_world []))))
            registry.
Proof.
  intros env registry.
  assert (A : all_identified registry).
  { intros file [<-|[<-|[]]]; discriminate. }
  assert (L : lookup_resolves env registry).
  { intros file [<-|[<-|[]]] _; eexists; reflexivity. }
  split; [exact A|]. split; [exact L|].
  apply (round_trip_restores_assignments env (initial_world []) registry).
  - intros file [<-|[<-|[]]] _; reflexivity.
  - intros f g [<-|[<-|[]]] [<-|[<-|[]]]; simpl; intros E; try reflexivity; discriminate E.
  - intros file Hin T. destruct (L file Hin T) as [d ->]. discriminate.
Defined.



(** ** Selection *)

Lemma handleFile_run toolResource sel w :
  outcome (handleFile toolResource sel w) = Returned tt
  /\ world (handleFile toolResource sel w) = selected_world toolResource sel w.
Proof.
  unfold handleFile, selected_world, decodes, selection_form. cbv zeta.
  set (ext := registered sel toolResource).
  assert (P : ExtendedFile.preview ext
              = Some (if startsWith "image/" (File.type (Selected.file sel))
                      then Selected.objectURL sel else "")) by reflexivity.
  rewrite P. clearbody ext. rewrite bind_run.
  destruct (startsWith "image/" (File.type (Selected.file sel))); simpl.
  - destruct (truthy (Selected.objectURL sel)); split; reflexivity.
  - split; reflexivity.
Qed.

Lemma handleFile_files toolResource sel w :
  files (world (handleFile toolResource sel w))
  = JsMap.set (Selected.uuid sel) (registered sel toolResource) (files w).
Proof. now rewrite (proj2 (handleFile_run toolResource sel w)). Qed.

(** C1 at a record that is still uploading. A file has just been selected:
    its record is registered under the identifier the client generated, is
    not persisted, has progress 0 and no stored path. The projection does
    not skip it: it returns a map that files the provisional identifier under
    the category of the record. The one exception is a registry in which some
    record with an identifier is tagged with a name every plain object
    inherits: there the projection throws. *)
Theorem getToolResources_files_an_uploading_record
    (toolResource : option string) (sel : Selected.t) (w : World) :
  Selected.uuid sel <> "" ->
  let registry := files (world (handleFile toolResource sel w)) in
  let record := registered sel toolResource in
  JsMap.get (Selected.uuid sel) registry = Some record
  /\ still_uploading record
  /\ if inherited_category (promptFiles registry)
     then getToolResources (promptFiles registry) = Thrown "TypeError"
     else exists toolResources,
            getToolResources (promptFiles registry) = Returned (Some toolResources)
            /\ filed toolResources (category record) (Selected.uuid sel).
Proof.
  intros U registry record.
  assert (G : JsMap.get (Selected.uuid sel) registry = Some record).
  { unfold registry. rewrite handleFile_files. apply JsMapFacts.get_set_same. }
  split; [exact G|]. split.
  - repeat split.
  - destruct (inherited_category (promptFiles registry)) eqn:Inh;
      [now apply getToolResources_throws|].
    apply ordinary_categories_iff in Inh.
    destruct (getToolResources_spec (promptFiles registry) Inh) as (r & E & S).
    destruct r as [tr|].
    + exists tr. split; [exact E|]. destruct S as (_ & _ & S). apply S.
      exists record. split; [exact (In_promptFiles_get G)|]. auto.
    + exfalso. apply U. apply (S record). exact (In_promptFiles_get G).
Qed.

Lemma getToolResources_files_an_uploading_record_witness :
  let sel := Selected.mk (File.mk "notes.txt" "text/plain" 12) "u1" "" in
  let registry := files (world (handleFile None sel (initial_world []))) in
  still_uploading (registered sel None)
  /\ getToolResources (promptFiles registry)
     = Returned (Some [(EToolResources.file_search, Some (Resource.mk (Some ["u1"])))]).
Proof.
  intros sel registry.
  destruct (getToolResources_files_an_uploading_record None sel (initial_world []))
    as (_ & S & _); [discriminate|].
  split; [exact S | reflexivity].
Defined.

(** ** The pipeline: what each event does to the world *)

Lemma forEach_handleFile toolResource fileList : forall w,
  outcome (forEach fileList (handleFile toolResource) w) = Returned tt
  /\ world (forEach fileList (handleFile toolResource) w)
     = fold_left (fun w sel => selected_world toolResource sel w) fileList w.
Proof.
  induction fileList as [|sel l IH]; intros w; [split; reflexivity|].
  unfold forEach in *. simpl. rewrite bind_run.
  destruct (handleFile_run toolResource sel w) as [O W].
  unfold outcome, world in O, W.
  destruct (handleFile toolResource sel w) as [[o w1] t1]. simpl in O, W. subst o w1.
  destruct (IH (selected_world toolResource sel w)) as [O' W'].
  split; [exact O' | exact W'].
Qed.

Lemma exec_FilesSelected env fileList toolResource w :
  exec env (FilesSelected (Some fileList) toolResource) w
  = fold_left (fun w sel => selected_world toolResource sel w) fileList (loading w).
Proof.
  unfold exec. simpl. rewrite bind_run. simpl.
  apply (proj2 (forEach_handleFile toolResource fileList (loading w))).
Qed.

Lemma exec_ImageLoaded env n width height w ext pv :
  nth_error (decoding w) n = Some (ext, pv) ->
  exec env (ImageLoaded n width height) w
  = mkWorld (JsMap.set (ExtendedFile.file_id ext) (measured ext width height) (files w))
            (filesLoading w) (abortControllerRef w)
            (remove_nth n (decoding w))
            (inflight w ++ [measured_form ext width height])
            (clock w).
Proof.
  intros E. unfold exec. simpl. rewrite bind_run. simpl. rewrite E. reflexivity.
Qed.

Lemma exec_UploadSucceeded env n data w fd :
  nth_error (inflight w) n = Some fd ->
  exec env (UploadSucceeded n data) w
  = mkWorld (onSuccess_updater data (files w)) false (abortControllerRef w)
            (decoding w) (remove_nth n (inflight w)) (clock w).
Proof.
  intros E. unfold exec. simpl. rewrite bind_run. simpl. rewrite E. reflexivity.
Qed.

Lemma exec_UploadFailed env n error w fd :
  nth_error (inflight w) n = Some fd ->
  exec env (UploadFailed n error) w
  = mkWorld (files w) false (abortControllerRef w)
            (decoding w) (remove_nth n (inflight w)) (clock w).
Proof.
  intros E. unfold exec. simpl. rewrite bind_run. simpl. rewrite E. reflexivity.
Qed.

Lemma exec_FileRemoved env fileId w :
  files (exec env (FileRemoved fileId) w) = JsMap.delete fileId (files w)
  /\ decoding (exec env (FileRemoved fileId) w) = decoding w
  /\ inflight (exec env (FileRemoved fileId) w) = inflight w.
Proof.
  unfold exec. simpl. unfold handleFileRemove. rewrite !bind_run. simpl.
  destruct (fileSetter env); repeat split.
Qed.

Lemma exec_UploadAborted env w :
  files (exec env UploadAborted w) = files w
  /\ decoding (exec env UploadAborted w) = decoding w
  /\ inflight (exec env UploadAborted w) = inflight w.
Proof.
  unfold exec. simpl. destruct (abortUpload_frame w) as (_ & F & I & D & _). auto.
Qed.

Lemma exec_ToolResourcesLoaded env toolResources w :
  decoding (exec env (ToolResourcesLoaded toolResources) w) = decoding w
  /\ inflight (exec env (ToolResourcesLoaded toolResources) w) = inflight w
  /\ match toolResources with
     | Some tr =>
         restoring env (pairs_of (JsObject.entries tr))
                   (files (exec env (ToolResourcesLoaded toolResources) w))
     | None => files (exec env (ToolResourcesLoaded toolResources) w) = JsMap.empty
     end.
Proof.
  unfold exec. simpl.
  split; [apply loadFromToolResources_keeps_decoding|].
  split; [apply loadFromToolResources_keeps_inflight|].
  destruct toolResources as [tr|]; [|reflexivity].
  destruct (loadFromToolResources_spec env tr w) as (w' & t & E & H). now rewrite E.
Qed.

(** Freshness of the identifiers of a selection. *)
Lemma fresh_uuids_cons used u us :
  fresh_uuids used (u :: us) = true ->
  u <> "" /\ ~ In u used /\ fresh_uuids (u :: used) us = true.
Proof.
  simpl. intros H. apply andb_true_iff in H as [H H3].
  apply andb_true_iff in H as [H1 H2]. apply truthy_true in H1.
  apply negb_true_iff, array_includes_not_In in H2. auto.
Qed.

Lemma fresh_uuids_weaken used used' us :
  (forall x, In x used' -> In x used) ->
  fresh_uuids used us = true -> fresh_uuids used' us = true.
Proof.
  revert used used'. induction us as [|u us IH]; intros used used' Sub H; [reflexivity|].
  apply fresh_uuids_cons in H as (H1 & H2 & H3). simpl.
  apply andb_true_iff. split; [apply andb_true_iff; split|].
  - now apply truthy_true.
  - apply negb_true_iff, array_includes_not_In. auto.
  - apply (IH (u :: used)); [|exact H3]. intros x [->|Hx]; [now left | right; auto].
Qed.

Lemma submitted_id_selection_form toolResource sel :
  submitted_id (selection_form toolResource sel) = Some (Selected.uuid sel).
Proof. reflexivity. Qed.

Lemma submitted_id_measured_form ext width height :
  submitted_id (measured_form ext width height) = Some (ExtendedFile.file_id ext).
Proof. reflexivity. Qed.

Lemma inflight_ids_app w l :
  flat_map (fun fd => match submitted_id fd with Some s => [s] | None => [] end)
           (inflight w ++ l)
  = inflight_ids w
    ++ flat_map (fun fd => match submitted_id fd with Some s => [s] | None => [] end) l.
Proof. unfold inflight_ids. apply flat_map_app. Qed.

Lemma ids_in_use_selected toolResource sel w x :
  In x (ids_in_use (selected_world toolResource sel w)) ->
  x = Selected.uuid sel \/ In x (ids_in_use w).
Proof.
  unfold ids_in_use, decoding_ids, inflight_ids, selected_world. simpl.
  rewrite !in_app_iff. intros [H|[H|H]].
  - apply JsMapFacts.In_keys_set in H as [H|H]; auto.
  - destruct (decodes sel); [|auto].
    rewrite map_app, in_app_iff in H. simpl in H. destruct H as [H|[H|[]]]; auto.
  - destruct (decodes sel); [auto|].
    rewrite flat_map_app, in_app_iff in H. simpl in H. destruct H as [H|[H|[]]]; auto.
Qed.

(** ** The pipeline: its invariant *)

Lemma NoDup_snoc {A} (l : list A) (x : A) : NoDup l -> ~ In x l -> NoDup (l ++ [x]).
Proof.
  intros ND N. apply NoDup_rev in ND. rewrite <- (rev_involutive (l ++ [x])).
  apply NoDup_rev. rewrite rev_app_distr. simpl. constructor; [|exact ND].
  now rewrite <- in_rev.
Qed.

Lemma NoDup_map_remove_nth {A B} (g : A -> B) (n : nat) (l : list A) :
  NoDup (map g l) -> NoDup (map g (remove_nth n l)).
Proof.
  revert n. induction l as [|x l IH]; intros [|n] ND; simpl in *; auto.
  - now inversion ND.
  - inversion ND as [|? ? Hn ND']; subst. constructor; [|auto].
    intros H. apply Hn. apply in_map_iff in H as (y & E & Hy).
    apply in_map_iff. exists y. split; [exact E|]. eapply In_remove_nth; eauto.
Qed.

Lemma remove_nth_other {A B} (g : A -> B) (n : nat) (l : list A) (x y : A) :
  NoDup (map g l) -> nth_error l n = Some x -> In y (remove_nth n l) -> g y <> g x.
Proof.
  revert n. induction l as [|z l IH]; intros [|n] ND E H; simpl in *; try discriminate.
  - injection E as ->. inversion ND as [|? ? Hn _]; subst. intros Eq. apply Hn.
    rewrite <- Eq. now apply in_map.
  - inversion ND as [|? ? Hn ND']; subst. destruct H as [->|H].
    + intros Eq. apply Hn. rewrite Eq. apply in_map. eapply nth_error_In; eauto.
    + eapply IH; eauto.
Qed.

Lemma In_flat_map_remove_nth {A B} (g : A -> list B) (n : nat) (l : list A) (x : B) :
  In x (flat_map g (remove_nth n l)) -> In x (flat_map g l).
Proof.
  rewrite !in_flat_map. intros (y & Hy & Hx). exists y. split; [|exact Hx].
  eapply In_remove_nth; eauto.
Qed.

Lemma NoDup_keys_delete {V} (k : string) (m : JsMap.t V) :
  NoDup (JsMap.keys m) -> NoDup (JsMap.keys (JsMap.delete k m)).
Proof.
  induction m as [|[k0 v0] m IH]; simpl; intros ND; [constructor|].
  inversion ND as [|? ? Hn ND']; subst. destruct (k =? k0); simpl; [exact ND'|].
  constructor; [|auto]. intros H. apply Hn. eapply JsMapFacts.In_keys_delete; eauto.
Qed.

Lemma In_keys {V} (k : string) (v : V) (m : JsMap.t V) : In (k, v) m -> In k (JsMap.keys m).
Proof. intros H. unfold JsMap.keys. apply in_map_iff. now exists (k, v). Qed.

Lemma In_decoding_ids w ext pv :
  In (ext, pv) (decoding w) -> In (ExtendedFile.file_id ext) (decoding_ids w).
Proof.
  intros H. unfold decoding_ids. apply in_map_iff. now exists (ext, pv).
Qed.

Lemma extends_no_regress m1 m2 : extends m1 m2 -> no_regress m1 m2.
Proof.
  intros E k f1 f2 G1 G2. apply E in G1. rewrite G1 in G2. injection G2 as <-.
  apply Qle_refl.
Qed.

Lemma selected_world_pipeline toolResource sel w :
  pipeline_invariant w ->
  ~ In (Selected.uuid sel) (ids_in_use w) ->
  pipeline_invariant (selected_world toolResource sel w)
  /\ extends (files w) (files (selected_world toolResource sel w)).
Proof.
  intros [K P D R N A] Fresh.
  unfold ids_in_use in Fresh. rewrite !in_app_iff in Fresh.
  assert (F1 : ~ In (Selected.uuid sel) (JsMap.keys (files w))) by tauto.
  assert (F2 : ~ In (Selected.uuid sel) (decoding_ids w)) by tauto.
  assert (F3 : ~ In (Selected.uuid sel) (inflight_ids w)) by tauto.
  clear Fresh. split; [constructor|]; unfold selected_world; simpl.
  - now apply JsMapFacts.NoDup_keys_set.
  - intros k f H. apply JsMapFacts.In_set in H as [[-> ->]|H]; [|eauto].
    simpl. unfold Qle. simpl. lia.
  - intros ext pv H. destruct (decodes sel); [|eauto].
    apply in_app_or in H as [H|[H|[]]]; [eauto|]. injection H as <- <-. split; reflexivity.
  - intros ext pv f H Hf. destruct (decodes sel).
    + apply in_app_or in H as [H|[H|[]]].
      * apply JsMapFacts.In_set in Hf as [[E _]|Hf]; [|eauto].
        exfalso. apply F2. rewrite <- E. eapply In_decoding_ids; eauto.
      * injection H as <- <-. simpl in Hf.
        apply JsMapFacts.In_set in Hf as [[_ ->]|Hf]; [reflexivity|].
        exfalso. apply F1. eapply In_keys; eauto.
    + apply JsMapFacts.In_set in Hf as [[E _]|Hf]; [|eauto].
      exfalso. apply F2. rewrite <- E. eapply In_decoding_ids; eauto.
  - unfold decoding_ids. simpl. destruct (decodes sel); [|exact N].
    rewrite map_app. simpl. now apply NoDup_snoc.
  - unfold decoding_ids, inflight_ids. simpl. intros id H. destruct (decodes sel).
    + rewrite map_app in H. apply in_app_or in H as [H|[<-|[]]]; [now apply A | exact F3].
    + rewrite flat_map_app, in_app_iff. simpl. intros [H'|[<-|[]]].
      * now apply (A id).
      * now apply F2.
  - intros k f G. rewrite JsMapFacts.get_set_other; [exact G|].
    intros ->. apply F1. eapply JsMapFacts.get_Some_key; eauto.
Qed.

Lemma selection_pipeline toolResource fileList : forall w,
  pipeline_invariant w ->
  fresh_uuids (ids_in_use w) (map Selected.uuid fileList) = true ->
  let w' := fold_left (fun w sel => selected_world toolResource sel w) fileList w in
  pipeline_invariant w' /\ extends (files w) (files w').
Proof.
  induction fileList as [|sel l IH]; intros w Inv Fresh; simpl.
  - split; [exact Inv | intros k f G; exact G].
  - simpl in Fresh. apply fresh_uuids_cons in Fresh as (U & F & Fresh).
    destruct (selected_world_pipeline toolResource sel w Inv F) as [Inv1 E1].
    destruct (IH (selected_world toolResource sel w) Inv1) as [Inv2 E2].
    + apply (fresh_uuids_weaken (Selected.uuid sel :: ids_in_use w)); [|exact Fresh].
      intros x Hx. apply ids_in_use_selected in Hx as [->|Hx]; [now left | now right].
    + split; [exact Inv2|]. intros k f G. apply E2, E1, G.
Qed.

Lemma image_loaded_pipeline env n width height w :
  pipeline_invariant w ->
  enabled w (ImageLoaded n width height) = true ->
  pipeline_invariant (exec env (ImageLoaded n width height) w)
  /\ no_regress (files w) (files (exec env (ImageLoaded n width height) w)).
Proof.
  intros [K P D R N A] En. simpl in En. apply Nat.ltb_lt in En.
  destruct (nth_error (decoding w) n) as [[ext pv]|] eqn:E;
    [|apply nth_error_None in E; lia].
  rewrite (exec_ImageLoaded env n width height w ext pv E).
  pose proof (nth_error_In _ _ E) as Hin.
  assert (Other : forall e p, In (e, p) (remove_nth n (decoding w)) ->
                    ExtendedFile.file_id e <> ExtendedFile.file_id ext).
  { intros e p H.
    apply (remove_nth_other (fun d => ExtendedFile.file_id (fst d)) n (decoding w)
             (ext, pv) (e, p) N E H). }
  split; [constructor|]; simpl.
  - now apply JsMapFacts.NoDup_keys_set.
  - intros k f H. apply JsMapFacts.In_set in H as [[-> ->]|H]; [|eauto].
    simpl. unfold Qle. simpl. lia.
  - intros e p H. apply In_remove_nth in H. eauto.
  - intros e p f H Hf. apply JsMapFacts.In_set in Hf as [[Eq _]|Hf].
    + exfalso. eapply Other; eauto.
    + apply In_remove_nth in H. eauto.
  - unfold decoding_ids. simpl. now apply NoDup_map_remove_nth.
  - unfold decoding_ids, inflight_ids. simpl. intros id H.
    apply in_map_iff in H as ([e p] & <- & H). simpl.
    rewrite flat_map_app, in_app_iff. simpl. intros [H'|[H'|[]]].
    + apply (A (ExtendedFile.file_id e)); [|exact H'].
      apply In_remove_nth in H. eapply In_decoding_ids; eauto.
    + eapply Other; eauto.
  - intros k f1 f2 G1. rewrite JsMapFacts.get_set.
    destruct (k =? ExtendedFile.file_id ext) eqn:Ek.
    + apply String.eqb_eq in Ek. subst k. intros [= <-].
      apply JsMapFacts.get_In in G1. rewrite (R ext pv f1 Hin G1).
      destruct (D ext pv Hin) as [-> _]. simpl. unfold Qle. simpl. lia.
    + intros G2. rewrite G1 in G2. injection G2 as <-. apply Qle_refl.
Qed.

Lemma In_inflight_ids w n fd s :
  nth_error (inflight w) n = Some fd -> submitted_id fd = Some s -> In s (inflight_ids w).
Proof.
  intros E S. unfold inflight_ids. apply in_flat_map. exists fd.
  split; [eapply nth_error_In; eauto|]. rewrite S. now left.
Qed.

Lemma upload_succeeded_pipeline env n data w :
  pipeline_invariant w ->
  enabled w (UploadSucceeded n data) = true ->
  pipeline_invariant (exec env (UploadSucceeded n data) w)
  /\ no_regress (files w) (files (exec env (UploadSucceeded n data) w)).
Proof.
  intros [K P D R N A] En. simpl in En.
  destruct (nth_error (inflight w) n) as [fd|] eqn:E; [|discriminate].
  destruct (submitted_id fd) as [s|] eqn:S; [|discriminate].
  apply String.eqb_eq in En. subst s.
  pose proof (In_inflight_ids w n fd _ E S) as Hin.
  rewrite (exec_UploadSucceeded env n data w fd E).
  split; [constructor|]; simpl.
  - now rewrite onSuccess_updater_keys.
  - intros k f H. apply onSuccess_updater_In in H as [H|(f0 & _ & _ & ->)]; [eauto|].
    simpl. apply Qle_refl.
  - exact D.
  - intros e p f H Hf. apply onSuccess_updater_In in Hf as [Hf|(f0 & Hf & T & _)]; [eauto|].
    exfalso. rewrite (R e p f0 H Hf) in T. destruct (D e p H) as [_ T'].
    rewrite T' in T. injection T as T.
    apply (A (ExtendedFile.file_id e)); [eapply In_decoding_ids; eauto|].
    now rewrite T.
  - exact N.
  - intros id H H'. apply (A id H). unfold inflight_ids in *. simpl in H'.
    eapply In_flat_map_remove_nth; eauto.
  - intros k f1 f2 G1 G2.
    apply onSuccess_updater_get in G2 as [G2|(f0 & _ & _ & ->)].
    + rewrite G1 in G2. injection G2 as <-. apply Qle_refl.
    + simpl. apply (P k). now apply JsMapFacts.get_In.
Qed.

Lemma upload_failed_pipeline env n error w :
  pipeline_invariant w ->
  pipeline_invariant (exec env (UploadFailed n error) w)
  /\ extends (files w) (files (exec env (UploadFailed n error) w)).
Proof.
  intros [K P D R N A].
  destruct (exec_UploadFailed_frame env n error w) as (F & Dc & I).
  split; [constructor|].
  - now rewrite F.
  - rewrite F. exact P.
  - rewrite Dc. exact D.
  - rewrite Dc, F. exact R.
  - unfold decoding_ids. rewrite Dc. exact N.
  - unfold decoding_ids, inflight_ids. rewrite Dc, I. intros id H H'.
    apply (A id H). eapply In_flat_map_remove_nth; eauto.
  - rewrite F. intros k f G. exact G.
Qed.

Lemma file_removed_pipeline env fileId w :
  pipeline_invariant w ->
  pipeline_invariant (exec env (FileRemoved fileId) w)
  /\ no_regress (files w) (files (exec env (FileRemoved fileId) w)).
Proof.
  intros [K P D R N A]. destruct (exec_FileRemoved env fileId w) as (F & Dc & I).
  split; [constructor|].
  - rewrite F. now apply NoDup_keys_delete.
  - rewrite F. intros k f H. apply JsMapFacts.In_delete in H. eauto.
  - rewrite Dc. exact D.
  - rewrite Dc, F. intros e p f H Hf. apply JsMapFacts.In_delete in Hf. eauto.
  - unfold decoding_ids. rewrite Dc. exact N.
  - unfold decoding_ids, inflight_ids. rewrite Dc, I. exact A.
  - rewrite F. intros k f1 f2 G1 G2. destruct (String.eqb_spec k fileId) as [->|Ne].
    + rewrite JsMapFacts.get_delete_same in G2 by exact K. discriminate.
    + rewrite JsMapFacts.get_delete_other in G2 by exact Ne.
      rewrite G1 in G2. injection G2 as <-. apply Qle_refl.
Qed.

Lemma upload_aborted_pipeline env w :
  pipeline_invariant w ->
  pipeline_invariant (exec env UploadAborted w)
  /\ extends (files w) (files (exec env UploadAborted w)).
Proof.
  intros [K P D R N A]. destruct (exec_UploadAborted env w) as (F & Dc & I).
  split; [constructor|].
  - now rewrite F.
  - rewrite F. exact P.
  - rewrite Dc. exact D.
  - rewrite Dc, F. exact R.
  - unfold decoding_ids. rewrite Dc. exact N.
  - unfold decoding_ids, inflight_ids. rewrite Dc, I. exact A.
  - rewrite F. intros k f G. exact G.
Qed.

Lemma In_pairs_resource_ids (tr : AgentToolResources) c k :
  In (c, k) (pairs_of (JsObject.entries tr)) -> In k (resource_ids tr).
Proof.
  intros H. apply In_pairs_of in H as (ids & Hin & Hk).
  apply (proj1 (JsObjectFacts.In_entries _ _)) in Hin.
  unfold resource_ids. apply in_flat_map. exists (c, Some (Resource.mk (Some ids))).
  split; [exact Hin | exact Hk].
Qed.

Lemma restored_pipeline env toolResources w :
  pipeline_invariant w ->
  guarded w (ToolResourcesLoaded toolResources) = true ->
  pipeline_invariant (exec env (ToolResourcesLoaded toolResources) w)
  /\ no_regress (files w) (files (exec env (ToolResourcesLoaded toolResources) w)).
Proof.
  intros [K P D R N A] Gd.
  destruct (exec_ToolResourcesLoaded env toolResources w) as (Dc & I & F).
  destruct toolResources as [tr|].
  - destruct F as (K' & H1 & H2). simpl in Gd.
    assert (Keep : forall k f, In (k, f) (files (exec env (ToolResourcesLoaded (Some tr)) w)) ->
              In k (resource_ids tr) /\ ExtendedFile.progress f = 1%Q).
    { intros k f H. apply (JsMapFacts.In_get _ _ _ K') in H.
      destruct (H1 k f H) as (c & Hc & L).
      apply loaded_facts in L as (_ & Pr & _).
      split; [eapply In_pairs_resource_ids; eauto | exact Pr]. }
    split; [constructor|].
    + exact K'.
    + intros k f H. destruct (Keep k f H) as [_ ->]. apply Qle_refl.
    + rewrite Dc. exact D.
    + rewrite Dc. intros e p f H Hf. exfalso.
      destruct (Keep _ _ Hf) as [Hk _].
      rewrite forallb_forall in Gd.
      specialize (Gd _ (In_decoding_ids w e p H)).
      apply negb_true_iff, array_includes_not_In in Gd. contradiction.
    + unfold decoding_ids. rewrite Dc. exact N.
    + unfold decoding_ids, inflight_ids. rewrite Dc, I. exact A.
    + intros k f1 f2 G1 G2. apply JsMapFacts.get_In in G2.
      destruct (Keep k f2 G2) as [_ ->]. apply (P k). now apply JsMapFacts.get_In.
  - split; [constructor|]; try rewrite F; try rewrite Dc.
    + constructor.
    + intros k f [].
    + exact D.
    + intros e p f _ [].
    + unfold decoding_ids. rewrite Dc. exact N.
    + unfold decoding_ids, inflight_ids. rewrite Dc, I. exact A.
    + intros k f1 f2 _ G2. discriminate G2.
Qed.

(** One event of a guarded pipeline keeps the invariant and lowers no
    progress. *)
Lemma step_pipeline env e w :
  pipeline_invariant w -> enabled w e = true -> guarded w e = true ->
  pipeline_invariant (exec env e w) /\ no_regress (files w) (files (exec env e w)).
Proof.
  intros Inv En Gd. destruct e as [[l|] tr|n wd ht|n data|n error|fileId|tr|].
  - rewrite exec_FilesSelected. simpl in En.
    assert (InvL : pipeline_invariant (loading w)) by (destruct Inv; constructor; assumption).
    destruct (selection_pipeline tr l (loading w) InvL En) as [I E].
    split; [exact I | now apply extends_no_regress].
  - split; [exact Inv | apply extends_no_regress; intros k f G; exact G].
  - now apply image_loaded_pipeline.
  - now apply upload_succeeded_pipeline.
  - destruct (upload_failed_pipeline env n error w Inv) as [I E].
    split; [exact I | now apply extends_no_regress].
  - now apply file_removed_pipeline.
  - now apply restored_pipeline.
  - destruct (upload_aborted_pipeline env w Inv) as [I E].
    split; [exact I | now apply extends_no_regress].
Qed.

Lemma initial_pipeline (fs : JsMap.t ExtendedFile.t) :
  NoDup (JsMap.keys fs) ->
  (forall k f, In (k, f) fs -> (ExtendedFile.progress f <= 1)%Q) ->
  pipeline_invariant (initial_world fs).
Proof.
  intros K P. constructor; simpl; auto.
  - intros ext pv [].
  - intros ext pv f [].
  - constructor.
Qed.

Lemma run_pipeline env events : forall w,
  pipeline_invariant w ->
  admissible_with guarded env w events = true ->
  pipeline_invariant (run env w events).
Proof.
  induction events as [|e es IH]; intros w Inv Ad; simpl; [exact Inv|].
  simpl in Ad. apply andb_true_iff in Ad as [Ad Ad']. apply andb_true_iff in Ad as [En Gd].
  apply IH; [|exact Ad']. now apply step_pipeline.
Qed.

Lemma admissible_with_app side env events1 events2 : forall w,
  admissible_with side env w (events1 ++ events2) = true ->
  admissible_with side env w events1 = true
  /\ admissible_with side env (run env w events1) events2 = true.
Proof.
  induction events1 as [|e es IH]; intros w H; simpl in *; [auto|].
  apply andb_true_iff in H as [H1 H2]. destruct (IH _ H2) as [H3 H4].
  rewrite H1, H3. auto.
Qed.

(** C8, as amended. The registry starts as a [Map] (its keys are distinct)
    with progress values that do not exceed 1, and no restoration is given
    the identifier of an image that is still being decoded. Then, along
    every sequence of registrations,
    dimension extractions, upload completions and failures, removals,
    restorations and aborts that can happen, each event leaves every record
    that stays in the registry with a progress at least as large as before. *)
Theorem progress_never_decreases_when_guarded (env : Env) (fs : JsMap.t ExtendedFile.t)
    (events : list Event) (e : Event) :
  NoDup (JsMap.keys fs) ->
  (forall k f, In (k, f) fs -> (ExtendedFile.progress f <= 1)%Q) ->
  admissible_with guarded env (initial_world fs) (events ++ [e]) = true ->
  no_regress (files (run env (initial_world fs) events))
             (files (exec env e (run env (initial_world fs) events))).
Proof.
  intros K P Ad. apply admissible_with_app in Ad as [Ad1 Ad2].
  simpl in Ad2. apply andb_true_iff in Ad2 as [Ad2 _].
  apply andb_true_iff in Ad2 as [En Gd].
  apply step_pipeline; auto. apply run_pipeline; [|exact Ad1].
  now apply initial_pipeline.
Qed.

Lemma progress_never_decreases_when_guarded_witness :
  let env := listing_env [] in
  let ack := UploadSucceeded 0 (TFileUpload.mk "u1" "srv-1" "/uploads/cat.png") in
  admissible_with guarded env (initial_world []) (image_submitted ++ [ack]) = true
  /\ no_regress (files (run env (initial_world []) image_submitted))
                (files (exec env ack (run env (initial_world []) image_submitted))).
Proof.
  intros env ack. split; [reflexivity|].
  apply (progress_never_decreases_when_guarded env [] image_submitted ack).
  - constructor.
  - intros k f [].
  - reflexivity.
Defined.

(** C8, as stated, fails when a restoration names the provisional identifier
    of an image that is still being decoded: the restored record has
    progress 1, and the image's [onload] then writes its own record, with
    progress 0.6, over it. *)
Lemma progress_decreases_after_restoration :
  ~ progress_never_decreases (listing_env []) [] restored_while_decoding
      (ImageLoaded 0 640 480).
Proof.
  intros H. specialize (H eq_refl).
  specialize (H "u1" _ _ eq_refl eq_refl). simpl in H.
  unfold Qle in H. simpl in H. lia.
Qed.

(** ** Identifiers *)

Lemma selected_world_identified toolResource sel w :
  identifiers_set w -> Selected.uuid sel <> "" ->
  identifiers_set (selected_world toolResource sel w).
Proof.
  intros [F D] U. split; unfold selected_world; simpl.
  - intros k f H. apply JsMapFacts.In_set in H as [[_ ->]|H]; [exact U | eauto].
  - intros ext pv H. destruct (decodes sel); [|eauto].
    apply in_app_or in H as [H|[H|[]]]; [eauto|]. injection H as <- <-. exact U.
Qed.

Lemma selection_identified toolResource fileList : forall w used,
  identifiers_set w ->
  fresh_uuids used (map Selected.uuid fileList) = true ->
  identifiers_set (fold_left (fun w sel => selected_world toolResource sel w) fileList w).
Proof.
  induction fileList as [|sel l IH]; intros w used J Fresh; simpl; [exact J|].
  simpl in Fresh. apply fresh_uuids_cons in Fresh as (U & _ & Fresh).
  apply (IH _ (Selected.uuid sel :: used)); [|exact Fresh].
  now apply selected_world_identified.
Qed.

Lemma step_identified env e w :
  identifiers_set w -> enabled w e = true -> identified env w e = true ->
  identifiers_set (exec env e w).
Proof.
  intros [F D] En Id. destruct e as [[l|] tr|n wd ht|n data|n error|fileId|tr|].
  - rewrite exec_FilesSelected. simpl in En.
    apply (selection_identified tr l (loading w) (ids_in_use w)); [|exact En].
    split; assumption.
  - split; assumption.
  - simpl in En. apply Nat.ltb_lt in En.
    destruct (nth_error (decoding w) n) as [[ext pv]|] eqn:E;
      [|apply nth_error_None in E; lia].
    rewrite (exec_ImageLoaded env n wd ht w ext pv E). split; simpl.
    + intros k f H. apply JsMapFacts.In_set in H as [[_ ->]|H]; [|eauto].
      simpl. apply (D ext pv). eapply nth_error_In; eauto.
    + intros e p H. apply In_remove_nth in H. eauto.
  - simpl in En. destruct (nth_error (inflight w) n) as [fd|] eqn:E; [|discriminate].
    rewrite (exec_UploadSucceeded env n data w fd E). simpl in Id.
    apply truthy_true in Id. split; simpl; [|exact D].
    intros k f H. apply onSuccess_updater_In in H as [H|(f0 & _ & _ & ->)]; [eauto|].
    exact Id.
  - destruct (exec_UploadFailed_frame env n error w) as (Fl & Dc & _).
    split; [rewrite Fl; exact F | rewrite Dc; exact D].
  - destruct (exec_FileRemoved env fileId w) as (Fl & Dc & _). split.
    + rewrite Fl. intros k f H. apply JsMapFacts.In_delete in H. eauto.
    + rewrite Dc. exact D.
  - destruct (exec_ToolResourcesLoaded env tr w) as (Dc & _ & Fl).
    split; [|rewrite Dc; exact D]. destruct tr as [tr|].
    + destruct Fl as (K' & H1 & _). simpl in Id. rewrite forallb_forall in Id.
      intros k f H. apply (JsMapFacts.In_get _ _ _ K') in H.
      destruct (H1 k f H) as (c & Hc & L).
      apply In_pairs_resource_ids in Hc. apply Id in Hc.
      apply andb_true_iff in Hc as [T R]. unfold readable in R.
      apply loaded_facts in L as (_ & _ & _ & L & _).
      destruct L as (_ & _ & ->); [intros Fo; rewrite Fo in R; discriminate R|].
      now apply truthy_true.
    + rewrite Fl. intros k f [].
  - destruct (exec_UploadAborted env w) as (Fl & Dc & _).
    split; [rewrite Fl; exact F | rewrite Dc; exact D].
Qed.

Lemma run_identified env events : forall w,
  identifiers_set w ->
  admissible_with (identified env) env w events = true ->
  identifiers_set (run env w events).
Proof.
  induction events as [|e es IH]; intros w J Ad; simpl; [exact J|].
  simpl in Ad. apply andb_true_iff in Ad as [Ad Ad']. apply andb_true_iff in Ad as [En Id].
  apply IH; [|exact Ad']. now apply step_identified.
Qed.

(** * More of the hook *)

(** ** The projection in closed form *)






(** ** The statistics *)

Lemma fileStats_tally (fs : list ExtendedFile.t) :
  fileStats fs = fold_left tally fs (Stats.mk (length fs) 0 0 0).
Proof. reflexivity. Qed.

Lemma tally_fold (fs : list ExtendedFile.t) : forall stats,
  Stats.total (fold_left tally fs stats) = Stats.total stats
  /\ Stats.images (fold_left tally fs stats)
     = (Stats.images stats + length (filter counts_as_image fs))%nat
  /\ Stats.documents (fold_left tally fs stats)
     = (Stats.documents stats + length (filter counts_as_document fs))%nat
  /\ Stats.uploading (fold_left tally fs stats)
     = (Stats.uploading stats + length (filter counts_as_uploading fs))%nat.
Proof.
  induction fs as [|f fs IH]; intros stats; [simpl; repeat split; lia|].
  cbn [fold_left filter]. destruct (IH (tally stats f)) as (T & I & D & U).
  rewrite T, I, D, U. clear.
  assert (I : counts_as_image f
              = negb (counts_as_uploading f)
                && opt_startsWith "image/" (ExtendedFile.type f)) by reflexivity.
  assert (D : counts_as_document f
              = negb (counts_as_uploading f)
                && negb (opt_startsWith "image/" (ExtendedFile.type f))) by reflexivity.
  rewrite I, D. unfold tally. fold (counts_as_uploading f).
  destruct (counts_as_uploading f), (opt_startsWith "image/" (ExtendedFile.type f));
    simpl; repeat split; lia.
Qed.

Lemma buckets_partition (fs : list ExtendedFile.t) :
  (length (filter counts_as_image fs) + length (filter counts_as_document fs)
   + length (filter counts_as_uploading fs) = length fs)%nat.
Proof.
  induction fs as [|f fs IH]; simpl; [reflexivity|].
  assert (I : counts_as_image f
              = negb (counts_as_uploading f)
                && opt_startsWith "image/" (ExtendedFile.type f)) by reflexivity.
  assert (D : counts_as_document f
              = negb (counts_as_uploading f)
                && negb (opt_startsWith "image/" (ExtendedFile.type f))) by reflexivity.
  rewrite I, D.
  destruct (counts_as_uploading f), (opt_startsWith "image/" (ExtendedFile.type f));
    simpl; lia.
Qed.

(** X2. The statistics partition the registry: [total] is the number of
    records; a record with progress below 1 counts as uploading whatever its
    type, any other record counts as an image when its type is an image type
    and as a document otherwise; so the three buckets add up to [total]. *)
Theorem fileStats_partitions (promptFiles : list ExtendedFile.t) :
  Stats.total (fileStats promptFiles) = length promptFiles
  /\ Stats.uploading (fileStats promptFiles)
     = length (filter counts_as_uploading promptFiles)
  /\ Stats.images (fileStats promptFiles) = length (filter counts_as_image promptFiles)
  /\ Stats.documents (fileStats promptFiles)
     = length (filter counts_as_document promptFiles)
  /\ (Stats.images (fileStats promptFiles) + Stats.documents (fileStats promptFiles)
      + Stats.uploading (fileStats promptFiles)
      = Stats.total (fileStats promptFiles))%nat.
Proof.
  rewrite fileStats_tally.
  destruct (tally_fold promptFiles (Stats.mk (length promptFiles) 0 0 0))
    as (T & I & D & U).
  rewrite T, I, D, U. simpl.
  pose proof (buckets_partition promptFiles). repeat split; lia.
Qed.

(** X3. In every registry state, ready files leave nothing uploading: when
    [areFilesReady] holds, every record has its [file_id], no record counts
    as uploading, and images and documents together are all the records. *)
Theorem areFilesReady_leaves_nothing_uploading (promptFiles : list ExtendedFile.t) :
  areFilesReady promptFiles = true ->
  (forall file, In file promptFiles -> ExtendedFile.file_id file <> "")
  /\ Stats.uploading (fileStats promptFiles) = 0%nat
  /\ (Stats.images (fileStats promptFiles) + Stats.documents (fileStats promptFiles)
      = length promptFiles)%nat.
Proof.
  intros Ready0. pose proof (proj1 (areFilesReady_iff promptFiles) Ready0) as Ready.
  assert (U : Stats.uploading (fileStats promptFiles) = 0%nat).
  { apply no_upload_iff. intros f Hf. destruct (Ready f Hf) as [_ E].
    rewrite E. apply Qle_refl. }
  split; [intros f Hf; now destruct (Ready f Hf)|]. split; [exact U|].
  rewrite fileStats_tally in *.
  destruct (tally_fold promptFiles (Stats.mk (length promptFiles) 0 0 0))
    as (T & I & D & U').
  rewrite U in U'. simpl in *.
  pose proof (buckets_partition promptFiles). rewrite I, D. lia.
Qed.

Lemma areFilesReady_leaves_nothing_uploading_witness :
  let promptFiles :=
    [ sample_record "a" (Some "image/png") 1 None;
      sample_record "b" (Some "text/plain") 1 (Some "file_search") ] in
  Stats.uploading (fileStats promptFiles) = 0%nat
  /\ (Stats.images (fileStats promptFiles) + Stats.documents (fileStats promptFiles)
      = length promptFiles)%nat.
Proof.
  intros promptFiles.
  destruct (areFilesReady_leaves_nothing_uploading promptFiles) as (_ & U & S);
    [reflexivity|].
  split; [exact U | exact S].
Defined.

(** ** Progress stays within its range *)

Lemma selected_world_bounded toolResource sel w :
  bounded (files w) -> bounded (files (selected_world toolResource sel w)).
Proof.
  intros B k f H. unfold selected_world in H. simpl in H.
  apply JsMapFacts.In_set in H as [[_ ->]|H]; [|eauto].
  simpl. unfold Qle. simpl. lia.
Qed.

Lemma selection_bounded toolResource fileList : forall w,
  bounded (files w) ->
  bounded (files (fold_left (fun w sel => selected_world toolResource sel w) fileList w)).
Proof.
  induction fileList as [|sel l IH]; intros w B; simpl; [exact B|].
  apply IH. now apply selected_world_bounded.
Qed.

(** Whatever happens, enabled or not, progress stays at most 1. *)
Lemma exec_bounded env e w : bounded (files w) -> bounded (files (exec env e w)).
Proof.
  intros B. destruct e as [[l|] tr|n wd ht|n data|n error|fileId|tr|].
  - rewrite exec_FilesSelected. now apply selection_bounded.
  - exact B.
  - destruct (nth_error (decoding w) n) as [[ext pv]|] eqn:E.
    + rewrite (exec_ImageLoaded env n wd ht w ext pv E). simpl. intros k f H.
      apply JsMapFacts.In_set in H as [[_ ->]|H]; [|eauto].
      simpl. unfold Qle. simpl. lia.
    + unfold exec. simpl. rewrite bind_run. simpl. rewrite E. exact B.
  - destruct (nth_error (inflight w) n) as [fd|] eqn:E.
    + rewrite (exec_UploadSucceeded env n data w fd E). simpl. intros k f H.
      apply onSuccess_updater_In in H as [H|(f0 & _ & _ & ->)]; [eauto|].
      simpl. apply Qle_refl.
    + unfold exec. simpl. rewrite bind_run. simpl. rewrite E. exact B.
  - destruct (exec_UploadFailed_frame env n error w) as (F & _). now rewrite F.
  - destruct (exec_FileRemoved env fileId w) as (F & _). rewrite F.
    intros k f H. apply JsMapFacts.In_delete in H. eauto.
  - destruct (exec_ToolResourcesLoaded env tr w) as (_ & _ & F). destruct tr as [tr|].
    + destruct F as (K' & H1 & _). intros k f H.
      apply (JsMapFacts.In_get _ _ _ K') in H.
      destruct (H1 k f H) as (c & _ & L).
      apply loaded_facts in L as (_ & -> & _). apply Qle_refl.
    + rewrite F. intros k f [].
  - destruct (exec_UploadAborted env w) as (F & _). now rewrite F.
Qed.

(** X4. A registry that starts with progress values at most 1 keeps them at
    most 1 whatever happens to the hook, so in every state it then reaches
    the readiness predicate agrees with the statistics: the files are ready
    if and only if none counts as uploading and every record has its
    [file_id]. *)
Theorem readiness_agrees_in_every_reached_state (env : Env)
    (fs : JsMap.t ExtendedFile.t) (events : list Event) :
  bounded fs ->
  bounded (files (run env (initial_world fs) events))
  /\ readiness_agrees_with_stats (promptFiles (files (run env (initial_world fs) events))).
Proof.
  intros B.
  assert (B' : bounded (files (run env (initial_world fs) events))).
  { apply (run_invariant (fun w => bounded (files w))); [|exact B].
    intros e w. apply exec_bounded. }
  split; [exact B'|]. unfold readiness_agrees_with_stats.
  rewrite areFilesReady_iff, no_upload_iff. split.
  - intros H. split; intros f Hf; destruct (H f Hf) as [H1 H2]; [|exact H1].
    rewrite H2. apply Qle_refl.
  - intros [H1 H2] f Hf. split; [now apply H2|].
    apply Qle_antisym; [|now apply H1].
    apply In_promptFiles in Hf as [k Hf]. eapply B'; eauto.
Qed.

Lemma readiness_agrees_in_every_reached_state_witness :
  readiness_agrees_with_stats
    (promptFiles (files (run (listing_env []) (initial_world []) image_submitted))).
Proof.
  apply (readiness_agrees_in_every_reached_state (listing_env []) [] image_submitted).
  intros k f [].
Defined.

(** ** Acknowledgments repeat and commute *)

Lemma set_head_fresh {V} (k k0 : string) (v v0 : V) (m : JsMap.t V) :
  k <> k0 -> JsMap.set k v ((k0, v0) :: m) = (k0, v0) :: JsMap.set k v m.
Proof.
  intros N. simpl. apply String.eqb_neq in N. now rewrite N.
Qed.

Lemma onSuccess_updater_merge_first data m :
  NoDup (JsMap.keys m) -> onSuccess_updater data m = merge_first data m.
Proof.
  unfold onSuccess_updater. rewrite onSuccess_loop_find.
  induction m as [|[k f] m IH]; intros ND; [reflexivity|].
  inversion ND as [|? ? Hn ND']; subst. specialize (IH ND').
  cbn [find merge_first snd].
  destruct (strict_eq (ExtendedFile.temp_file_id f) (TFileUpload.temp_file_id data)) eqn:E.
  - simpl. now rewrite String.eqb_refl.
  - destruct (find (fun entry => strict_eq (ExtendedFile.temp_file_id (snd entry))
                                           (TFileUpload.temp_file_id data)) m)
      as [[key file]|] eqn:F.
    + apply find_some in F as [Hin _].
      rewrite set_head_fresh; [now rewrite IH|].
      intros ->. apply Hn. eapply In_keys; eauto.
    + now rewrite <- IH.
Qed.

Lemma keys_merge_first data m : JsMap.keys (merge_first data m) = JsMap.keys m.
Proof.
  induction m as [|[k f] m IH]; simpl; [reflexivity|].
  destruct (strict_eq _ _); simpl; [reflexivity | now rewrite IH].
Qed.

Lemma uploaded_twice file data : uploaded (uploaded file data) data = uploaded file data.
Proof.
  unfold uploaded. simpl. f_equal.
  destruct (truthy_opt (ExtendedFile.preview file)) eqn:T; [now rewrite T|].
  destruct (opt_startsWith "image/" (ExtendedFile.type file)); [|reflexivity].
  now destruct (truthy_opt (Some (TFileUpload.filepath data))).
Qed.

Lemma merge_first_twice data m : merge_first data (merge_first data m) = merge_first data m.
Proof.
  induction m as [|[k f] m IH]; simpl; [reflexivity|].
  destruct (strict_eq (ExtendedFile.temp_file_id f) (TFileUpload.temp_file_id data)) eqn:E;
    simpl; rewrite E; [now rewrite uploaded_twice | now rewrite IH].
Qed.

Lemma merge_first_commute d1 d2 m :
  TFileUpload.temp_file_id d1 <> TFileUpload.temp_file_id d2 ->
  merge_first d1 (merge_first d2 m) = merge_first d2 (merge_first d1 m).
Proof.
  intros N. induction m as [|[k f] m IH]; simpl; [reflexivity|].
  destruct (strict_eq (ExtendedFile.temp_file_id f) (TFileUpload.temp_file_id d1)) eqn:E1,
           (strict_eq (ExtendedFile.temp_file_id f) (TFileUpload.temp_file_id d2)) eqn:E2;
    simpl; rewrite ?E1, ?E2; try reflexivity.
  - apply strict_eq_true in E1, E2. congruence.
  - now rewrite IH.
Qed.

(** X5. A repeated acknowledgment is harmless: on a registry that is a [Map]
    (its keys are distinct), handling the same acknowledgment a second time
    leaves the registry as the first handling left it. *)
Theorem onSuccess_twice (data : TFileUpload.t) (w : World) :
  NoDup (JsMap.keys (files w)) ->
  files (world (onSuccess data (world (onSuccess data w))))
  = files (world (onSuccess data w)).
Proof.
  intros ND. rewrite !onSuccess_files.
  rewrite (onSuccess_updater_merge_first data (files w) ND).
  rewrite onSuccess_updater_merge_first by (now rewrite keys_merge_first).
  apply merge_first_twice.
Qed.

Lemma onSuccess_twice_witness :
  let w := run (listing_env []) (initial_world []) image_submitted in
  let data := TFileUpload.mk "u1" "srv-1" "/uploads/cat.png" in
  files (world (onSuccess data (world (onSuccess data w))))
  = files (world (onSuccess data w)).
Proof.
  intros w data. apply onSuccess_twice.
  repeat constructor. intros [].
Defined.

(** X6. Acknowledgments of different uploads commute: on a registry that is
    a [Map], two acknowledgments with different provisional identifiers
    leave the same registry in either order, so a completion that overtakes
    another changes neither record's outcome. *)
Theorem onSuccess_commutes (data1 data2 : TFileUpload.t) (w : World) :
  NoDup (JsMap.keys (files w)) ->
  TFileUpload.temp_file_id data1 <> TFileUpload.temp_file_id data2 ->
  files (world (onSuccess data1 (world (onSuccess data2 w))))
  = files (world (onSuccess data2 (world (onSuccess data1 w)))).
Proof.
  intros ND N. rewrite !onSuccess_files.
  rewrite (onSuccess_updater_merge_first data2 (files w) ND).
  rewrite (onSuccess_updater_merge_first data1 (files w) ND).
  rewrite !onSuccess_updater_merge_first by (now rewrite keys_merge_first).
  now apply merge_first_commute.
Qed.

Lemma onSuccess_commutes_witness :
  let selection :=
    FilesSelected
      (Some [ Selected.mk (File.mk "a.txt" "text/plain" 10) "u1" "";
              Selected.mk (File.mk "b.txt" "text/plain" 20) "u2" "" ]) None in
  let w := run (listing_env []) (initial_world []) [selection] in
  let data1 := TFileUpload.mk "u1" "srv-1" "/uploads/a.txt" in
  let data2 := TFileUpload.mk "u2" "srv-2" "/uploads/b.txt" in
  files (world (onSuccess data1 (world (onSuccess data2 w))))
  = files (world (onSuccess data2 (world (onSuccess data1 w))))
  /\ map (fun e => (fst e, ExtendedFile.file_id (snd e)))
         (files (world (onSuccess data1 (world (onSuccess data2 w)))))
     = [("u1", "srv-1"); ("u2", "srv-2")].
Proof.
  intros selection w data1 data2. split; [|reflexivity].
  apply onSuccess_commutes; [|discriminate].
  repeat constructor; simpl; intuition discriminate.
Defined.

(** ** What the fetcher sends and logs *)

Lemma createAuthenticatedBlobUrl_without_credentials env fileId w :
  (forall u tok, ~ credentials env u tok) ->
  createAuthenticatedBlobUrl env fileId w = (Returned None, w, []).
Proof.
  intros N. unfold createAuthenticatedBlobUrl.
  destruct (user env) as [u|] eqn:Hu; [|reflexivity].
  destruct (token env) as [tok|] eqn:Ht; [|reflexivity].
  destruct (truthy (User.id u)) eqn:Tu; [|reflexivity].
  destruct (truthy tok) eqn:Tt; [|reflexivity].
  exfalso. apply (N u tok). apply truthy_true in Tu, Tt. repeat split; assumption.
Qed.

Lemma createAuthenticatedBlobUrl_with_credentials env fileId w u tok :
  credentials env u tok ->
  exists logged,
    trace (createAuthenticatedBlobUrl env fileId w)
    = fetched (download_request u tok fileId) :: logged
    /\ match outcome (createAuthenticatedBlobUrl env fileId w) with
       | Returned (Some _) => logged = []
       | Returned None => exists label, logged = [console_error label]
       | Thrown _ => False
       end.
Proof.
  intros (Hu & Tu & Ht & Tt). apply truthy_true in Tu, Tt.
  unfold createAuthenticatedBlobUrl. rewrite Hu, Ht, Tu, Tt. simpl.
  unfold try_catch, do_fetch, tick, do_createObjectURL.
  rewrite !bind_run. simpl.
  destruct (fetch env (clock w) (download_request u tok fileId)) as [response|e] eqn:F;
    simpl.
  - destruct (Response.ok response) eqn:Ok; simpl.
    + rewrite !bind_run. simpl.
      destruct (Response.blob response) as [blob|e] eqn:B; simpl.
      * rewrite !bind_run. simpl.
        destruct (createObjectURL env (S (clock w)) blob) as [url'|e] eqn:C; simpl.
        -- exists []. split; reflexivity.
        -- eexists. split; [reflexivity|]. unfold outcome. simpl. eauto.
      * eexists. split; [reflexivity|]. unfold outcome. simpl. eauto.
    + eexists. split; [reflexivity|]. unfold outcome. simpl. eauto.
  - eexists. split; [reflexivity|]. unfold outcome. simpl. eauto.
Qed.

(** X7. What the fetcher sends and logs. Without a user identity and a
    credential it sends nothing, logs nothing and leaves the world as it is.
    With them it sends exactly one request, the download request of the file
    with the bearer credential, and nothing else leaves the hook except one
    error log, which is written exactly when the result is absent. *)
Theorem createAuthenticatedBlobUrl_sends_one_request (env : Env) (fileId : string)
    (w : World) :
  ((forall u tok, ~ credentials env u tok) ->
     trace (createAuthenticatedBlobUrl env fileId w) = []
     /\ world (createAuthenticatedBlobUrl env fileId w) = w)
  /\ (forall u tok, credentials env u tok ->
        exists logged,
          trace (createAuthenticatedBlobUrl env fileId w)
          = fetched (download_request u tok fileId) :: logged
          /\ (forall url,
                outcome (createAuthenticatedBlobUrl env fileId w) = Returned (Some url) ->
                logged = [])
          /\ (outcome (createAuthenticatedBlobUrl env fileId w) = Returned None ->
              exists label, logged = [console_error label])).
Proof.
  split.
  - intros N. now rewrite (createAuthenticatedBlobUrl_without_credentials env fileId w N).
  - intros u tok C.
    destruct (createAuthenticatedBlobUrl_with_credentials env fileId w u tok C)
      as (logged & T & O).
    exists logged. split; [exact T|]. split.
    + intros url E. now rewrite E in O.
    + intros E. now rewrite E in O.
Qed.

Lemma createAuthenticatedBlobUrl_sends_one_request_witness :
  let env := session_env (Returned (Response.mk 404 "Not Found" (Returned "bytes"))) in
  exists logged,
    trace (createAuthenticatedBlobUrl env "abc" (initial_world []))
    = fetched (Request.mk "/api/files/download/user-1/abc" "Bearer secret") :: logged
    /\ exists label, logged = [console_error label].
Proof.
  intros env.
  destruct (createAuthenticatedBlobUrl_sends_one_request env "abc" (initial_world []))
    as [_ H].
  destruct (H (User.mk "user-1") "secret") as (logged & T & _ & L).
  { repeat split; discriminate. }
  exists logged. split; [exact T | apply L; reflexivity].
Defined.

(** ** Restoration: the registry it leaves *)

Lemma In_resource_ids_pairs (tr : AgentToolResources) k :
  In k (resource_ids tr) -> exists c, In (c, k) (pairs_of (JsObject.entries tr)).
Proof.
  unfold resource_ids. rewrite in_flat_map. intros ([c r] & Hin & Hk). simpl in Hk.
  destruct r as [[[ids|]]|]; try contradiction.
  exists c. apply In_pairs_of. exists ids. split; [|exact Hk].
  now apply JsObjectFacts.In_entries.
Qed.

Lemma areFilesReady_restored (registry : JsMap.t ExtendedFile.t) :
  (forall k f, In (k, f) registry ->
     ExtendedFile.file_id f <> "" /\ ExtendedFile.progress f = 1%Q) ->
  areFilesReady (promptFiles registry) = true.
Proof.
  intros H. apply areFilesReady_iff. intros f Hf. apply In_promptFiles in Hf as [k Hf].
  destruct (H k f Hf) as [I P]. split; [exact I|]. rewrite P. reflexivity.
Qed.

(** X8. Restoration resets the registry. Whatever the registry held, after
    [loadFromToolResources] it holds exactly one record for each identifier
    the map names, under that identifier as key; each record has progress 1,
    the persisted flag and a category the map names it under. The record
    carries the identifier as [file_id] and [temp_file_id], unless the lookup
    in the listing found a value that is no listed file: then it carries
    neither. So nothing counts as uploading, and the files are ready as soon
    as the map holds no empty identifier and none for which the lookup finds
    such a value. Restoring no map empties the registry. *)
Theorem loadFromToolResources_resets (env : Env) (toolResources : AgentToolResources)
    (w : World) :
  let registry := files (world (loadFromToolResources env (Some toolResources) w)) in
  NoDup (JsMap.keys registry)
  /\ (forall id, In id (JsMap.keys registry) <-> In id (resource_ids toolResources))
  /\ (forall id record, JsMap.get id registry = Some record ->
        ExtendedFile.progress record = 1%Q
        /\ ExtendedFile.attached record = Some true
        /\ (exists c file_ids,
              In (c, Some (Resource.mk (Some file_ids))) toolResources /\ In id file_ids
              /\ ExtendedFile.tool_resource record = Some c)
        /\ (fileMap_lookup env id <> Foreign ->
            ExtendedFile.raw_file_id record = Some id
            /\ ExtendedFile.temp_file_id record = Some id)
        /\ (fileMap_lookup env id = Foreign ->
            ExtendedFile.raw_file_id record = None
            /\ ExtendedFile.temp_file_id record = None))
  /\ Stats.uploading (fileStats (promptFiles registry)) = 0%nat
  /\ ((forall id, In id (resource_ids toolResources) ->
         id <> "" /\ fileMap_lookup env id <> Foreign) ->
      areFilesReady (promptFiles registry) = true)
  /\ files (world (loadFromToolResources env None w)) = JsMap.empty.
Proof.
  intros registry.
  destruct (loadFromToolResources_spec env toolResources w) as (w' & t & E & (K & H1 & H2)).
  assert (R : registry = files w') by (unfold registry; now rewrite E).
  rewrite R. clear R registry.
  assert (Keys : forall id, In id (JsMap.keys (files w')) <-> In id (resource_ids toolResources)).
  { intros id. split.
    - intros Hk. apply JsMapFacts.In_key_get in Hk as [record G].
      destruct (H1 id record G) as (c & Hc & _). eapply In_pairs_resource_ids; eauto.
    - intros Hr. apply In_resource_ids_pairs in Hr as [c Hc].
      destruct (H2 c id Hc) as [record G]. eapply JsMapFacts.get_Some_key; eauto. }
  split; [exact K|]. split; [exact Keys|]. split; [|split; [|split]].
  - intros id record G. destruct (H1 id record G) as (c & Hc & L).
    apply loaded_facts in L as (T & P & A & N & F & _).
    apply In_pairs_of in Hc as (ids & Hin & Hid).
    apply (proj1 (JsObjectFacts.In_entries _ _)) in Hin.
    split; [exact P|]. split; [exact A|]. split; [now exists c, ids|]. split.
    + intros NF. destruct (N NF) as (I1 & I2 & _). now split.
    + intros IsF. rewrite (F IsF). split; reflexivity.
  - apply no_upload_iff. intros f Hf. apply In_promptFiles in Hf as [k Hf].
    apply (JsMapFacts.In_get _ _ _ K) in Hf.
    destruct (H1 k f Hf) as (c & _ & L).
    apply loaded_facts in L as (_ & -> & _). apply Qle_refl.
  - intros Ne. apply areFilesReady_restored. intros k f Hf.
    pose proof (In_keys k f (files w') Hf) as Hk.
    apply (JsMapFacts.In_get _ _ _ K) in Hf.
    destruct (H1 k f Hf) as (c & _ & L).
    apply loaded_facts in L as (_ & P & _ & N & _).
    destruct (Ne k (proj1 (Keys k) Hk)) as [Nk NF].
    destruct (N NF) as (_ & _ & I). split; [|exact P]. now rewrite I.
  - reflexivity.
Qed.

(** X9. Restoration of a file the listing knows. For an identifier that the
    map names and the listing knows, the restored record is built from the
    listing's metadata (name, stored path, type, size, dimensions), with the
    source of vector storage under the search category and the listing's
    source, or the local one, otherwise. A file whose type is no image type
    gets no preview; an image gets a non-empty reference the fetcher returned
    and otherwise its stored path, which is what it gets in a session without
    credentials. *)
Theorem loadFromToolResources_uses_the_listing (env : Env)
    (toolResources : AgentToolResources) (w : World) (id : string) (dbFile : TFile.t) :
  In id (resource_ids toolResources) ->
  JsMap.get id (fileMap env) = Some dbFile ->
  exists c file_ids previewUrl,
    In (c, Some (Resource.mk (Some file_ids))) toolResources /\ In id file_ids
    /\ JsMap.get id (files (world (loadFromToolResources env (Some toolResources) w)))
       = Some (restored c dbFile previewUrl (restored_source c dbFile))
    /\ TFile.file_id dbFile = id
    /\ (opt_startsWith "image/" (TFile.type dbFile) = false -> previewUrl = None)
    /\ (opt_startsWith "image/" (TFile.type dbFile) = true ->
        previewUrl = Some (TFile.filepath dbFile)
        \/ exists url w0,
             url <> "" /\ previewUrl = Some url
             /\ outcome (createAuthenticatedBlobUrl env id w0) = Returned (Some url))
    /\ (opt_startsWith "image/" (TFile.type dbFile) = true ->
        (forall u tok, ~ credentials env u tok) ->
        previewUrl = Some (TFile.filepath dbFile)).
Proof.
  intros Hid G.
  destruct (loadFromToolResources_spec env toolResources w)
    as (w' & t & E & (K & H1 & H2)).
  rewrite E. unfold world. simpl.
  apply In_resource_ids_pairs in Hid as [c0 Hc0].
  destruct (H2 c0 id Hc0) as [record Gr].
  destruct (H1 id record Gr) as (c & Hc & Hl).
  unfold loaded in Hl. rewrite (fileMap_lookup_own env id dbFile G) in Hl.
  destruct Hl as (_ & pv & -> & Hn & Hi).
  apply In_pairs_of in Hc as (ids & Hin & Hk).
  apply (proj1 (JsObjectFacts.In_entries _ _)) in Hin.
  exists c, ids, pv. repeat split; auto.
  - exact (fileMap_key env id dbFile G).
  - intros Img N. destruct (Hi Img) as [H|(url & w0 & _ & _ & O)]; [exact H|].
    rewrite (createAuthenticatedBlobUrl_without_credentials env id w0 N) in O.
    discriminate O.
Qed.

Lemma loadFromToolResources_uses_the_listing_witness :
  let env := listing_env [sample_dbFile "a"] in
  let toolResources := [(EToolResources.ocr, Some (Resource.mk (Some ["a"])))] in
  exists c previewUrl,
    JsMap.get "a" (files (world (loadFromToolResources env (Some toolResources)
                                   (initial_world []))))
    = Some (restored c (sample_dbFile "a") previewUrl
                     (restored_source c (sample_dbFile "a")))
    /\ previewUrl = None.
Proof.
  intros env toolResources.
  destruct (loadFromToolResources_uses_the_listing env toolResources (initial_world [])
              "a" (sample_dbFile "a"))
    as (c & ids & pv & _ & _ & G & _ & N & _).
  - left. reflexivity.
  - reflexivity.
  - exists c, pv. split; [exact G | apply N; reflexivity].
Defined.

(** ** A selected file through to its acknowledgment *)

Lemma onSuccess_updater_unique data (m : JsMap.t ExtendedFile.t) key file :
  NoDup (JsMap.keys m) ->
  JsMap.get key m = Some file ->
  ExtendedFile.temp_file_id file = Some (TFileUpload.temp_file_id data) ->
  only_under (TFileUpload.temp_file_id data) key m ->
  onSuccess_updater data m = JsMap.set key (uploaded file data) m.
Proof.
  intros ND G T U. unfold onSuccess_updater. rewrite onSuccess_loop_find.
  match goal with |- context [find ?p m] => destruct (find p m) as [[k0 f0]|] eqn:F end.
  - apply find_some in F as [Hin Hm]. simpl in Hm. apply strict_eq_true in Hm.
    pose proof (U k0 f0 Hin Hm). subst k0.
    apply (JsMapFacts.In_get _ _ _ ND) in Hin. rewrite G in Hin.
    injection Hin as ->. reflexivity.
  - apply JsMapFacts.get_In in G. apply (find_none _ _ F) in G. simpl in G.
    apply strict_eq_false in G. contradiction.
Qed.

Lemma only_under_set temp key record (m : JsMap.t ExtendedFile.t) :
  only_under temp key m -> only_under temp key (JsMap.set key record m).
Proof.
  intros U k f Hin T. apply JsMapFacts.In_set in Hin as [[-> _]|Hin]; [reflexivity|].
  exact (U k f Hin T).
Qed.

Lemma remove_nth_last {A} (l : list A) (x : A) : remove_nth (length l) (l ++ [x]) = l.
Proof. induction l as [|y l IH]; simpl; [reflexivity | now rewrite IH]. Qed.

Lemma nth_error_last {A} (l : list A) (x : A) : nth_error (l ++ [x]) (length l) = Some x.
Proof. induction l as [|y l IH]; simpl; [reflexivity | exact IH]. Qed.

Lemma handleFile_trace toolResource sel w :
  trace (handleFile toolResource sel w)
  = if decodes sel then [] else [mutate (selection_form toolResource sel)].
Proof.
  unfold handleFile, decodes, selection_form. cbv zeta.
  set (ext := registered sel toolResource).
  assert (P : ExtendedFile.preview ext
              = Some (if startsWith "image/" (File.type (Selected.file sel))
                      then Selected.objectURL sel else "")) by reflexivity.
  rewrite P. clearbody ext. rewrite bind_run.
  destruct (startsWith "image/" (File.type (Selected.file sel))); simpl;
    [destruct (truthy (Selected.objectURL sel))|]; reflexivity.
Qed.

Lemma forEach_handleFile_trace toolResource fileList : forall w,
  trace (forEach fileList (handleFile toolResource) w)
  = flat_map (fun sel => if decodes sel then []
                         else [mutate (selection_form toolResource sel)]) fileList.
Proof.
  unfold forEach. induction fileList as [|sel rest IH]; intros w; [reflexivity|].
  simpl foldM. rewrite bind_run.
  pose proof (handleFile_run toolResource sel w) as [O W].
  pose proof (handleFile_trace toolResource sel w) as T.
  destruct (handleFile toolResource sel w) as [[o w1] t1].
  unfold outcome, world, trace in O, W, T. simpl in O, W, T. subst o t1.
  unfold trace at 1. simpl snd. rewrite IH. reflexivity.
Qed.

Lemma trace_FilesSelected env fileList toolResource w :
  trace (handle env (FilesSelected (Some fileList) toolResource) w)
  = flat_map (fun sel => if decodes sel then []
                         else [mutate (selection_form toolResource sel)]) fileList.
Proof.
  simpl. rewrite bind_run. simpl. apply forEach_handleFile_trace.
Qed.

Lemma trace_ImageLoaded env n width height w ext pv :
  nth_error (decoding w) n = Some (ext, pv) ->
  trace (handle env (ImageLoaded n width height) w)
  = [mutate (measured_form ext width height); revokeObjectURL pv].
Proof.
  intros E. simpl. rewrite bind_run. simpl. rewrite E. reflexivity.
Qed.

Lemma trace_UploadSucceeded env n data w fd :
  nth_error (inflight w) n = Some fd ->
  trace (handle env (UploadSucceeded n data) w)
  = [logger_log "File uploaded successfully";
     showToast "File uploaded successfully" "success"].
Proof.
  intros E. simpl. rewrite bind_run. simpl. rewrite E. reflexivity.
Qed.

(** X10. A selected file through to its acknowledgment. In a registry in
    which no other record carries the generated identifier, selecting one
    file, letting its decoding complete if it is decoded, and acknowledging
    its submission under that identifier leaves under the generated
    identifier the record of the selection merged with the decoded
    dimensions and the acknowledgment, and every other entry, every other
    pending decoding and every other submission as they were. The effects are
    one submission, the release of the object reference of a decoded image,
    and the success log and notice. The preview of a decoded image remains
    the released object reference; an image that was not decoded shows its
    stored path, and any other file has no preview. *)
Theorem upload_completes (env : Env) (w : World) (sel : Selected.t)
    (toolResource : option string) (width height : Z) (data : TFileUpload.t) :
  NoDup (JsMap.keys (files w)) ->
  only_under (Selected.uuid sel) (Selected.uuid sel) (files w) ->
  TFileUpload.temp_file_id data = Selected.uuid sel ->
  let events := upload_events w sel toolResource width height data in
  let submitted :=
    if decodes sel then measured (registered sel toolResource) width height
    else registered sel toolResource in
  files (run env w events)
  = JsMap.set (Selected.uuid sel) (uploaded submitted data) (files w)
  /\ decoding (run env w events) = decoding w
  /\ inflight (run env w events) = inflight w
  /\ filesLoading (run env w events) = false
  /\ effects env w events
     = (if decodes sel
        then [mutate (measured_form (registered sel toolResource) width height);
              revokeObjectURL (Selected.objectURL sel)]
        else [mutate (selection_form toolResource sel)])
       ++ [logger_log "File uploaded successfully";
           showToast "File uploaded successfully" "success"]
  /\ ExtendedFile.preview (uploaded submitted data)
     = (if decodes sel then Some (Selected.objectURL sel)
        else if startsWith "image/" (File.type (Selected.file sel))
             then Some (TFileUpload.filepath data) else None).
Proof.
  intros ND U T events submitted. unfold events, upload_events, submitted.
  clear events submitted.
  pose proof (exec_FilesSelected env [sel] toolResource w) as E1. simpl in E1.
  assert (T1 : trace (handle env (FilesSelected (Some [sel]) toolResource) w)
               = if decodes sel then [] else [mutate (selection_form toolResource sel)]).
  { rewrite trace_FilesSelected. simpl. apply app_nil_r. }
  set (e1 := FilesSelected (Some [sel]) toolResource) in *.
  destruct (decodes sel) eqn:D.
  - set (ext := registered sel toolResource).
    assert (N1 : nth_error (decoding (exec env e1 w)) (length (decoding w))
                 = Some (ext, Selected.objectURL sel)).
    { rewrite E1. unfold selected_world. rewrite D. simpl. apply nth_error_last. }
    pose proof (exec_ImageLoaded env (length (decoding w)) width height _ _ _ N1) as E2.
    pose proof (trace_ImageLoaded env (length (decoding w)) width height _ _ _ N1) as T2.
    set (e2 := ImageLoaded (length (decoding w)) width height) in *.
    assert (F2 : files (exec env e2 (exec env e1 w))
                 = JsMap.set (Selected.uuid sel) (measured ext width height) (files w)).
    { rewrite E2, E1. unfold selected_world. simpl. apply set_set. }
    assert (D2 : decoding (exec env e2 (exec env e1 w)) = decoding w).
    { rewrite E2, E1. unfold selected_world. rewrite D. simpl. apply remove_nth_last. }
    assert (I2 : inflight (exec env e2 (exec env e1 w))
                 = inflight w ++ [measured_form ext width height]).
    { rewrite E2, E1. unfold selected_world. rewrite D. reflexivity. }
    assert (N2 : nth_error (inflight (exec env e2 (exec env e1 w))) (length (inflight w))
                 = Some (measured_form ext width height)).
    { rewrite I2. apply nth_error_last. }
    pose proof (exec_UploadSucceeded env (length (inflight w)) data _ _ N2) as E3.
    pose proof (trace_UploadSucceeded env (length (inflight w)) data _ _ N2) as T3.
    unfold run. cbn [fold_left effects]. rewrite E3, T1, T2, T3, F2, D2, I2. simpl.
    rewrite remove_nth_last.
    rewrite (onSuccess_updater_unique data _ (Selected.uuid sel) (measured ext width height)).
    + rewrite set_set. repeat split.
      unfold decodes in D. apply andb_true_iff in D as [Img Tr]. simpl.
      rewrite Img, Tr. reflexivity.
    + now apply JsMapFacts.NoDup_keys_set.
    + apply JsMapFacts.get_set_same.
    + simpl. now rewrite T.
    + rewrite T. now apply only_under_set.
  - set (ext := registered sel toolResource).
    assert (F1 : files (exec env e1 w) = JsMap.set (Selected.uuid sel) ext (files w)).
    { rewrite E1. reflexivity. }
    assert (D1 : decoding (exec env e1 w) = decoding w).
    { rewrite E1. unfold selected_world. rewrite D. reflexivity. }
    assert (I1 : inflight (exec env e1 w) = inflight w ++ [selection_form toolResource sel]).
    { rewrite E1. unfold selected_world. rewrite D. reflexivity. }
    assert (N1 : nth_error (inflight (exec env e1 w)) (length (inflight w))
                 = Some (selection_form toolResource sel)).
    { rewrite I1. apply nth_error_last. }
    pose proof (exec_UploadSucceeded env (length (inflight w)) data _ _ N1) as E3.
    pose proof (trace_UploadSucceeded env (length (inflight w)) data _ _ N1) as T3.
    unfold run. cbn [fold_left effects]. rewrite E3, T1, T3, F1, D1, I1. simpl.
    rewrite remove_nth_last.
    rewrite (onSuccess_updater_unique data _ (Selected.uuid sel) ext).
    + rewrite set_set. repeat split.
      unfold decodes in D. simpl.
      destruct (startsWith "image/" (File.type (Selected.file sel))); [|reflexivity].
      simpl in D. rewrite D. reflexivity.
    + now apply JsMapFacts.NoDup_keys_set.
    + apply JsMapFacts.get_set_same.
    + simpl. now rewrite T.
    + rewrite T. now apply only_under_set.
Qed.

Lemma upload_completes_witness :
  let w := initial_world [] in
  let data := TFileUpload.mk "u1" "f1" "/images/f1.png" in
  let events := upload_events w sample_image None 4 3 data in
  files (run (listing_env []) w events)
  = JsMap.set "u1" (uploaded (measured (registered sample_image None) 4 3) data) []
  /\ ExtendedFile.preview (uploaded (measured (registered sample_image None) 4 3) data)
     = Some "blob:1".
Proof.
  intros w data events.
  destruct (upload_completes (listing_env []) w sample_image None 4 3 data)
    as (F & _ & _ & _ & _ & P).
  - constructor.
  - intros k f [].
  - reflexivity.
  - split; [exact F | exact P].
Defined.

(** ** Maps built from lists of files *)

Lemma find_ext_in {A} (p q : A -> bool) (l : list A) :
  (forall a, In a l -> p a = q a) -> find p l = find q l.
Proof.
  induction l as [|a l IH]; intros H; simpl; [reflexivity|].
  rewrite (H a (or_introl eq_refl)). destruct (q a); [reflexivity|].
  apply IH. intros b Hb. apply H. now right.
Qed.

Lemma find_never {A} (p : A -> bool) (l : list A) :
  (forall a, In a l -> p a = false) -> find p l = None.
Proof.
  induction l as [|a l IH]; intros H; simpl; [reflexivity|].
  rewrite (H a (or_introl eq_refl)). apply IH. intros b Hb. apply H. now right.
Qed.

Lemma last_such_snoc {A} (p : A -> bool) (xs : list A) (x : A) :
  last_such p (xs ++ [x]) = if p x then Some x else last_such p xs.
Proof. unfold last_such. rewrite rev_app_distr. reflexivity. Qed.

(** A map built by setting, for each element that qualifies, its value under
    its key: a lookup returns the value of the last qualifying element with
    that key. *)
Lemma get_fold_set {A V} (cond : A -> bool) (key : A -> string) (val : A -> V)
    (xs : list A) (m0 : JsMap.t V) (k : string) :
  JsMap.get k (fold_left (fun m x => if cond x then JsMap.set (key x) (val x) m else m)
                         xs m0)
  = match last_such (fun x => cond x && (key x =? k)) xs with
    | Some x => Some (val x)
    | None => JsMap.get k m0
    end.
Proof.
  induction xs as [|x xs IH] using rev_ind; [reflexivity|].
  rewrite fold_left_app, last_such_snoc. simpl.
  destruct (cond x); simpl; [|exact IH].
  rewrite JsMapFacts.get_set, String.eqb_sym. destruct (key x =? k); [reflexivity | exact IH].
Qed.

Lemma set_absent {V} (k : string) (v : V) (m : JsMap.t V) :
  ~ In k (JsMap.keys m) -> JsMap.set k v m = m ++ [(k, v)].
Proof.
  induction m as [|[k' v'] m IH]; simpl; intros H; [reflexivity|].
  destruct (k =? k') eqn:E.
  - apply String.eqb_eq in E. subst. exfalso. apply H. now left.
  - rewrite IH; [reflexivity|]. intros Hin. apply H. now right.
Qed.

(** When the keys are distinct and all elements qualify, the map lists the
    elements in their order. *)
Lemma fold_set_distinct {A V} (cond : A -> bool) (key : A -> string) (val : A -> V)
    (xs : list A) : forall m0 : JsMap.t V,
  NoDup (map key xs) ->
  (forall x, In x xs -> cond x = true /\ ~ In (key x) (JsMap.keys m0)) ->
  fold_left (fun m x => if cond x then JsMap.set (key x) (val x) m else m) xs m0
  = m0 ++ map (fun x => (key x, val x)) xs.
Proof.
  induction xs as [|x xs IH]; intros m0 ND H; simpl; [now rewrite app_nil_r|].
  inversion ND as [|? ? Hx ND']. subst.
  destruct (H x (or_introl eq_refl)) as [C F]. rewrite C, (set_absent _ _ _ F).
  rewrite IH; [now rewrite <- app_assoc | exact ND' |].
  intros y Hy. destruct (H y (or_intror Hy)) as [Cy Fy]. split; [exact Cy|].
  unfold JsMap.keys. rewrite map_app, in_app_iff. simpl. intros [Hin|[E|[]]].
  - now apply Fy.
  - apply Hx. rewrite E. now apply in_map.
Qed.

Lemma last_such_key {A} (cond : A -> bool) (key : A -> string) (xs : list A) (k : string) :
  (forall x, In x xs -> cond x = truthy (key x)) ->
  last_such (fun x => cond x && (key x =? k)) xs
  = if truthy k then last_such (fun x => key x =? k) xs else None.
Proof.
  intros C. unfold last_such. destruct (truthy k) eqn:T.
  - apply find_ext_in. intros a Ha. apply in_rev in Ha. rewrite (C a Ha).
    destruct (key a =? k) eqn:E; [|apply andb_false_r].
    apply String.eqb_eq in E. rewrite E, T. reflexivity.
  - apply find_never. intros a Ha. apply in_rev in Ha. rewrite (C a Ha).
    destruct (key a =? k) eqn:E; [|apply andb_false_r].
    apply String.eqb_eq in E. rewrite E, T. reflexivity.
Qed.

Lemma last_such_keyed {A} (g : string -> bool) (key : A -> string) (xs : list A)
    (k : string) :
  last_such (fun x => g (key x) && (key x =? k)) xs
  = if g k then last_such (fun x => key x =? k) xs else None.
Proof.
  unfold last_such. destruct (g k) eqn:T.
  - apply find_ext_in. intros a _.
    destruct (key a =? k) eqn:E; [|apply andb_false_r].
    apply String.eqb_eq in E. rewrite E, T. reflexivity.
  - apply find_never. intros a _.
    destruct (key a =? k) eqn:E; [|apply andb_false_r].
    apply String.eqb_eq in E. rewrite E, T. reflexivity.
Qed.

Lemma fileMap_get env (k : string) :
  JsMap.get k (fileMap env)
  = if truthy k && negb (k =? "__proto__")
    then last_such (fun file => TFile.file_id file =? k) (allFiles env)
    else None.
Proof.
  unfold fileMap.
  rewrite (get_fold_set
             (fun file => truthy (TFile.file_id file)
                          && negb (TFile.file_id file =? "__proto__"))
             TFile.file_id (fun file => file) (allFiles env) JsMap.empty k).
  rewrite (last_such_keyed (fun id => truthy id && negb (id =? "__proto__"))
                           TFile.file_id (allFiles env) k).
  destruct (truthy k && negb (k =? "__proto__")); [|reflexivity].
  now destruct (last_such _ (allFiles env)).
Qed.

Lemma fileMap_prototype_last env :
  fileMap_prototype env
  = last_such (fun file => TFile.file_id file =? "__proto__") (allFiles env).
Proof.
  unfold fileMap_prototype.
  induction (allFiles env) as [|file l IH] using rev_ind; [reflexivity|].
  rewrite fold_left_app, last_such_snoc. simpl.
  destruct (TFile.file_id file =? "__proto__"); [reflexivity | exact IH].
Qed.

(** X11. The lookup table of the listing. The table holds, as its own
    property under a non-empty identifier other than [__proto__], the last
    file of the listing that carries this identifier: a file without
    identifier is never stored, and a later file replaces an earlier one with
    the same identifier. The last file listed under the identifier
    [__proto__] is not stored: it becomes the prototype of the table. A
    lookup finds the last listed file with the identifier looked up when
    there is one and the identifier is not empty; otherwise it finds what the
    table inherits under that name, from its prototype when a listed file
    replaced it and from the prototype of every plain object when none
    did. *)
Theorem fileMap_last_listed_wins (env : Env) (k : string) :
  let last := last_such (fun file => TFile.file_id file =? k) (allFiles env) in
  JsMap.get k (fileMap env) = (if truthy k && negb (k =? "__proto__") then last else None)
  /\ fileMap_prototype env
     = last_such (fun file => TFile.file_id file =? "__proto__") (allFiles env)
  /\ fileMap_lookup env k
     = match (if truthy k then last else None) with
       | Some dbFile => Listed dbFile
       | None =>
           match fileMap_prototype env with
           | Some proto =>
               match TFile.own_truthy proto k with
               | Some true => Foreign
               | Some false => Nothing
               | None => if JsObject.inherited k then Foreign else Nothing
               end
           | None => if JsObject.inherited k then Foreign else Nothing
           end
       end.
Proof.
  intros last. split; [apply fileMap_get|]. split; [apply fileMap_prototype_last|].
  unfold fileMap_lookup. rewrite fileMap_get. fold last.
  destruct (k =? "__proto__") eqn:E.
  - apply String.eqb_eq in E. rewrite andb_false_r.
    assert (P : fileMap_prototype env = last).
    { rewrite fileMap_prototype_last. unfold last. now rewrite E. }
    rewrite P. replace (truthy k) with true by now rewrite E.
    now destruct last.
  - rewrite andb_true_r. destruct (truthy k); [|reflexivity].
    now destruct last.
Qed.

Lemma filesMap_get (files : list ExtendedFile.t) (k : string) :
  JsMap.get k (PromptFiles.filesMap files)
  = if truthy k then last_such (fun file => PromptFiles.key file =? k) files else None.
Proof.
  unfold PromptFiles.filesMap. cbv zeta.
  rewrite (get_fold_set (fun file => truthy (PromptFiles.key file)) PromptFiles.key
                        (fun file => file) files JsMap.empty k).
  rewrite (last_such_key (fun file => truthy (PromptFiles.key file)) PromptFiles.key
                         files k (fun x _ => eq_refl)).
  destruct (truthy k); [|reflexivity].
  now destruct (last_such _ files).
Qed.

Lemma filesMap_distinct (files : list ExtendedFile.t) :
  NoDup (map PromptFiles.key files) ->
  (forall file, In file files -> PromptFiles.key file <> "") ->
  PromptFiles.filesMap files = map (fun file => (PromptFiles.key file, file)) files.
Proof.
  intros ND T. unfold PromptFiles.filesMap. cbv zeta.
  rewrite (fold_set_distinct (fun file => truthy (PromptFiles.key file)) PromptFiles.key
                             (fun file => file) files JsMap.empty ND); [reflexivity|].
  intros x Hx. split; [apply truthy_true; now apply T | intros []].
Qed.

(** X12. The map the component [PromptFiles] keeps. A lookup returns the last
    of the files whose identifier, or provisional identifier when the
    identifier is empty, is the key looked up; a file with neither is left
    out. When these keys are non-empty and distinct the map lists the files
    it was given, in their order. *)
Theorem filesMap_last_file_wins (files : list ExtendedFile.t) :
  (forall k,
     JsMap.get k (PromptFiles.filesMap files)
     = if truthy k then last_such (fun file => PromptFiles.key file =? k) files
       else None)
  /\ (NoDup (map PromptFiles.key files) ->
      (forall file, In file files -> PromptFiles.key file <> "") ->
      JsMap.keys (PromptFiles.filesMap files) = map PromptFiles.key files
      /\ JsMap.values (PromptFiles.filesMap files) = files).
Proof.
  split; [apply filesMap_get|]. intros ND T.
  rewrite (filesMap_distinct files ND T). unfold JsMap.keys, JsMap.values.
  rewrite !map_map. simpl. split; [reflexivity | apply map_id].
Qed.

Lemma filesMap_keyed (registry : JsMap.t ExtendedFile.t) :
  keyed_by_identifier registry ->
  PromptFiles.filesMap (promptFiles registry) = registry.
Proof.
  intros [ND K]. unfold promptFiles, JsMap.values.
  assert (E : map (fun e : string * ExtendedFile.t => PromptFiles.key (snd e)) registry
              = map fst registry).
  { apply map_ext_in. intros [k f] Hin. simpl. now destruct (K k f Hin). }
  rewrite filesMap_distinct.
  - rewrite map_map. rewrite <- (map_id registry) at 2. apply map_ext_in.
    intros [k f] Hin. simpl. now destruct (K k f Hin) as [-> _].
  - rewrite map_map, E. exact ND.
  - intros f Hf. apply in_map_iff in Hf as ([k f'] & <- & Hin). simpl.
    destruct (K k f' Hin) as [-> N]. exact N.
Qed.

Lemma key_identified (file : ExtendedFile.t) :
  ExtendedFile.file_id file <> "" -> PromptFiles.key file = ExtendedFile.file_id file.
Proof. intros H. unfold PromptFiles.key. apply truthy_true in H. now rewrite H. Qed.

(** X13. The component's map of a restored registry. When the persisted map
    names no empty identifier and none for which the lookup in the listing
    finds a value that is no listed file, the registry
    [loadFromToolResources] leaves is keyed the way the component
    [PromptFiles] keys its own map, so the map the component builds from the
    hook's list of files is that registry: same keys, same records, same
    order. *)
Theorem filesMap_of_a_restored_registry (env : Env) (toolResources : AgentToolResources)
    (w : World) :
  (forall id, In id (resource_ids toolResources) ->
     id <> "" /\ fileMap_lookup env id <> Foreign) ->
  let registry := files (world (loadFromToolResources env (Some toolResources) w)) in
  keyed_by_identifier registry
  /\ PromptFiles.filesMap (promptFiles registry) = registry.
Proof.
  intros Ne registry.
  assert (K : keyed_by_identifier registry).
  { destruct (loadFromToolResources_spec env toolResources w) as (w' & t & E & (K & H1 & _)).
    unfold registry. rewrite E. unfold world. simpl. split; [exact K|].
    intros k f Hin. apply (JsMapFacts.In_get _ _ _ K) in Hin.
    destruct (H1 k f Hin) as (c & Hc & L).
    destruct (Ne k (In_pairs_resource_ids toolResources c k Hc)) as [N NF].
    apply loaded_facts in L as (_ & _ & _ & I & _).
    destruct (I NF) as (_ & _ & L1).
    split; [|exact N]. rewrite key_identified; [exact L1 | now rewrite L1]. }
  split; [exact K | now apply filesMap_keyed].
Qed.

Lemma filesMap_of_a_restored_registry_witness :
  let toolResources := [(EToolResources.ocr, Some (Resource.mk (Some ["a"; "b"])))] in
  let registry :=
    files (world (loadFromToolResources (listing_env []) (Some toolResources)
                                        (initial_world []))) in
  PromptFiles.filesMap (promptFiles registry) = registry.
Proof.
  intros toolResources registry.
  apply (filesMap_of_a_restored_registry (listing_env []) toolResources (initial_world [])).
  intros id [<-|[<-|[]]]; split; discriminate.
Defined.

(** X14. The hook's initial registry and the component's map agree. When
    every initial file has an identifier or a provisional identifier, the
    hook never asks for a generated key, and its initial registry is the map
    the component [PromptFiles] builds from the same files. *)
Theorem initial_files_agrees_with_filesMap (initialFiles : list (ExtendedFile.t * string)) :
  (forall file uuid, In (file, uuid) initialFiles -> PromptFiles.key file <> "") ->
  initial_files initialFiles = PromptFiles.filesMap (map fst initialFiles).
Proof.
  unfold initial_files, PromptFiles.filesMap. cbv zeta.
  generalize (@JsMap.empty ExtendedFile.t).
  induction initialFiles as [|[file uuid] rest IH]; intros m H; simpl; [reflexivity|].
  pose proof (H file uuid (or_introl eq_refl)) as N.
  assert (E : (if truthy (ExtendedFile.file_id file) then ExtendedFile.file_id file
               else match ExtendedFile.temp_file_id file with
                    | Some t => if truthy t then t else uuid
                    | None => uuid
                    end) = PromptFiles.key file).
  { unfold PromptFiles.key in *. destruct (truthy (ExtendedFile.file_id file)); [reflexivity|].
    destruct (ExtendedFile.temp_file_id file) as [t|]; [|contradiction].
    destruct (truthy t); [reflexivity | contradiction]. }
  rewrite E. apply truthy_true in N. rewrite N.
  apply IH. intros f u Hin. apply (H f u). now right.
Qed.

Lemma initial_files_agrees_with_filesMap_witness :
  initial_files [(sample_record "a" None 1 None, "u1"); (sample_record "b" None 1 None, "u2")]
  = PromptFiles.filesMap [sample_record "a" None 1 None; sample_record "b" None 1 None].
Proof.
  apply (initial_files_agrees_with_filesMap
           [(sample_record "a" None 1 None, "u1"); (sample_record "b" None 1 None, "u2")]).
  intros file uuid [[= <- <-]|[[= <- <-]|[]]]; discriminate.
Defined.

(** ** Selection of several files *)

Lemma selected_worlds toolResource fileList : forall w,
  let w' := fold_left (fun w sel => selected_world toolResource sel w) fileList w in
  files w'
  = fold_left (fun m sel => if true then JsMap.set (Selected.uuid sel)
                                                   (registered sel toolResource) m
                            else m)
              fileList (files w)
  /\ decoding w'
     = decoding w ++ map (fun sel => (registered sel toolResource, Selected.objectURL sel))
                         (filter decodes fileList)
  /\ inflight w'
     = inflight w ++ map (selection_form toolResource) (submitted_at_once fileList)
  /\ filesLoading w' = filesLoading w.
Proof.
  induction fileList as [|sel rest IH]; intros w; cbv zeta.
  - simpl. now rewrite !app_nil_r.
  - simpl fold_left. destruct (IH (selected_world toolResource sel w)) as (F & D & I & L).
    rewrite F, D, I, L. unfold selected_world, submitted_at_once. simpl.
    destruct (decodes sel); simpl; rewrite <- ?app_assoc; repeat split.
Qed.

Lemma flat_map_submitted toolResource fileList :
  flat_map (fun sel => if decodes sel then []
                       else [mutate (selection_form toolResource sel)]) fileList
  = map (fun sel => mutate (selection_form toolResource sel)) (submitted_at_once fileList).
Proof.
  unfold submitted_at_once.
  induction fileList as [|sel rest IH]; simpl; [reflexivity|].
  destruct (decodes sel); simpl; now rewrite IH.
Qed.

(** X15. Selection of several files. [handleFileChange] does not throw and
    raises the loading flag. Every selected file is registered under its
    generated identifier with the record of the selection (the last one, if
    an identifier were generated twice), and other entries are kept. Every
    selected file becomes pending exactly once: the files that are decoded
    join the pending decodings, in order, and each of the others is submitted
    at once, in order, with one request handed to the transport. Without a
    file list nothing happens. *)
Theorem handleFileChange_registers_every_file (fileList : list Selected.t)
    (toolResource : option string) (w : World) :
  let result := handleFileChange (Some fileList) toolResource w in
  outcome result = Returned tt
  /\ filesLoading (world result) = true
  /\ (forall k,
        JsMap.get k (files (world result))
        = match last_such (fun sel => Selected.uuid sel =? k) fileList with
          | Some sel => Some (registered sel toolResource)
          | None => JsMap.get k (files w)
          end)
  /\ decoding (world result)
     = decoding w ++ map (fun sel => (registered sel toolResource, Selected.objectURL sel))
                         (filter decodes fileList)
  /\ inflight (world result)
     = inflight w ++ map (selection_form toolResource) (submitted_at_once fileList)
  /\ trace result
     = map (fun sel => mutate (selection_form toolResource sel)) (submitted_at_once fileList)
  /\ (length (decoding (world result)) + length (inflight (world result))
      = length (decoding w) + length (inflight w) + length fileList)%nat
  /\ handleFileChange None toolResource w = (Returned tt, w, []).
Proof.
  intros result.
  assert (R : result = (Returned tt,
                        fold_left (fun w sel => selected_world toolResource sel w)
                                  fileList (loading w),
                        map (fun sel => mutate (selection_form toolResource sel))
                            (submitted_at_once fileList))).
  { assert (S : setFilesLoading true w = (Returned tt, loading w, [])) by reflexivity.
    unfold result, handleFileChange. rewrite bind_run, S. cbv beta iota.
    destruct (forEach_handleFile toolResource fileList (loading w)) as [O W].
    rewrite O, W, forEach_handleFile_trace, flat_map_submitted. reflexivity. }
  rewrite R. unfold outcome, world, trace. simpl fst. simpl snd.
  destruct (selected_worlds toolResource fileList (loading w)) as (F & D & I & L).
  rewrite F, D, I, L. repeat split.
  - intros k.
    exact (get_fold_set (fun _ => true) Selected.uuid
                        (fun sel => registered sel toolResource) fileList (files w) k).
  - simpl. rewrite !length_app, !length_map. unfold submitted_at_once.
    assert (P : (length (filter decodes fileList)
                 + length (filter (fun sel => negb (decodes sel)) fileList)
                 = length fileList)%nat).
    { clear. induction fileList as [|sel rest IH]; simpl; [reflexivity|].
      destruct (decodes sel); simpl; lia. }
    lia.
Qed.

(** ** Removal *)

Lemma delete_absent {V} (k : string) (m : JsMap.t V) :
  ~ In k (JsMap.keys m) -> JsMap.delete k m = m.
Proof.
  induction m as [|[k' v'] m IH]; simpl; intros H; [reflexivity|].
  destruct (k =? k') eqn:E.
  - apply String.eqb_eq in E. subst. exfalso. apply H. now left.
  - rewrite IH; [reflexivity|]. intros Hin. apply H. now right.
Qed.

Lemma handleFileRemove_run env fileId w :
  handleFileRemove env fileId w
  = (Returned tt,
     mkWorld (JsMap.delete fileId (files w)) (filesLoading w) (abortControllerRef w)
             (decoding w) (inflight w) (clock w),
     if fileSetter env then [fileSetter_call (remaining fileId (promptFiles (files w)))]
     else []).
Proof.
  unfold handleFileRemove. rewrite !bind_run. simpl.
  destruct (fileSetter env); reflexivity.
Qed.

Lemma In_remaining fileId fs f :
  In f (remaining fileId fs) <->
  In f fs /\ ExtendedFile.raw_file_id f <> Some fileId
  /\ ExtendedFile.temp_file_id f <> Some fileId.
Proof.
  unfold remaining. rewrite filter_In, andb_true_iff, !negb_true_iff.
  rewrite !strict_eq_false. tauto.
Qed.

(** X16. Removal is by registry key. [handleFileRemove] does not throw; in
    the registry it deletes the entry under the key it is given and no
    other, so a key the registry does not hold leaves the registry as it
    was, even when a record carries that value as its identifier. Pending
    decodings and submissions are kept. When the hook was given a setter, the
    setter receives once the files of the registry before the removal whose
    identifier and provisional identifier both differ from the key, a record
    without identifier or without provisional identifier differing in that
    one from every key; otherwise there is no effect. *)
Theorem handleFileRemove_deletes_by_key (env : Env) (fileId : string) (w : World) :
  NoDup (JsMap.keys (files w)) ->
  let result := handleFileRemove env fileId w in
  outcome result = Returned tt
  /\ JsMap.get fileId (files (world result)) = None
  /\ (forall k, k <> fileId ->
        JsMap.get k (files (world result)) = JsMap.get k (files w))
  /\ (~ In fileId (JsMap.keys (files w)) -> files (world result) = files w)
  /\ decoding (world result) = decoding w
  /\ inflight (world result) = inflight w
  /\ filesLoading (world result) = filesLoading w
  /\ trace result
     = (if fileSetter env
        then [fileSetter_call (remaining fileId (promptFiles (files w)))] else [])
  /\ (forall f, In f (remaining fileId (promptFiles (files w))) <->
        In f (promptFiles (files w)) /\ ExtendedFile.raw_file_id f <> Some fileId
        /\ ExtendedFile.temp_file_id f <> Some fileId).
Proof.
  intros ND result. unfold result. rewrite handleFileRemove_run.
  unfold outcome, world, trace. simpl.
  split; [reflexivity|]. split; [now apply JsMapFacts.get_delete_same|].
  split; [intros k Hk; now apply JsMapFacts.get_delete_other|].
  split; [apply delete_absent|].
  do 4 (split; [reflexivity|]). intros f. apply In_remaining.
Qed.

Lemma handleFileRemove_deletes_by_key_witness :
  let w := initial_world [("u1", sample_record "f1" None 1 None)] in
  files (world (handleFileRemove observed_env "f1" w)) = files w
  /\ trace (handleFileRemove observed_env "f1" w) = [fileSetter_call []].
Proof.
  intros w.
  destruct (handleFileRemove_deletes_by_key observed_env "f1" w)
    as (_ & _ & _ & K & _ & _ & _ & T & _).
  - repeat constructor. intros [].
  - split; [apply K; intros [E|[]]; discriminate | exact T].
Defined.

Lemma not_key_after_delete (k : string) (m : JsMap.t ExtendedFile.t) :
  NoDup (JsMap.keys m) -> ~ In k (JsMap.keys (JsMap.delete k m)).
Proof.
  intros ND. apply JsMapFacts.get_None. now apply JsMapFacts.get_delete_same.
Qed.

(** X17. A removed image returns when its decoding completes. Removal does
    not cancel a pending decoding: when the decoding of an image completes
    after the image was removed, [img.onload] registers the image again, at
    progress 0.6 with its dimensions, and submits it. *)
Theorem removed_image_returns_when_decoded (env : Env) (w : World) (n : nat)
    (ext : ExtendedFile.t) (pv : string) (width height : Z) :
  nth_error (decoding w) n = Some (ext, pv) ->
  let events := [FileRemoved (ExtendedFile.file_id ext); ImageLoaded n width height] in
  JsMap.get (ExtendedFile.file_id ext) (files (run env w events))
  = Some (measured ext width height)
  /\ inflight (run env w events) = inflight w ++ [measured_form ext width height]
  /\ In (mutate (measured_form ext width height)) (effects env w events).
Proof.
  intros N events. unfold events, run. cbn [fold_left effects].
  destruct (exec_FileRemoved env (ExtendedFile.file_id ext) w) as (F & D & I).
  assert (N1 : nth_error (decoding (exec env (FileRemoved (ExtendedFile.file_id ext)) w)) n
               = Some (ext, pv)) by (now rewrite D).
  rewrite (exec_ImageLoaded env n width height _ ext pv N1).
  rewrite (trace_ImageLoaded env n width height _ ext pv N1). simpl.
  rewrite I. split; [apply JsMapFacts.get_set_same|]. split; [reflexivity|].
  apply in_or_app. right. now left.
Qed.

Lemma removed_image_returns_when_decoded_witness :
  let w := run (listing_env []) (initial_world [])
               [FilesSelected (Some [sample_image]) None] in
  JsMap.get "u1" (files (run (listing_env []) w [FileRemoved "u1"])) = None
  /\ JsMap.get "u1" (files (run (listing_env []) w [FileRemoved "u1"; ImageLoaded 0 4 3]))
     = Some (measured (registered sample_image None) 4 3).
Proof.
  intros w. split; [reflexivity|].
  apply (removed_image_returns_when_decoded (listing_env []) w 0
           (registered sample_image None) "blob:1" 4 3).
  reflexivity.
Defined.

(** X18. The acknowledgment of a removed file is dropped. When the only
    record that carries the acknowledged provisional identifier was removed
    while its submission was in flight, the acknowledgment registers
    nothing: the registry stays as the removal left it. The success log and
    notice are emitted all the same, and the loading flag is lowered. *)
Theorem acknowledgment_of_a_removed_file_is_dropped (env : Env) (w : World) (n : nat)
    (formData : FormData) (data : TFileUpload.t) (key : string) :
  NoDup (JsMap.keys (files w)) ->
  only_under (TFileUpload.temp_file_id data) key (files w) ->
  nth_error (inflight w) n = Some formData ->
  let events := [FileRemoved key; UploadSucceeded n data] in
  files (run env w events) = JsMap.delete key (files w)
  /\ JsMap.get key (files (run env w events)) = None
  /\ filesLoading (run env w events) = false
  /\ effects env w events
     = trace (handleFileRemove env key w)
       ++ [logger_log "File uploaded successfully";
           showToast "File uploaded successfully" "success"].
Proof.
  intros ND U N events. unfold events, run. cbn [fold_left effects].
  destruct (exec_FileRemoved env key w) as (F & D & I).
  assert (N1 : nth_error (inflight (exec env (FileRemoved key) w)) n = Some formData)
    by (now rewrite I).
  rewrite (exec_UploadSucceeded env n data _ formData N1).
  rewrite (trace_UploadSucceeded env n data _ formData N1). simpl.
  rewrite F, onSuccess_updater_miss.
  - rewrite ?app_nil_r. repeat split. now apply JsMapFacts.get_delete_same.
  - intros k f Hin T. pose proof (JsMapFacts.In_delete _ _ _ _ Hin) as Hin'.
    pose proof (U k f Hin' T). subst k.
    apply (not_key_after_delete key (files w) ND). exact (In_keys key f _ Hin).
Qed.

Lemma acknowledgment_of_a_removed_file_is_dropped_witness :
  let w := run (listing_env []) (initial_world [])
               [FilesSelected (Some [sample_text]) None] in
  files (run (listing_env []) w
             [FileRemoved "u1"; UploadSucceeded 0 (TFileUpload.mk "u1" "f1" "/uploads/f1")])
  = JsMap.delete "u1" (files w).
Proof.
  intros w.
  destruct (acknowledgment_of_a_removed_file_is_dropped (listing_env []) w 0
              (selection_form None sample_text) (TFileUpload.mk "u1" "f1" "/uploads/f1") "u1")
    as (F & _).
  - repeat constructor. intros [].
  - intros k f [[= <- <-]|[]] _. reflexivity.
  - reflexivity.
  - exact F.
Defined.

(** ** Restoring and then projecting *)

Lemma NoDup_app_apart {A} (l1 l2 : list A) (a : A) :
  NoDup (l1 ++ l2) -> In a l1 -> ~ In a l2.
Proof.
  intros ND H1 H2. apply in_split in H2 as (p & q & ->).
  rewrite app_assoc in ND. apply NoDup_remove_2 in ND. apply ND.
  rewrite <- app_assoc. apply in_or_app. now left.
Qed.

Lemma flat_map_NoDup_unique {A B} (f : A -> list B) (l : list A) (x y : A) (k : B) :
  NoDup (flat_map f l) -> In x l -> In y l -> In k (f x) -> In k (f y) -> x = y.
Proof.
  induction l as [|a l IH]; simpl; intros ND Hx Hy Kx Ky; [contradiction|].
  assert (Out : forall z, In z l -> In k (f z) -> In k (f a) -> False).
  { intros z Hz Kz Ka. apply (NoDup_app_apart _ _ k ND Ka).
    apply in_flat_map. now exists z. }
  destruct Hx as [<-|Hx], Hy as [<-|Hy].
  - reflexivity.
  - exfalso. now apply (Out y).
  - exfalso. now apply (Out x).
  - apply IH; auto. now apply NoDup_app_remove_l in ND.
Qed.

Lemma one_category_per_restored_identifier (tr : AgentToolResources) c c' k :
  NoDup (resource_ids tr) ->
  In (c, k) (pairs_of (JsObject.entries tr)) ->
  In (c', k) (pairs_of (JsObject.entries tr)) -> c = c'.
Proof.
  intros ND H H'.
  apply In_pairs_of in H as (ids & Hin & Hk). apply In_pairs_of in H' as (ids' & Hin' & Hk').
  apply (proj1 (JsObjectFacts.In_entries _ _)) in Hin.
  apply (proj1 (JsObjectFacts.In_entries _ _)) in Hin'.
  pose proof (flat_map_NoDup_unique _ tr _ _ k ND Hin Hin' Hk Hk') as E.
  now injection E.
Qed.

(** X19. Restoring and then projecting. For a persisted map in which every
    category is named once, every identifier is named once, no category that
    has identifiers and no identifier is empty, no category that has
    identifiers is a name every plain object inherits, and the lookup in the
    listing finds for no identifier a value that is no listed file:
    restoring the map and then projecting the registry does not throw and
    files exactly the identifiers of the map under exactly their categories;
    the projection is absent exactly when the map names no identifier. *)
Theorem projection_of_a_restored_map (env : Env) (toolResources : AgentToolResources)
    (w : World) :
  NoDup (JsMap.keys toolResources) ->
  NoDup (resource_ids toolResources) ->
  (forall c id, filed toolResources c id ->
     c <> "" /\ id <> ""
     /\ JsObject.inherited c = false /\ fileMap_lookup env id <> Foreign) ->
  exists projected,
    project (files (world (loadFromToolResources env (Some toolResources) w)))
    = Returned projected
    /\ match projected with
       | Some toolResources' =>
           well_formed toolResources'
           /\ forall c id, filed toolResources' c id <-> filed toolResources c id
       | None => forall c id, ~ filed toolResources c id
       end.
Proof.
  intros NK NI Ne.
  destruct (loadFromToolResources_spec env toolResources w) as (w' & t & E & (K & H1 & H2)).
  rewrite E. unfold world. simpl. unfold project.
  assert (Rec : forall k file, In (k, file) (files w') ->
            exists c0, filed toolResources c0 k
                       /\ ExtendedFile.file_id file = k /\ category file = c0).
  { intros k file Hin. apply (JsMapFacts.In_get _ _ _ K) in Hin.
    destruct (H1 k file Hin) as (c0 & Hc0 & L).
    apply (In_pairs_filed toolResources c0 k NK) in Hc0.
    destruct (Ne c0 k Hc0) as (Nc0 & _ & _ & NF).
    apply loaded_facts in L as (L3 & _ & _ & I & _).
    destruct (I NF) as (_ & _ & L1).
    exists c0. split; [exact Hc0|]. split; [exact L1|]. now apply category_tagged. }
  assert (O : ordinary_categories (promptFiles (files w'))).
  { intros file Hin _. apply In_promptFiles in Hin as [k Hin].
    destruct (Rec k file Hin) as (c0 & Hc0 & _ & ->).
    now destruct (Ne c0 k Hc0) as (_ & _ & Ord & _). }
  destruct (getToolResources_spec (promptFiles (files w')) O) as (r & Er & Hr).
  exists r. split; [exact Er|].
  assert (Back : forall c id, filed toolResources c id ->
            exists record, In record (promptFiles (files w'))
                           /\ ExtendedFile.file_id record = id /\ category record = c).
  { intros c id Hf. apply filed_In_pairs in Hf.
    destruct (H2 c id Hf) as [record G].
    pose proof (JsMapFacts.get_In _ _ _ G) as Hin.
    destruct (Rec id record Hin) as (c0 & Hc0 & L1 & Hc).
    apply filed_In_pairs in Hc0.
    pose proof (one_category_per_restored_identifier toolResources c0 c id NI Hc0 Hf).
    subst c0. exists record. split; [exact (In_promptFiles_get G)|]. now split. }
  destruct r as [tr'|].
  - destruct Hr as (_ & WF & Hfiled). split; [exact WF|].
    intros c id. rewrite Hfiled. split.
    + intros (file & Hin & Nid & Hc & Hid).
      apply In_promptFiles in Hin as [k Hin].
      destruct (Rec k file Hin) as (c0 & Hc0 & L1 & Hc').
      rewrite Hc' in Hc. subst c0. rewrite L1 in Hid. now subst k.
    + intros Hf. destruct (Back c id Hf) as (record & Hin & Hid & Hc).
      exists record. destruct (Ne c id Hf) as (_ & Nid & _). rewrite Hid. auto.
  - intros c id Hf. destruct (Back c id Hf) as (record & Hin & Hid & _).
    destruct (Ne c id Hf) as (_ & Nid & _). apply Nid. rewrite <- Hid. now apply Hr.
Qed.

Lemma projection_of_a_restored_map_witness :
  exists projected,
    project (files (world (loadFromToolResources (listing_env [])
               (Some [(EToolResources.ocr, Some (Resource.mk (Some ["a"; "b"])))])
               (initial_world []))))
    = Returned projected.
Proof.
  destruct (projection_of_a_restored_map (listing_env [])
              [(EToolResources.ocr, Some (Resource.mk (Some ["a"; "b"])))]
              (initial_world []))
    as (projected & E & _).
  - repeat constructor. intros [].
  - repeat constructor; simpl; intuition discriminate.
  - intros c id. unfold filed, file_ids_of. simpl.
    destruct (c =? EToolResources.ocr) eqn:Ec; [|intros []].
    apply String.eqb_eq in Ec. subst c.
    intros [<-|[<-|[]]]; repeat split; discriminate.
  - exists projected. exact E.
Defined.

(** ** The pending work *)

(** X20. Images being decoded keep their placeholder. Along events that can
    happen, with restorations that name no image being decoded, from an
    initial registry with progress values at most 1: the images being decoded
    have distinct identifiers, none of them is in flight, and for each of
    them the registry holds, if anything, the record registered at its
    selection, at progress 0 and with the provisional identifier equal to the
    identifier. *)
Theorem decoding_images_keep_their_placeholder (env : Env) (fs : JsMap.t ExtendedFile.t)
    (events : list Event) :
  NoDup (JsMap.keys fs) ->
  bounded fs ->
  admissible_with guarded env (initial_world fs) events = true ->
  let w := run env (initial_world fs) events in
  NoDup (decoding_ids w)
  /\ (forall id, In id (decoding_ids w) -> ~ In id (inflight_ids w))
  /\ (forall ext pv, In (ext, pv) (decoding w) ->
        ExtendedFile.progress ext = 0%Q
        /\ ExtendedFile.temp_file_id ext = Some (ExtendedFile.file_id ext)
        /\ forall f, JsMap.get (ExtendedFile.file_id ext) (files w) = Some f -> f = ext).
Proof.
  intros K B Ad w.
  pose proof (run_pipeline env events (initial_world fs) (initial_pipeline fs K B) Ad) as Inv.
  fold w in Inv. destruct Inv as [_ _ Dec Reg Dis Apart].
  split; [exact Dis|]. split; [exact Apart|].
  intros ext pv Hin. destruct (Dec ext pv Hin) as [P T].
  split; [exact P|]. split; [exact T|].
  intros f G. apply (Reg ext pv f Hin). now apply JsMapFacts.get_In.
Qed.

Lemma decoding_images_keep_their_placeholder_witness :
  NoDup (decoding_ids (run (listing_env []) (initial_world [])
                           [FilesSelected (Some [sample_image]) None])).
Proof.
  destruct (decoding_images_keep_their_placeholder (listing_env []) []
              [FilesSelected (Some [sample_image]) None]) as (H & _).
  - constructor.
  - intros k f [].
  - reflexivity.
  - exact H.
Defined.

Lemma complete_selection_form toolResource sel :
  complete_submission (selection_form toolResource sel).
Proof.
  unfold complete_submission, selection_form, submission. simpl.
  split; [reflexivity|]. split; [reflexivity|]. split; [eauto|]. split; [eauto|].
  destruct toolResource as [tr|]; simpl; [destruct (truthy tr) eqn:T; simpl|].
  - split; [tauto|]. intros [= ->]. discriminate T.
  - split; [tauto | discriminate].
  - split; [tauto | discriminate].
Qed.

Lemma complete_measured_form ext width height file name :
  ExtendedFile.file ext = Some file -> ExtendedFile.filename ext = Some name ->
  complete_submission (measured_form ext width height).
Proof.
  intros F N. unfold complete_submission, measured_form, submission. rewrite F, N. simpl.
  split; [reflexivity|]. split; [reflexivity|]. split; [eauto|]. split; [eauto|].
  split; [split; discriminate|].
  destruct (ExtendedFile.tool_resource ext) as [tr|]; simpl;
    [destruct (truthy tr) eqn:T; simpl|]; try discriminate.
  intros [= ->]. discriminate T.
Qed.

Lemma exec_sound env e w : pending_work_is_sound w -> pending_work_is_sound (exec env e w).
Proof.
  intros [I D]. destruct e as [[l|] tr|n wd ht|n data|n error|fileId|tr|].
  - rewrite exec_FilesSelected.
    destruct (selected_worlds tr l (loading w)) as (_ & Dl & Il & _).
    split.
    + intros fd. rewrite Il. simpl. rewrite in_app_iff, in_map_iff.
      intros [H|(sel & <- & _)]; [now apply I | apply complete_selection_form].
    + intros ext pv. rewrite Dl. simpl. rewrite in_app_iff, in_map_iff.
      intros [H|(sel & [= <- <-] & _)]; [now apply (D ext pv)|].
      simpl. eauto.
  - split; assumption.
  - destruct (nth_error (decoding w) n) as [[ext pv]|] eqn:E.
    + rewrite (exec_ImageLoaded env n wd ht w ext pv E). split; simpl.
      * intros fd. rewrite in_app_iff. intros [H|[<-|[]]]; [now apply I|].
        destruct (D ext pv (nth_error_In _ _ E)) as (file & name & F & N).
        exact (complete_measured_form ext wd ht file name F N).
      * intros ext' pv' H. apply In_remove_nth in H. now apply (D ext' pv').
    + unfold exec. simpl. rewrite bind_run. simpl. rewrite E. split; assumption.
  - destruct (nth_error (inflight w) n) as [fd|] eqn:E.
    + rewrite (exec_UploadSucceeded env n data w fd E). split; simpl; [|exact D].
      intros fd' H. apply In_remove_nth in H. now apply I.
    + unfold exec. simpl. rewrite bind_run. simpl. rewrite E. split; assumption.
  - destruct (nth_error (inflight w) n) as [fd|] eqn:E.
    + rewrite (exec_UploadFailed env n error w fd E). split; simpl; [|exact D].
      intros fd' H. apply In_remove_nth in H. now apply I.
    + unfold exec. simpl. rewrite bind_run. simpl. rewrite E. split; assumption.
  - destruct (exec_FileRemoved env fileId w) as (_ & Dx & Ix).
    unfold pending_work_is_sound. now rewrite Dx, Ix.
  - destruct (exec_ToolResourcesLoaded env tr w) as (Dx & Ix & _).
    unfold pending_work_is_sound. now rewrite Dx, Ix.
  - destruct (exec_UploadAborted env w) as (_ & Dx & Ix).
    unfold pending_work_is_sound. now rewrite Dx, Ix.
Qed.

(** X21. Every submission is complete. Whatever happens to the hook, every
    submission in flight names the agents endpoint, carries the browser's
    file under its name, an identifier and the mark of a message attachment,
    has the width together with the height or neither, and has a category
    only when the category is not empty; and every image being decoded has
    its browser file. *)
Theorem submissions_are_complete (env : Env) (fs : JsMap.t ExtendedFile.t)
    (events : list Event) :
  pending_work_is_sound (run env (initial_world fs) events).
Proof.
  apply (run_invariant pending_work_is_sound env (exec_sound env)).
  split; [intros fd [] | intros ext pv []].
Qed.

(** * The identifier of a record through its lifetime *)

Lemma last_such_In {A} (p : A -> bool) (xs : list A) (x : A) :
  In x xs -> p x = true ->
  exists y, last_such p xs = Some y /\ In y xs /\ p y = true.
Proof.
  intros Hin Hp. unfold last_such. destruct (find p (rev xs)) as [y|] eqn:F.
  - apply find_some in F as [Hy Py]. exists y. split; [reflexivity|].
    split; [now apply in_rev | exact Py].
  - apply in_rev in Hin. pose proof (find_none _ _ F x Hin) as N.
    rewrite Hp in N. discriminate N.
Qed.

Lemma NoDup_map_same {A B} (f : A -> B) (l : list A) (x y : A) :
  NoDup (map f l) -> In x l -> In y l -> f x = f y -> x = y.
Proof.
  induction l as [|a l IH]; simpl; intros ND Hx Hy E; [contradiction|].
  inversion ND as [|? ? Ha ND']. subst.
  destruct Hx as [<-|Hx], Hy as [<-|Hy].
  - reflexivity.
  - exfalso. apply Ha. rewrite E. now apply in_map.
  - exfalso. apply Ha. rewrite <- E. now apply in_map.
  - now apply IH.
Qed.

(** The registry [handleFileChange] leaves holds, under the identifier
    generated for a selected file, the record registered for the last file
    of the selection that was given this identifier. *)
Lemma handleFileChange_registered fileList toolResource w sel :
  In sel fileList ->
  exists sel',
    In sel' fileList /\ Selected.uuid sel' = Selected.uuid sel
    /\ JsMap.get (Selected.uuid sel)
                 (files (world (handleFileChange (Some fileList) toolResource w)))
       = Some (registered sel' toolResource).
Proof.
  intros Hin.
  assert (W : world (handleFileChange (Some fileList) toolResource w)
              = fold_left (fun w sel => selected_world toolResource sel w)
                          fileList (loading w)).
  { assert (S : setFilesLoading true w = (Returned tt, loading w, [])) by reflexivity.
    unfold handleFileChange. rewrite bind_run, S. cbv beta iota.
    exact (proj2 (forEach_handleFile toolResource fileList (loading w))). }
  rewrite W.
  destruct (selected_worlds toolResource fileList (loading w)) as (F & _).
  rewrite F.
  rewrite (get_fold_set (fun _ => true) Selected.uuid
                        (fun sel => registered sel toolResource) fileList
                        (files (loading w)) (Selected.uuid sel)).
  destruct (last_such_In (fun x => true && (Selected.uuid x =? Selected.uuid sel))
                         fileList sel Hin) as (sel' & L & Hin' & P).
  { simpl. apply String.eqb_refl. }
  rewrite L. simpl in P. apply String.eqb_eq in P. now exists sel'.
Qed.

(** C10, as amended. [handleFileChange] registers, for every file of the
    selection, under the identifier generated for it, a record that carries
    this identifier both as [file_id] and as [temp_file_id] and is still
    uploading; when the generated identifiers are distinct this is the
    record built from that file. Along every sequence of events that can
    happen to a hook whose initial records have a non-empty [file_id], where
    the service assigns non-empty identifiers and the persisted maps name
    non-empty identifiers that the lookup resolves to a listed file or to
    nothing, every record of the registry has a non-empty [file_id] at every
    point. So the test for a non-empty [file_id] answers the same for the
    record [handleFileChange] registered, which is still uploading, and for
    the record [onSuccess] puts in its place, which is persisted. *)
Theorem file_id_is_set_from_selection (env : Env) :
  (forall fileList toolResource w sel,
     In sel fileList ->
     exists record,
       JsMap.get (Selected.uuid sel)
                 (files (world (handleFileChange (Some fileList) toolResource w)))
       = Some record
       /\ ExtendedFile.raw_file_id record = Some (Selected.uuid sel)
       /\ ExtendedFile.temp_file_id record = ExtendedFile.raw_file_id record
       /\ still_uploading record
       /\ (NoDup (map Selected.uuid fileList) -> record = registered sel toolResource))
  /\ (forall fs events,
        (forall k f, In (k, f) fs -> ExtendedFile.file_id f <> "") ->
        admissible_with (identified env) env (initial_world fs) events = true ->
        forall k f, In (k, f) (files (run env (initial_world fs) events)) ->
                    ExtendedFile.file_id f <> "")
  /\ (forall sel toolResource w data,
        NoDup (JsMap.keys (files w)) ->
        only_under (Selected.uuid sel) (Selected.uuid sel) (files w) ->
        Selected.uuid sel <> "" ->
        TFileUpload.temp_file_id data = Selected.uuid sel ->
        TFileUpload.file_id data <> "" ->
        let selected := world (handleFileChange (Some [sel]) toolResource w) in
        let acknowledged := world (onSuccess data selected) in
        exists uploading persisted,
          JsMap.get (Selected.uuid sel) (files selected) = Some uploading
          /\ JsMap.get (Selected.uuid sel) (files acknowledged) = Some persisted
          /\ still_uploading uploading
          /\ ExtendedFile.attached persisted = Some true
          /\ ExtendedFile.progress persisted = 1%Q
          /\ ExtendedFile.raw_file_id persisted = Some (TFileUpload.file_id data)
          /\ truthy (ExtendedFile.file_id uploading) = true
          /\ truthy (ExtendedFile.file_id persisted) = true).
Proof.
  split; [|split].
  - intros fileList toolResource w sel Hin.
    destruct (handleFileChange_registered fileList toolResource w sel Hin)
      as (sel' & Hin' & U & G).
    exists (registered sel' toolResource). split; [exact G|].
    split; [simpl; now rewrite U|]. split; [reflexivity|].
    split; [repeat split|].
    intros ND. now rewrite (NoDup_map_same Selected.uuid fileList sel' sel ND Hin' Hin U).
  - intros fs events Init Ad.
    assert (J : identifiers_set (initial_world fs)) by (split; [exact Init | intros ext pv []]).
    apply (run_identified env events _ J Ad).
  - intros sel toolResource w data ND U Nu T Nd selected acknowledged.
    destruct (handleFileChange_registered [sel] toolResource w sel (or_introl eq_refl))
      as (sel' & [<-|[]] & _ & G).
    fold selected in G.
    assert (F : files selected
                = JsMap.set (Selected.uuid sel) (registered sel toolResource) (files w)).
    { unfold selected.
      assert (S : setFilesLoading true w = (Returned tt, loading w, [])) by reflexivity.
      unfold handleFileChange. rewrite bind_run, S. cbv beta iota.
      rewrite (proj2 (forEach_handleFile toolResource [sel] (loading w))).
      reflexivity. }
    exists (registered sel toolResource), (uploaded (registered sel toolResource) data).
    split; [exact G|]. split.
    + unfold acknowledged. rewrite onSuccess_files.
      rewrite (onSuccess_updater_unique data (files selected) (Selected.uuid sel)
                 (registered sel toolResource)).
      * apply JsMapFacts.get_set_same.
      * rewrite F. now apply JsMapFacts.NoDup_keys_set.
      * exact G.
      * simpl. now rewrite T.
      * rewrite T, F. now apply only_under_set.
    + split; [repeat split|]. do 3 (split; [reflexivity|]).
      split; now apply truthy_true.
Qed.

(** A text file is selected and its upload acknowledged: the record has a
    non-empty [file_id] while it is still uploading and once it is
    persisted. *)
Lemma file_id_is_set_from_selection_witness :
  let data := TFileUpload.mk "u1" "srv-1" "/uploads/a.txt" in
  let selected := world (handleFileChange (Some [sample_text]) None (initial_world [])) in
  let acknowledged := world (onSuccess data selected) in
  exists uploading persisted,
    JsMap.get "u1" (files selected) = Some uploading
    /\ JsMap.get "u1" (files acknowledged) = Some persisted
    /\ ExtendedFile.raw_file_id uploading = Some "u1"
    /\ ExtendedFile.attached uploading = Some false
    /\ ExtendedFile.raw_file_id persisted = Some "srv-1"
    /\ ExtendedFile.attached persisted = Some true.
Proof.
  intros data selected acknowledged.
  destruct (file_id_is_set_from_selection (listing_env [])) as (H1 & _ & H3).
  destruct (H1 [sample_text] None (initial_world []) sample_text (or_introl eq_refl))
    as (record & G1 & I1 & _ & (A1 & _) & _).
  destruct (H3 sample_text None (initial_world []) data)
    as (uploading & persisted & G & G' & _ & A & _ & I & _).
  - constructor.
  - intros k f [].
  - discriminate.
  - reflexivity.
  - discriminate.
  - exists uploading, persisted. fold selected in G1. fold selected in G.
    rewrite G in G1. injection G1 as <-. repeat split; assumption.
Defined.

(** C10, as stated, fails on an initial file that has a provisional
    identifier and an empty [file_id]: the hook keeps it, under the
    provisional identifier, with its empty [file_id]. *)
Lemma file_id_is_empty_on_an_initial_record :
  ~ file_id_never_empty (listing_env []) (initial_files [(unidentified_file, "u1")]) [].
Proof.
  unfold file_id_never_empty. intros H.
  apply (H eq_refl "t1" unidentified_file); [now left | reflexivity].
Qed.
